(* ===== verification/_CoqProject ===== *)
-Q . S2P
Prelude.v
JsValue.v
Query.v
Upstream.v
Enrich.v
Handler.v
App.v
Variant.v
Cors.v
Json.v
Bootstrap.v
