(* ===== verification/Prelude.v ===== *)
(** * A verification development of the Afrofiliate partner-dashboard relay

    The repository is an Express application that relays one read endpoint,
    [GET /partner-dashboard/offers], to the Everflow affiliate API.  It has
    two variants of the same program:

    - [src/index.js], the canonical one: request logging, a CORS policy, a
      [/health] route, the offers route, a 404 handler and a last-resort
      error handler;
    - [src/unnamed/part_000], an older variant: an API-key middleware in
      front of the offers route, a laxer validation and a smaller envelope.

    The offers route is the only component with logic.  Per request it
    validates [req.query] ([affiliate_id], [type]), builds the list URL,
    fetches the offer list, then launches one detail lookup per offer
    concurrently ([offers.map(async ...)] joined by [Promise.all]), merges
    [default_payout] and [currency] into each offer with per-offer failure
    absorbed, and answers with a JSON envelope.  Components interact by
    plain calls: the application dispatches to the route, the route calls
    the URL builder, the upstream client and the enrichment; the upstream
    is reached only through the class [Upstream].

    ** Files and what they model (in dependency order)

    - [Prelude] (this file): the string functions of the JavaScript runtime
      the code relies on ([includes], [startsWith], [toLowerCase], [join],
      decimal printing of integers with its inverse), the exception result
      type [js_result] with its bind notation in [relay_scope], the hint
      databases [relay] and [relay_rw], the tactic [relay_case].
    - [JsValue]: JavaScript values produced by JSON ([jv], with a nested
      induction principle and decidable equality); truthiness, [a || b],
      property read (a [TypeError] on [null]), object spread [{...v}],
      object-literal property definition, template-literal conversion
      ([to_string], which throws a [TypeError] on an object with its own
      [toString] key, as [ToPrimitive] does on a value of [JSON.parse]),
      and the invariant [wf] (no object has a duplicate key).
    - [Query]: [req.query] values as [qs] builds them (strings, arrays,
      objects), their truthiness, [.includes] on each shape (throwing on an
      object), strict comparison, template conversion; requests.
    - [Upstream]: [config] (the environment variables), outgoing requests
      and their headers, [fetch] outcomes, the class [Upstream] (the fetch
      oracle and [JSON.parse]) with the instance [table_upstream], the list
      and detail URLs ([index.js] 76-82, 109) and a reader of URL queries.
    - [Enrich]: the per-offer callback ([index.js] 107-132), [Promise.all],
      and the step relation [gather_step] of the concurrent lookups.
    - [Handler]: the offers route of [index.js] (46-156) as [handle_offers],
      returning the response or the escaping exception, and the trace of
      upstream requests in the order they are sent.
    - [App]: the Express application of [index.js] (22-177) as [app_index].
    - [Variant]: [part_000] (12-98) in [Module Part000], sharing [Enrich]
      and [offers_of] with [index.js].
    - [Cors]: the [cors] middleware on the options of each variant
      ([index.js] 13-24, [part_000] 13-19): origin headers, the preflight
      answer, the [vary] helper; [serve_index] and [serve_part000] put it
      in front of [app_index] and [Part000.app] and return the response
      headers with the application's answer.
    - [Json]: [JSON.stringify] as [res.json] sends it ([print], with
      JavaScript's property enumeration order: array indices first) and
      [JSON.parse] ([parse_value], the ECMA-404 grammar with repeated keys
      updating the first); [json_upstream] makes the [json_parse] of
      [Upstream] this parser.
    - [Bootstrap]: the module's top level ([index.js] 1, 10, 182-183;
      [part_000] 1, 9-10, 95-96): [dotenv] filling in the variables the
      process lacks, the record [config], [PORT || 8080], and
      [app.listen(PORT, '0.0.0.0')] with Node's [Number()] ([js_number],
      StringToNumber: trimming, [Infinity], [0x]/[0o]/[0b], decimal with
      fraction and exponent), its rounding to a double ([classify],
      [rounds_to], decided exactly over [Q]), [isPipeName] and
      [validatePort] ([port_of]); [boot] is the state it leaves.

    ** What the theorems show

    - Enrichment: every interleaving of the detail lookups refines the
      sequential map ([gather_refines]); runs terminate (lemmas
      [gather_completes], [gather_step_decreases]) and a [null] offer
      rejects at once ([gather_rejects_early]); the result is positional
      ([enrich_all_positional]) and rejects exactly on [null] offers and
      on ids whose conversion throws ([enrich_all_rejects]); a failed
      lookup leaves the offer untouched ([merge_detail_failure]); a
      successful one keeps every other property in order and sets the
      two fields ([merge_detail_fields]).
    - Route: each branch of [handle_offers] (probe, the two 400s, 502, 500,
      success), the response contract of the spec's section 7
      ([offers_contract]), the credential on every upstream request
      ([offers_trace]), and the list URL's parameters ([list_url_params]).
    - Application: case-insensitive, non-strict routing to the offers
      route ([app_routes_offers]) and the 404 ([app_not_found]).
    - Fan-out: one client request makes exactly one list request and one
      detail request per offer of the upstream's list whose callback
      reaches its [fetch] ([offers_fanout]); nothing in the code caps it.
    - CORS: the preflight answers of both variants, that the route runs
      for every [Origin] ([index_cors_actual]), the wildcard of
      [part_000].
    - JSON: lemmas on the runtime's [JSON.parse] and [JSON.stringify]:
      the parse reads back the printed text ([json_roundtrip]) and builds
      values without duplicate keys ([json_parse_text_wf]), from which
      every JSON answer is an object without duplicate keys
      ([app_answers_json]).
    - Startup: the port the server listens on for an unset, empty or
      decimal [PORT], the exception for one above 65535 ([boot_listen]),
      that a TCP port is always in range ([listen_port_range]), that a
      word gives a Unix socket ([boot_port_name_socket]), and that the
      configuration prefers the process's variables ([boot_config]).
    - Variant: the API-key middleware, the agreement of the two variants on
      the enriched offers ([variants_agree_on_offers]) and their
      differences (status passthrough, no [type] check, 400 without
      [affiliate_id]).
    - Findings, each proved: an object [affiliate_id] throws outside the
      [try]; an array [affiliate_id] bypasses the [{] guard; the affiliate
      id is not URL-encoded, so [a&b] adds the parameter [b]; an empty
      [type] is accepted; a payout of [0] becomes ["N/A"]; an offer id
      that is an object with a [toString] key fails the whole request
      with a 500 ([offers_tostring_id_fails]); [part_000]'s key check is
      bypassed by letter case and it never checks [type]; the CORS list
      is no server-side check; the fan-out has no cap; a [PORT] that is a
      name binds a Unix socket.

    ** Modelling choices and bounds

    - Strings are Stdlib [string]s (8-bit characters): the code compares,
      searches and concatenates them, which the model does exactly on that
      alphabet; UTF-16 code units outside it are not modelled.
    - JSON numbers are integers ([Z]), printed in decimal; the code only
      tests numbers for truthiness, copies them and prints an offer id into
      a URL.  Non-integer numbers and double rounding beyond 2^53 are not
      modelled.
    - [fetch] and [JSON.parse] are parameters (the class [Upstream]), never
      stubs, so every theorem holds for every upstream behaviour; the
      concurrent model lets the lookups complete in any order.
    - Express's version is a parameter where it matters ([express5]).
    - A decimal [PORT] is rounded to a double without floating point:
      [classify] splits off the literals whose double is a zero (below
      [2^-1075], by the digit count and exponent) or is no port (at
      least [10^7]), so the exact value [q] of the rest stays as small as
      the literal, and [rounds_to q n] tests
      that [n] is the nearest double to the exact rational [q] (ulp
      [2^(k-52)], ties to even), which for a port below 2^16 is exact.
    - The only fuel is the JSON parser's ([Json.parse_value]), which
      recurses on nested values: [json_parse_text] gives it one unit per
      character plus one, and [jsize_print] shows that a printed value never
      needs more.  Every other function is structural, and the concurrent
      runs are bounded by the number of pending lookups.
    - [JSON.parse] is modelled on the values of the model: a number with a
      fraction or an exponent, or a [\u] escape above [\u00ff], gets no
      value, as a syntax error does.

    ** Not modelled

    The [morgan] logger and [console.*] output (pure I/O),
    [express.json()] body parsing (the routes read no body; only a
    malformed JSON body would reach the error handler), the [.env] file's
    own syntax (the model takes it as parsed pairs), the listen callback
    (console output), and the wall clock and [process.uptime()] (inputs).

    ** Plan for later work

    Model [express.json()]'s error path into the global error handler (a
    request body and its [Content-Type]). *)

From Stdlib Require Export Ascii String ZArith DecimalString.
From stdpp Require Export base list strings decidable sets.
From Stdlib Require Import Lia DecimalPos DecimalZ.

Declare Scope relay_scope.
Delimit Scope relay_scope with relay.

Create HintDb relay discriminated.
Create Rewrite HintDb relay_rw.

(** ** Exceptions of JavaScript evaluation *)

(** The exceptions the handler can raise: a [TypeError] (property read on
    [null], calling a non-function), a [SyntaxError] ([response.json()] on a
    body that is not JSON), and the rejection of [fetch] (network error). *)
Inductive js_exn :=
  | ETypeError
  | ESyntaxError
  | EFetchError.

(** The result of evaluating a JavaScript expression: a value or a thrown
    exception. *)
Inductive js_result (A : Type) :=
  | Ok (a : A)
  | Throw (e : js_exn).
Arguments Ok {A} a.
Arguments Throw {A} e.

Definition js_bind {A B} (r : js_result A) (k : A -> js_result B) : js_result B :=
  match r with
  | Ok a => k a
  | Throw e => Throw e
  end.

Notation "x <- r ;; k" := (js_bind r (fun x => k))
  (at level 100, r at next level, right associativity) : relay_scope.

Open Scope relay_scope.

Lemma js_bind_ok {A B} (a : A) (k : A -> js_result B) : js_bind (Ok a) k = k a.
Proof. reflexivity. Qed.

Lemma js_bind_throw {A B} e (k : A -> js_result B) : js_bind (Throw e) k = Throw e.
Proof. reflexivity. Qed.

#[export] Hint Rewrite @js_bind_ok @js_bind_throw : relay_rw.

(** Converting the elements of a list in order, the first exception
    ending the loop (as [Array.prototype.join] converts its elements). *)
Fixpoint js_map {A B} (f : A -> js_result B) (l : list A) : js_result (list B) :=
  match l with
  | [] => Ok []
  | x :: r => y <- f x ;; ys <- js_map f r ;; Ok (y :: ys)
  end.

(** The value of a result that did not throw, [d] otherwise. *)
Definition js_default {A} (d : A) (r : js_result A) : A :=
  match r with Ok a => a | Throw _ => d end.

(** ** String functions of the JavaScript runtime *)

(** [hay.startsWith(pre)]. *)
Fixpoint starts_with (pre hay : string) : bool :=
  match pre, hay with
  | EmptyString, _ => true
  | String c p, String d h => if decide (c = d) then starts_with p h else false
  | String _ _, EmptyString => false
  end.

(** [hay.includes(needle)] on strings: [needle] occurs at some position. *)
Fixpoint str_includes (needle hay : string) : bool :=
  starts_with needle hay ||
  match hay with
  | EmptyString => false
  | String _ h => str_includes needle h
  end.

(** [String.prototype.toLowerCase] on the characters of the model. *)
Definition ascii_lower (c : ascii) : ascii :=
  let n := Ascii.nat_of_ascii c in
  if (65 <=? n)%nat && (n <=? 90)%nat then Ascii.ascii_of_nat (n + 32) else c.

Fixpoint str_lower (s : string) : string :=
  match s with
  | EmptyString => EmptyString
  | String c r => String (ascii_lower c) (str_lower r)
  end.

(** [Array.prototype.join(sep)] on already converted elements. *)
Fixpoint join (sep : string) (l : list string) : string :=
  match l with
  | [] => ""
  | [s] => s
  | s :: r => s +:+ sep +:+ join sep r
  end.

(** [String(n)] for an integer-valued number. *)
Definition z_to_string (z : Z) : string :=
  NilZero.string_of_int (Z.to_int z).

(** Reading a decimal integer back, the inverse of [z_to_string]. *)
Definition z_of_string (s : string) : option Z :=
  Z.of_int <$> NilZero.int_of_string s.

(** The first binding of a key in an association list keyed by strings
    (a JavaScript object's own properties, [req.query], [req.headers]). *)
Fixpoint str_assoc {A} (k : string) (l : list (string * A)) : option A :=
  match l with
  | [] => None
  | (k', v) :: r => if decide (k = k') then Some v else str_assoc k r
  end.

(** A one-character string. *)
Definition chr (c : ascii) : string := String c EmptyString.

(** ** Generic lemmas on strings *)

(** A key found by [str_assoc] is bound in the list. *)
Lemma str_assoc_elem {A} (k : string) (v : A) (l : list (string * A)) :
  str_assoc k l = Some v -> (k, v) ∈ l.
Proof.
  induction l as [|[k' v'] l IH]; simpl; [done|].
  case_decide; [intros [= ->]; subst; left | intros; right; auto].
Qed.

(** A property of every value of a list holds of the value [str_assoc]
    finds. *)
Lemma str_assoc_forallb {A} (P : A -> bool) (k : string) (v : A) (l : list (string * A)) :
  forallb (fun kv => P kv.2) l = true -> str_assoc k l = Some v -> P v = true.
Proof.
  intros Hl Hk%str_assoc_elem. rewrite forallb_forall in Hl.
  apply (Hl (k, v)), list_elem_of_In, Hk.
Qed.

(** ** Generic lemmas on lists *)

Lemma filter_length_lt {A} (f : A -> bool) (l : list A) (x : A) :
  x ∈ l -> f x = false -> length (filter f l) < length l.
Proof.
  intros Hx Hf. induction l as [|y l IH]; [by apply elem_of_nil in Hx|].
  rewrite filter_cons. pose proof (length_filter f l).
  apply elem_of_cons in Hx as [->|Hx]; [rewrite Hf; simpl; lia|].
  specialize (IH Hx). case_match; simpl; lia.
Qed.

Lemma forallb_false {A} (f : A -> bool) (l : list A) :
  forallb f l = false <-> exists x, x ∈ l /\ f x = false.
Proof.
  induction l as [|x l IH]; simpl.
  - split; [done|]. by intros (? & ?%elem_of_nil & _).
  - destruct (f x) eqn:Hx; simpl.
    + rewrite IH. split; intros (y & Hy & Hf); exists y; [set_solver|].
      split; [|done]. apply elem_of_cons in Hy as [->|]; [congruence|done].
    + split; [intros _; exists x; split; [left|] | ]; done.
Qed.

Lemma sum_list_with_perm {A} (h : A -> nat) (l l' : list A) :
  l ≡ₚ l' -> sum_list_with h l = sum_list_with h l'.
Proof. induction 1; simpl; lia. Qed.

Lemma forallb_perm {A} (p : A -> bool) (l l' : list A) :
  l ≡ₚ l' -> forallb p l = forallb p l'.
Proof.
  induction 1 as [|x l l' _ IH|x y l|l l' l'' _ IH1 _ IH2]; simpl; try congruence.
  by rewrite !andb_assoc, (andb_comm (p y)).
Qed.

Lemma sum_list_with_mono {A} (h g : A -> nat) (l : list A) :
  (forall x, x ∈ l -> h x <= g x) -> sum_list_with h l <= sum_list_with g l.
Proof.
  induction l as [|x l IH]; simpl; [lia|]. intros Hx.
  pose proof (Hx x ltac:(set_solver)). pose proof (IH ltac:(set_solver)). lia.
Qed.

Lemma sum_list_with_map {A B} (h : B -> nat) (m : A -> B) (l : list A) :
  sum_list_with h (map m l) = sum_list_with (fun x => h (m x)) l.
Proof. induction l as [|x l IH]; simpl; lia. Qed.

Lemma str_assoc_app {A} (k : string) (l1 l2 : list (string * A)) :
  str_assoc k (l1 ++ l2) = match str_assoc k l1 with Some v => Some v | None => str_assoc k l2 end.
Proof. induction l1 as [|[k' v'] l1 IH]; simpl; [done|]. by case_decide. Qed.

(** Removing bindings of other keys does not change a lookup. *)
Lemma str_assoc_filter {A} (P : string * A -> Prop) `{!forall kv, Decision (P kv)}
    (k : string) (l : list (string * A)) :
  (forall kv, kv ∈ l -> kv.1 = k -> P kv) -> str_assoc k (filter P l) = str_assoc k l.
Proof.
  induction l as [|[k' v'] l IH]; intros HP; [done|]. rewrite filter_cons.
  assert (IH' : str_assoc k (filter P l) = str_assoc k l).
  { apply IH. intros kv Hkv. apply HP. by right. }
  destruct (decide (P (k', v'))) as [Hp|Hp]; simpl.
  - case_decide; [done | exact IH'].
  - case_decide as Hk; [|exact IH']. subst. exfalso. apply Hp, HP; [left | done].
Qed.

(** stdpp makes [String.append] opaque to [simpl]; this is its step. *)
Lemma str_app_cons (c : ascii) (a b : string) : String c a +:+ b = String c (a +:+ b).
Proof. reflexivity. Qed.

Lemma str_app_nil_l (a : string) : "" +:+ a = a.
Proof. reflexivity. Qed.

#[export] Hint Rewrite str_app_cons str_app_nil_l : relay_rw.

Lemma str_app_assoc (a b c : string) : (a +:+ b) +:+ c = a +:+ (b +:+ c).
Proof. induction a as [|x a IH]; rewrite ?str_app_cons; [done | by rewrite IH]. Qed.

Lemma str_app_nil_r (a : string) : a +:+ "" = a.
Proof. induction a as [|x a IH]; rewrite ?str_app_cons; [done | by rewrite IH]. Qed.

#[export] Hint Rewrite str_app_assoc str_app_nil_r : relay_rw.

Lemma starts_with_refl (s : string) : starts_with s s = true.
Proof. induction s as [|c s IH]; simpl; [done | by rewrite decide_True]. Qed.

Lemma starts_with_app (p s : string) : starts_with p (p +:+ s) = true.
Proof. induction p as [|c p IH]; simpl; [done | by rewrite decide_True]. Qed.

Lemma starts_with_app_inv (p s : string) :
  starts_with p s = true -> exists r, s = p +:+ r.
Proof.
  revert s; induction p as [|c p IH]; intros [|d s]; simpl; try done.
  - intros _. by exists "".
  - intros _. by exists (String d s).
  - case_decide; [subst|done]. intros H. destruct (IH s H) as [r ->]. by exists r.
Qed.

Lemma str_includes_app_l (n a b : string) :
  str_includes n a = true -> str_includes n (a +:+ b) = true.
Proof.
  induction a as [|c a IH]; rewrite ?str_app_cons; simpl.
  - rewrite str_app_nil_l. intros H. destruct n; simpl in *; [|done]. by destruct b.
  - intros [H|H]%orb_true_iff; apply orb_true_iff.
    + left. destruct (starts_with_app_inv _ _ H) as [r Hr].
      rewrite <-str_app_cons, Hr, str_app_assoc. apply starts_with_app.
    + right. by apply IH.
Qed.

Lemma str_includes_app_r (n a b : string) :
  str_includes n b = true -> str_includes n (a +:+ b) = true.
Proof.
  induction a as [|c a IH]; rewrite ?str_app_cons; simpl; [done|].
  intros H. apply orb_true_iff. right. by apply IH.
Qed.

Lemma str_includes_refl (s : string) : str_includes s s = true.
Proof. destruct s; simpl; [done|]. by rewrite decide_True, starts_with_refl. Qed.

#[export] Hint Resolve str_includes_app_l str_includes_app_r str_includes_refl : relay.

(** Printing an integer and reading it back gives the integer. *)
Lemma z_of_to_string (z : Z) : z_of_string (z_to_string z) = Some z.
Proof.
  unfold z_of_string, z_to_string.
  rewrite NilZero.isi; [simpl; by rewrite DecimalZ.of_to| |];
    destruct z as [|p|p]; simpl; try done; intros [= H];
    by apply (DecimalPos.Unsigned.to_uint_nonnil p).
Qed.

Lemma z_to_string_inj (a b : Z) : z_to_string a = z_to_string b -> a = b.
Proof.
  intros H. apply (f_equal z_of_string) in H.
  rewrite !z_of_to_string in H. by injection H.
Qed.

(** The one-character search used by the [{] guard. *)
Lemma str_includes_chr (c : ascii) (s : string) :
  str_includes (chr c) s = true <-> c ∈ list_ascii_of_string s.
Proof.
  induction s as [|d s IH]; simpl.
  - split; [done|]. by intros ?%elem_of_nil.
  - rewrite orb_true_iff, IH, elem_of_cons. unfold chr. simpl.
    case_decide; naive_solver.
Qed.

Lemma list_ascii_of_string_app (a b : string) :
  list_ascii_of_string (a +:+ b) = list_ascii_of_string a ++ list_ascii_of_string b.
Proof. induction a as [|c a IH]; rewrite ?str_app_cons; simpl; [done | by rewrite IH]. Qed.

#[export] Hint Rewrite list_ascii_of_string_app : relay_rw.

(** ** Tactics *)

(** Case analysis on the tests a handler makes: [decide], boolean
    conditionals and matches on results, each with its equation. *)
Ltac relay_case :=
  repeat match goal with
  | |- context [decide ?P] => destruct (decide P)
  | |- context [if ?b then _ else _] =>
      lazymatch b with decide _ => fail | _ => destruct b eqn:? end
  end.
