(* ===== verification/JsValue.v ===== *)
(** * JavaScript values produced by JSON

    The values the relay handles: what [JSON.parse] returns for an upstream
    body ([response.json()] in [src/index.js], [JSON.parse(text)] in
    [src/unnamed/part_000]) and what the handler builds for [res.json].
    Objects are association lists in their own-key order, which is the
    order [JSON.stringify] writes.  JavaScript's [undefined] (a missing
    property) is [None] of an [option jv].

    The operations are those the enrichment callback applies to an offer
    and to a detail body: truthiness and [a || b], property read (a
    [TypeError] on [null]), object spread [{...v}], the definition of a
    property in an object literal, and the string conversion of a template
    literal.  The invariant [wf] says that no object has a duplicate key,
    which [JSON.parse] guarantees and every operation preserves. *)

From S2P Require Import Prelude.

Local Unset Elimination Schemes.

Inductive jv :=
  | JNull
  | JBool (b : bool)
  | JNum (n : Z)
  | JStr (s : string)
  | JArr (l : list jv)
  | JObj (l : list (string * jv)).

Local Set Elimination Schemes.

(** Induction on values through the lists of arrays and objects. *)
Section jv_ind.
Variable P : jv -> Prop.
Hypothesis (HNull : P JNull) (HBool : forall b, P (JBool b))
  (HNum : forall n, P (JNum n)) (HStr : forall s, P (JStr s))
  (HArr : forall l, Forall P l -> P (JArr l))
  (HObj : forall l, Forall (fun kv => P kv.2) l -> P (JObj l)).

Fixpoint jv_ind (v : jv) : P v :=
  match v with
  | JNull => HNull
  | JBool b => HBool b
  | JNum n => HNum n
  | JStr s => HStr s
  | JArr l => HArr l ((fix go (l : list jv) : Forall P l :=
      match l with
      | [] => Forall_nil_2 _
      | x :: r => Forall_cons_2 _ x r (jv_ind x) (go r)
      end) l)
  | JObj l => HObj l ((fix go (l : list (string * jv)) : Forall (fun kv => P kv.2) l :=
      match l with
      | [] => Forall_nil_2 _
      | kv :: r => Forall_cons_2 _ kv r (jv_ind kv.2) (go r)
      end) l)
  end.
End jv_ind.

(** ** Equality *)

Fixpoint jv_eqb (a b : jv) : bool :=
  match a, b with
  | JNull, JNull => true
  | JBool x, JBool y => Bool.eqb x y
  | JNum x, JNum y => Z.eqb x y
  | JStr x, JStr y => String.eqb x y
  | JArr xs, JArr ys =>
      (fix go (xs ys : list jv) : bool :=
         match xs, ys with
         | [], [] => true
         | x :: xs', y :: ys' => jv_eqb x y && go xs' ys'
         | _, _ => false
         end) xs ys
  | JObj xs, JObj ys =>
      (fix go (xs ys : list (string * jv)) : bool :=
         match xs, ys with
         | [], [] => true
         | (k, x) :: xs', (k', y) :: ys' => String.eqb k k' && jv_eqb x y && go xs' ys'
         | _, _ => false
         end) xs ys
  | _, _ => false
  end.

Lemma jv_eqb_eq (a b : jv) : jv_eqb a b = true <-> a = b.
Proof.
  revert b. induction a as [| | | |xs IH|xs IH] using jv_ind; intros [| | | |ys|ys]; simpl;
    try (split; congruence).
  - rewrite Bool.eqb_true_iff. naive_solver.
  - rewrite Z.eqb_eq. naive_solver.
  - rewrite String.eqb_eq. naive_solver.
  - revert ys; induction IH as [|x xs Hx _ IHxs]; intros [|y ys]; try (split; congruence).
    rewrite andb_true_iff, Hx, IHxs. naive_solver.
  - revert ys; induction IH as [|[k x] xs Hx _ IHxs]; intros [|[k' y] ys]; try (split; congruence).
    rewrite !andb_true_iff, String.eqb_eq, Hx, IHxs. naive_solver.
Qed.

#[global] Instance jv_eq_dec : EqDecision jv.
Proof.
  intros a b. destruct (jv_eqb a b) eqn:E.
  - left. by apply jv_eqb_eq.
  - right. intros H%jv_eqb_eq. congruence.
Defined.

(** ** Truthiness and [||] *)

(** [Boolean(v)]: [null], [false], [0] and [""] are falsy; arrays and
    objects, even empty, are truthy. *)
Definition truthy (v : jv) : bool :=
  match v with
  | JNull => false
  | JBool b => b
  | JNum n => negb (Z.eqb n 0)
  | JStr s => negb (String.eqb s "")
  | JArr _ | JObj _ => true
  end.

(** Truthiness of a possibly [undefined] value. *)
Definition otruthy (o : option jv) : bool :=
  match o with
  | Some v => truthy v
  | None => false
  end.

(** [a || d]: [a] itself when truthy, otherwise [d]. *)
Definition js_or (a : option jv) (d : jv) : jv :=
  match a with
  | Some v => if truthy v then v else d
  | None => d
  end.

(** ** Property read *)

(** [v.k] for a key naming no property of [Object.prototype],
    [Array.prototype] or [String.prototype] and no array index (the keys the
    code reads are [offers], [network_offer_id], [default_payout] and
    [currency]): an own property of an object, [undefined] on any other
    non-null value, and a [TypeError] on [null]. *)
Definition get (v : jv) (k : string) : js_result (option jv) :=
  match v with
  | JNull => Throw ETypeError
  | JObj l => Ok (str_assoc k l)
  | _ => Ok None
  end.

(** The own property [k] of a value, [undefined] when it has none. *)
Definition field (v : jv) (k : string) : option jv :=
  match v with
  | JObj l => str_assoc k l
  | _ => None
  end.

(** ** Object spread and object literals *)

(** The index keys ["0"], ["1"], ... of an array or a string. *)
Definition indexed {A} (f : A -> jv) (l : list A) : list (string * jv) :=
  imap (fun i x => (z_to_string (Z.of_nat i), f x)) l.

(** [{...v}]: the own enumerable properties of [v]; an array or a string
    spreads into its index keys, [null], booleans and numbers spread into
    nothing. *)
Definition spread (v : jv) : list (string * jv) :=
  match v with
  | JObj l => l
  | JArr l => indexed id l
  | JStr s => indexed (fun c => JStr (chr c)) (list_ascii_of_string s)
  | JNull | JBool _ | JNum _ => []
  end.

(** The property [k: v] of an object literal after earlier properties [l]:
    an existing key keeps its position and takes the new value, a new key
    goes last.  Node's [res.setHeader] updates its header list the same
    way. *)
Fixpoint define {A} (k : string) (v : A) (l : list (string * A)) : list (string * A) :=
  match l with
  | [] => [(k, v)]
  | (k', v') :: r => if decide (k = k') then (k, v) :: r else (k', v') :: define k v r
  end.

(** ** String conversion *)

(** [String(v)], the conversion of [${v}] in a template literal.  An
    object converts through [ToPrimitive] with hint string: its
    [toString] is [Object.prototype.toString] (["[object Object]"]) unless
    the object has an own [toString] property, which in a value of
    [JSON.parse] is no function; then [valueOf] returns the object itself,
    which is no primitive, and the conversion throws a [TypeError].
    Arrays convert through [join(",")], which converts each element in
    order ([null] becomes empty) and throws what an element throws. *)
Fixpoint to_string (v : jv) : js_result string :=
  match v with
  | JNull => Ok "null"
  | JBool b => Ok (if b then "true" else "false")
  | JNum n => Ok (z_to_string n)
  | JStr s => Ok s
  | JArr l =>
      ss <- js_map (fun x => match x with JNull => Ok "" | _ => to_string x end) l ;;
      Ok (join "," ss)
  | JObj kvs => if decide ("toString" ∈ kvs.*1) then Throw ETypeError else Ok "[object Object]"
  end.

(** [String(v)] of a possibly [undefined] value. *)
Definition ostring (o : option jv) : js_result string :=
  match o with
  | Some v => to_string v
  | None => Ok "undefined"
  end.

(** When [String(v)] throws, stated on the value: an object with an own
    [toString] key, or an array holding one at any depth. *)
Fixpoint own_tostring (v : jv) : bool :=
  match v with
  | JArr l => existsb own_tostring l
  | JObj kvs => bool_decide ("toString" ∈ kvs.*1)
  | _ => false
  end.

(** ** Well-formedness: no object has a duplicate key *)

Fixpoint wf (v : jv) : bool :=
  match v with
  | JArr l => forallb wf l
  | JObj l => bool_decide (NoDup l.*1) && forallb (fun kv => wf kv.2) l
  | _ => true
  end.

(** ** Lemmas *)

Lemma assoc_define_eq {A} (k : string) (v : A) (l : list (string * A)) :
  str_assoc k (define k v l) = Some v.
Proof.
  induction l as [|[k' v'] l IH]; simpl; [by rewrite decide_True|].
  case_decide; simpl; [by rewrite decide_True|]. by rewrite decide_False.
Qed.

Lemma assoc_define_ne {A} (k k' : string) (v : A) (l : list (string * A)) :
  k <> k' -> str_assoc k' (define k v l) = str_assoc k' l.
Proof.
  intros Hne. induction l as [|[k'' v''] l IH]; simpl.
  - by rewrite decide_False.
  - case_decide; subst; simpl; relay_case; congruence.
Qed.

#[export] Hint Rewrite @assoc_define_eq : relay_rw.

Lemma define_keys {A} (k : string) (v : A) (l : list (string * A)) :
  (define k v l).*1 = if decide (k ∈ l.*1) then l.*1 else l.*1 ++ [k].
Proof.
  induction l as [|[k' v'] l IH]; [done|]. cbn [define].
  destruct (decide (k = k')) as [->|Hk]; rewrite ?fmap_cons; simpl.
  - by rewrite decide_True by set_solver.
  - rewrite IH. destruct (decide (k ∈ l.*1)); [rewrite decide_True | rewrite decide_False];
      set_solver.
Qed.

Lemma define_NoDup {A} (k : string) (v : A) (l : list (string * A)) :
  NoDup l.*1 -> NoDup (define k v l).*1.
Proof.
  intros Hnd. rewrite define_keys. case_decide; [done|].
  apply NoDup_app. split; [done|]. split; [|apply NoDup_singleton]. set_solver.
Qed.

(** A new key goes last. *)
Lemma define_fresh {A} (k : string) (v : A) (l : list (string * A)) :
  k ∉ l.*1 -> define k v l = l ++ [(k, v)].
Proof.
  induction l as [|[k' v'] l IH]; simpl; [done|]. intros Hk.
  rewrite decide_False by set_solver. f_equal. apply IH. set_solver.
Qed.

Lemma define_wf (k : string) (v : jv) (l : list (string * jv)) :
  wf v = true -> wf (JObj l) = true -> wf (JObj (define k v l)) = true.
Proof.
  simpl. intros Hv [Hnd Hall]%andb_prop. apply andb_true_intro. split.
  - apply bool_decide_eq_true_2, define_NoDup. by apply bool_decide_eq_true_1 in Hnd.
  - clear Hnd. induction l as [|[k' v'] l IH]; simpl in *; [by rewrite Hv|].
    apply andb_prop in Hall as [H1 H2]. case_decide; simpl; rewrite ?Hv, ?H1, ?H2; auto.
Qed.

Lemma indexed_keys {A} (f : A -> jv) (l : list A) :
  (indexed f l).*1 = imap (fun i _ => z_to_string (Z.of_nat i)) l.
Proof. unfold indexed. by rewrite fmap_imap. Qed.

Lemma get_field (v : jv) (k : string) : v <> JNull -> get v k = Ok (field v k).
Proof. by destruct v. Qed.

Lemma get_null (k : string) : get JNull k = Throw ETypeError.
Proof. reflexivity. Qed.

#[export] Hint Rewrite get_null : relay_rw.

Lemma to_string_spec (v : jv) :
  if own_tostring v then to_string v = Throw ETypeError else exists s, to_string v = Ok s.
Proof.
  induction v as [| | | |l IH|kvs _] using jv_ind; simpl; eauto.
  - induction IH as [|x l Hx _ IHl]; simpl; [eauto|].
    assert (Hx' : if own_tostring x
                  then (match x with JNull => Ok "" | _ => to_string x end) = Throw ETypeError
                  else exists s, (match x with JNull => Ok "" | _ => to_string x end) = Ok s)
      by (destruct x; try exact Hx; simpl; eauto).
    destruct (own_tostring x); simpl.
    + by rewrite Hx'.
    + destruct Hx' as [s ->]. simpl.
      destruct (existsb own_tostring l).
      * destruct (js_map _ l); simpl in *; congruence.
      * destruct IHl as [t Ht]. destruct (js_map _ l); simpl in *; [eauto|congruence].
  - case_bool_decide; [by rewrite decide_True | rewrite decide_False by done; eauto].
Qed.

Lemma to_string_ok (v : jv) : own_tostring v = false -> exists s, to_string v = Ok s.
Proof. intros H. pose proof (to_string_spec v) as Hs. by rewrite H in Hs. Qed.

Lemma to_string_throw (v : jv) : own_tostring v = true -> to_string v = Throw ETypeError.
Proof. intros H. pose proof (to_string_spec v) as Hs. by rewrite H in Hs. Qed.

Lemma indexed_NoDup {A} (f : A -> jv) (l : list A) : NoDup (indexed f l).*1.
Proof.
  rewrite indexed_keys, (imap_seq_0 l (fun i => z_to_string (Z.of_nat i))).
  apply NoDup_fmap_2_strong; [|apply NoDup_seq].
  intros x y _ _ H%z_to_string_inj. lia.
Qed.

Lemma imap_vals_wf {A} (g : nat -> string) (f : A -> jv) (l : list A) :
  forallb (fun kv => wf kv.2) (imap (fun i x => (g i, f x)) l) = forallb (fun x => wf (f x)) l.
Proof.
  revert g. induction l as [|x l IH]; intros g; [done|].
  rewrite imap_cons. simpl. f_equal. apply (IH (fun i => g (S i))).
Qed.

(** Spreading a well-formed value gives distinct keys and well-formed
    values. *)
Lemma spread_wf (v : jv) : wf v = true -> wf (JObj (spread v)) = true.
Proof.
  intros Hv. destruct v as [| | | |l|l]; simpl in *; try done.
  all: apply andb_true_intro; split; [apply bool_decide_eq_true_2, indexed_NoDup|].
  all: unfold indexed; rewrite imap_vals_wf; first [exact Hv | by apply forallb_forall].
Qed.

Lemma field_wf (v : jv) (k : string) (x : jv) :
  wf v = true -> field v k = Some x -> wf x = true.
Proof.
  destruct v as [| | | |l|l]; simpl; try done.
  intros [_ Hl]%andb_prop. induction l as [|[k' v'] l IH]; simpl in *; [done|].
  apply andb_prop in Hl as [H1 H2]. case_decide; [by intros [= <-]|]. by apply IH.
Qed.

Lemma js_or_wf (o : option jv) (d : jv) :
  (forall x, o = Some x -> wf x = true) -> wf d = true -> wf (js_or o d) = true.
Proof. destruct o as [x|]; simpl; [|done]. intros Hx Hd. destruct (truthy x); auto. Qed.

#[export] Hint Resolve spread_wf define_wf js_or_wf : relay.
