(* ===== verification/Query.v ===== *)
(** * Express request values

    [req.query] as Express's default query parser builds it.  Express 4's
    parser ([qs], the "extended" one) makes a parameter a string
    ([?a=x]), an array ([?a=x&a=y] or [?a[]=x]) or a nested object
    ([?a[k]=x]); Express 5's default ("simple", Node's [querystring])
    makes only strings and arrays, which the model covers as well.  The handler reads two parameters with
    [const { type, affiliate_id } = req.query] ([src/index.js] line 47,
    [src/unnamed/part_000] line 33) and applies to them JavaScript's
    truthiness, [String.prototype.includes] or [Array.prototype.includes]
    (whichever the value has; an object has neither, so the call throws),
    strict comparison with a string, and template-literal conversion.

    The raw query string and its decoding by [qs] are not modelled: the
    model starts from the parsed [req.query]. *)

From S2P Require Import Prelude JsValue.

Local Unset Elimination Schemes.

Inductive qv :=
  | QStr (s : string)
  | QArr (l : list qv)
  | QObj (l : list (string * qv)).

Local Set Elimination Schemes.

(** Induction on query values through their arrays and objects. *)
Section qv_ind.
Variable P : qv -> Prop.
Hypothesis (HStr : forall s, P (QStr s))
  (HArr : forall l, Forall P l -> P (QArr l))
  (HObj : forall l, Forall (fun kv => P kv.2) l -> P (QObj l)).

Fixpoint qv_ind (v : qv) : P v :=
  match v with
  | QStr s => HStr s
  | QArr l => HArr l ((fix go (l : list qv) : Forall P l :=
      match l with
      | [] => Forall_nil_2 _
      | x :: r => Forall_cons_2 _ x r (qv_ind x) (go r)
      end) l)
  | QObj l => HObj l ((fix go (l : list (string * qv)) : Forall (fun kv => P kv.2) l :=
      match l with
      | [] => Forall_nil_2 _
      | kv :: r => Forall_cons_2 _ kv r (qv_ind kv.2) (go r)
      end) l)
  end.
End qv_ind.

(** What [qs] builds: an object has one entry per name. *)
Fixpoint q_wf (v : qv) : bool :=
  match v with
  | QStr _ => true
  | QArr l => forallb q_wf l
  | QObj l => bool_decide (NoDup l.*1) && forallb (fun kv => q_wf kv.2) l
  end.

(** An incoming HTTP request: method, path ([req.path]), parsed query and
    headers (names in lower case, as Node gives them). *)
Record request := mk_request {
  req_method : string;
  req_path : string;
  req_query : list (string * qv);
  req_headers : list (string * string)
}.

(** [req.query[k]]: [qs] builds an object with one entry per name. *)
Definition query_get (k : string) (q : list (string * qv)) : option qv :=
  str_assoc k q.

(** [req.headers[k]]. *)
Definition header_get (k : string) (h : list (string * string)) : option string :=
  str_assoc k h.

(** Truthiness of a parameter: only the empty string is falsy;
    [undefined] (absent) is falsy too. *)
Definition q_truthy (v : qv) : bool :=
  match v with
  | QStr s => negb (String.eqb s "")
  | QArr _ | QObj _ => true
  end.

Definition oq_truthy (o : option qv) : bool :=
  match o with
  | Some v => q_truthy v
  | None => false
  end.

(** [v === s] for a string literal [s]. *)
Definition q_is (v : qv) (s : string) : bool :=
  match v with
  | QStr s' => String.eqb s' s
  | _ => false
  end.

Definition oq_is (o : option qv) (s : string) : bool :=
  match o with
  | Some v => q_is v s
  | None => false
  end.

(** [v.includes(needle)]: substring search on a string, a search for an
    element strictly equal to [needle] on an array, and a [TypeError] on an
    object, which has no [includes] method. *)
Definition q_includes (v : qv) (needle : string) : js_result bool :=
  match v with
  | QStr s => Ok (str_includes needle s)
  | QArr l => Ok (existsb (fun x => q_is x needle) l)
  | QObj _ => Throw ETypeError
  end.

(** [[a; b; ...].includes(v)] for an array literal of strings. *)
Definition lit_includes (lits : list string) (o : option qv) : bool :=
  existsb (fun s => oq_is o s) lits.

(** [${v}] of a parameter: an array joins its elements with commas, an
    object prints as [[object Object]]. *)
Fixpoint q_to_string (v : qv) : string :=
  match v with
  | QStr s => s
  | QArr l => join "," (map q_to_string l)
  | QObj _ => "[object Object]"
  end.

(** What [res.json] writes for a parameter echoed in a response body. *)
Fixpoint q_to_jv (v : qv) : jv :=
  match v with
  | QStr s => JStr s
  | QArr l => JArr (map q_to_jv l)
  | QObj l => JObj (map (fun kv => (kv.1, q_to_jv kv.2)) l)
  end.

(** ** Lemmas *)

Lemma q_to_jv_wf (v : qv) : q_wf v = true -> wf (q_to_jv v) = true.
Proof.
  induction v as [s|l IH|l IH] using qv_ind; simpl; [done| |].
  - intros Hl. rewrite forallb_forall in Hl |- *. intros x (y & <- & Hy)%in_map_iff.
    rewrite Forall_forall in IH. apply IH; [by apply list_elem_of_In | by apply Hl].
  - intros [Hnd Hl]%andb_prop. apply andb_true_intro. split.
    + rewrite <- list_fmap_compose. unfold compose. by rewrite (list_fmap_ext _ fst l).
    + rewrite forallb_forall in Hl |- *. intros x (y & <- & Hy)%in_map_iff.
      rewrite Forall_forall in IH. apply IH; [by apply list_elem_of_In | by apply Hl].
Qed.

Lemma q_includes_str (s n : string) : q_includes (QStr s) n = Ok (str_includes n s).
Proof. reflexivity. Qed.

Lemma lit_includes_cons (s : string) (lits : list string) (o : option qv) :
  lit_includes (s :: lits) o = oq_is o s || lit_includes lits o.
Proof. reflexivity. Qed.

Lemma oq_is_Some_iff (o : option qv) (s : string) : oq_is o s = true <-> o = Some (QStr s).
Proof.
  destruct o as [[s'| |]|]; simpl; split; try done; try congruence.
  - by intros ->%String.eqb_eq.
  - intros [= ->]. apply String.eqb_refl.
Qed.

Lemma q_truthy_str (s : string) : q_truthy (QStr s) = true <-> s <> "".
Proof. simpl. rewrite negb_true_iff, String.eqb_neq. done. Qed.

#[export] Hint Rewrite q_includes_str lit_includes_cons : relay_rw.
