(* ===== verification/Upstream.v ===== *)
(** * The upstream Everflow API as the handler sees it

    The configuration the code reads from [process.env]
    ([EFLOW_ADMIN_API_KEY], [BACKEND_API_KEY], [NODE_ENV]), the requests it
    sends with [fetch] ([src/index.js] lines 85-91 and 112-118), what a
    [fetch] can come back with, and the URLs it builds (lines 76-82 and
    109).  [fetch] and [JSON.parse] are the two library calls the handler
    depends on; the class [Upstream] makes them parameters of the model, so
    every theorem holds for every upstream behaviour, and the instance
    [table_upstream] is a concrete upstream for running the model.

    The last part parses the query of a URL into its raw (undecoded)
    [name=value] pairs, to state what the upstream receives. *)

From S2P Require Import Prelude JsValue Query.

(** ** Configuration and outgoing requests *)

Record config := mk_config {
  eflow_admin_api_key : option string;
  backend_api_key : option string;
  node_env : option string
}.

(** A header value set from an environment variable: [undefined] becomes
    the string ["undefined"]. *)
Definition env_string (o : option string) : string :=
  match o with
  | Some s => s
  | None => "undefined"
  end.

(** The request [fetch(url, { headers, timeout })] sends.  The timeout is
    the option the code passes, [None] where it passes none. *)
Record fetch_request := mk_fetch {
  f_url : string;
  f_headers : list (string * string);
  f_timeout : option Z
}.

(** The headers both calls of [src/index.js] attach. *)
Definition eflow_headers (cfg : config) : list (string * string) :=
  [("X-Eflow-API-Key", env_string (eflow_admin_api_key cfg));
   ("Content-Type", "application/json")].

(** What [await fetch(...)] gives: a rejection (network error, DNS
    failure, abort) or a response with its status and its body text. *)
Inductive fetch_outcome :=
  | FReject
  | FResponse (status : Z) (text : string).

(** [response.ok]: a status in 200-299. *)
Definition resp_ok (status : Z) : bool := (200 <=? status)%Z && (status <=? 299)%Z.

(** ** The environment of the handler *)

(** [fetch] answers each request (the same request may be answered
    differently over time in reality; a deterministic oracle is the
    special case the spec's idempotence property assumes; in the
    concurrent model of [Enrich] the lookups complete in any order, each
    with the outcome the oracle gives its request).
    [json_parse] is [JSON.parse]: [None] is a [SyntaxError]. *)
Class Upstream := {
  fetch : fetch_request -> fetch_outcome;
  json_parse : string -> option jv
}.

(** [await response.json()]: the parsed body or a [SyntaxError]. *)
Definition response_json `{Upstream} (text : string) : js_result jv :=
  match json_parse text with
  | Some v => Ok v
  | None => Throw ESyntaxError
  end.

(** A concrete upstream: a table from URL to outcome (a URL it does not
    know is a network failure) and a table from body text to parsed value.
    It is used to run the model on examples. *)
Definition table_upstream (routes : list (string * fetch_outcome))
  (bodies : list (string * jv)) : Upstream := {|
  fetch r := default FReject (str_assoc (f_url r) routes);
  json_parse t := str_assoc t bodies
|}.

(** ** URLs *)

Definition eflow_offers := "https://api.eflow.team/v1/networks/offers".

(** Lines 76-82: the list URL for the converted [affiliate_id] and the
    [type] parameter. *)
Definition list_url (aff : string) (type : option qv) : string :=
  let url := eflow_offers +:+ "?affiliate_id=" +:+ aff +:+
             "&limit=10&status=active&visibility=public" in
  if oq_is type "top" then url +:+ "&sort_by=payout&sort_direction=desc"
  else if oq_is type "latest" then url +:+ "&sort_by=created_at&sort_direction=desc"
  else url.

(** Line 109: the detail URL once the template literal has converted the
    offer id ([ostring], a missing id giving ["undefined"]). *)
Definition detail_url (offer_id : string) (aff : string) : string :=
  eflow_offers +:+ "/" +:+ offer_id +:+ "?affiliate_id=" +:+ aff.

(** ** Reading the query of a URL *)

(** The part before the first [c] and, if [c] occurs, the part after it. *)
Fixpoint break_at (c : ascii) (s : string) : string * option string :=
  match s with
  | EmptyString => ("", None)
  | String d r =>
      if decide (d = c) then ("", Some r)
      else let '(a, b) := break_at c r in (String d a, b)
  end.

(** The fields of [s] separated by [c]. *)
Fixpoint split_on (c : ascii) (s : string) : list string :=
  match s with
  | EmptyString => [""]
  | String d r =>
      if decide (d = c) then "" :: split_on c r
      else match split_on c r with
           | [] => [chr d]
           | w :: ws => String d w :: ws
           end
  end.

Definition query_pair (w : string) : string * string :=
  match break_at "=" w with
  | (k, Some v) => (k, v)
  | (k, None) => (k, "")
  end.

(** The raw [name=value] pairs of a URL's query: after the first [?], up
    to a [#], split at [&]. *)
Definition url_query (url : string) : list (string * string) :=
  match break_at "?" url with
  | (_, Some q) => map query_pair (split_on "&" (break_at "#" q).1)
  | (_, None) => []
  end.

(** ** Lemmas *)

(** A string free of [c] is one field. *)
Definition free_of (c : ascii) (s : string) : Prop := c ∉ list_ascii_of_string s.

Lemma break_at_free (c : ascii) (a : string) : free_of c a -> break_at c a = (a, None).
Proof.
  unfold free_of. induction a as [|d a IH]; simpl; [done|].
  intros Hc. rewrite decide_False by set_solver. rewrite IH by set_solver. done.
Qed.

(** Breaking a string whose first part is free of [c]. *)
Lemma break_at_app (c : ascii) (a b : string) :
  free_of c a -> break_at c (a +:+ b) = ((a +:+ (break_at c b).1), (break_at c b).2).
Proof.
  unfold free_of. induction a as [|d a IH]; intros Hc; rewrite ?str_app_cons; simpl.
  - rewrite !str_app_nil_l. by destruct (break_at c b).
  - rewrite decide_False by set_solver. rewrite IH by set_solver. done.
Qed.

(** Prefixing the first field. *)
Definition prepend (a : string) (ws : list string) : list string :=
  match ws with
  | [] => [a]
  | w :: r => (a +:+ w) :: r
  end.

Lemma split_on_not_nil (c : ascii) (s : string) : split_on c s <> [].
Proof.
  destruct s as [|d s]; simpl; [done|].
  case_decide; [done|]. by destruct (split_on c s).
Qed.

Lemma split_on_app (c : ascii) (a b : string) :
  free_of c a -> split_on c (a +:+ b) = prepend a (split_on c b).
Proof.
  unfold free_of. induction a as [|d a IH]; intros Hc; rewrite ?str_app_cons; simpl.
  - rewrite str_app_nil_l. pose proof (split_on_not_nil c b).
    destruct (split_on c b); [done|]. simpl. by rewrite str_app_nil_l.
  - rewrite decide_False by set_solver. rewrite IH by set_solver.
    pose proof (split_on_not_nil c b). by destruct (split_on c b).
Qed.

Lemma free_of_app (c : ascii) (a b : string) :
  free_of c (a +:+ b) <-> free_of c a /\ free_of c b.
Proof. unfold free_of. rewrite list_ascii_of_string_app. set_solver. Qed.

#[global] Instance free_of_dec (c : ascii) (s : string) : Decision (free_of c s).
Proof. unfold free_of. apply _. Defined.

(** [free_of] on a concrete string, by evaluation. *)
Ltac free_tac :=
  repeat (apply free_of_app; split); try assumption;
  apply (bool_decide_eq_true_1 _); vm_compute; reflexivity.

#[export] Hint Resolve break_at_free : relay.

(** The raw pairs after [pre ++ "?"] are those of the query part. *)
Lemma url_query_app (pre q : string) :
  free_of "?" pre -> url_query (pre +:+ String "?" q) =
  map query_pair (split_on "&" (break_at "#" q).1).
Proof. intros Hp. unfold url_query. rewrite break_at_app by done. done. Qed.

Lemma query_pair_app (k v : string) :
  free_of "=" k -> query_pair (k +:+ String "=" v) = (k, v).
Proof.
  intros Hk. unfold query_pair. rewrite break_at_app by done. simpl.
  by rewrite str_app_nil_r.
Qed.

(** The affiliate id occurs verbatim in the list URL. *)
Lemma list_url_contains (aff : string) (type : option qv) :
  str_includes aff (list_url aff type) = true.
Proof. unfold list_url. destruct (oq_is _ _); [|destruct (oq_is _ _)]; eauto 7 with relay. Qed.

(** The sort clause [list_url] appends for a [type]. *)
Definition sort_params (type : option qv) : list (string * string) :=
  if oq_is type "top" then [("sort_by", "payout"); ("sort_direction", "desc")]
  else if oq_is type "latest" then [("sort_by", "created_at"); ("sort_direction", "desc")]
  else [].

(** The list URL is read as the affiliate id followed by the pairs of the
    literal suffix, whatever the suffix. *)
Lemma url_query_list_url (aff sfx : string) :
  free_of "&" aff -> free_of "#" aff -> free_of "#" sfx ->
  url_query (eflow_offers +:+ "?affiliate_id=" +:+ aff +:+ sfx) =
  ("affiliate_id", aff +:+ hd "" (split_on "&" sfx)) :: map query_pair (tl (split_on "&" sfx)).
Proof.
  intros Ha Hh Hs.
  change (eflow_offers +:+ "?affiliate_id=" +:+ aff +:+ sfx) with
    (eflow_offers +:+ String "?" ("affiliate_id=" +:+ aff +:+ sfx)).
  rewrite url_query_app by free_tac.
  rewrite (break_at_free _ ("affiliate_id=" +:+ aff +:+ sfx)) by free_tac. cbn [fst].
  rewrite !split_on_app by free_tac.
  pose proof (split_on_not_nil "&" sfx). destruct (split_on "&" sfx) as [|w ws]; [done|].
  cbn [prepend map hd tl].
  change ("affiliate_id=" +:+ (aff +:+ w)) with ("affiliate_id" +:+ String "=" (aff +:+ w)).
  rewrite query_pair_app by free_tac. done.
Qed.

(** An affiliate id [a&b] puts [b] into the query as a pair of its own,
    between [affiliate_id=a] and the code's parameters. *)
Lemma url_query_list_url_amp (a b : string) (type : option qv) :
  free_of "&" a -> free_of "#" a -> free_of "&" b -> free_of "#" b ->
  url_query (list_url (a +:+ "&" +:+ b) type) =
  [("affiliate_id", a); query_pair b; ("limit", "10"); ("status", "active"); ("visibility", "public")]
  ++ sort_params type.
Proof.
  intros Ha Hh Hb Hbh. unfold list_url, sort_params.
  destruct (oq_is type "top"); [|destruct (oq_is type "latest")];
    rewrite ?str_app_assoc, url_query_list_url by (done || free_tac);
    simpl split_on; rewrite ?split_on_app by (done || free_tac);
    simpl; by rewrite ?str_app_nil_r.
Qed.

(** C12: When the affiliate id contains no [&] and no [#], the
    list URL carries exactly [affiliate_id] (verbatim), [limit=10],
    [status=active], [visibility=public], and then the sort clause of the
    [type]: [sort_by=payout] for [top], [sort_by=created_at] for [latest],
    both descending, and none otherwise. *)
Theorem list_url_params (aff : string) (type : option qv) :
  free_of "&" aff -> free_of "#" aff ->
  url_query (list_url aff type) =
  [("affiliate_id", aff); ("limit", "10"); ("status", "active"); ("visibility", "public")]
  ++ sort_params type.
Proof.
  intros Ha Hh. unfold list_url, sort_params.
  destruct (oq_is type "top"); [|destruct (oq_is type "latest")];
    rewrite ?str_app_assoc, url_query_list_url by (done || free_tac);
    simpl; by rewrite str_app_nil_r.
Qed.

(** ** Witnesses *)

Lemma list_url_params_witness :
  free_of "&" "af123" /\ free_of "#" "af123" /\
  url_query (list_url "af123" (Some (QStr "top"))) =
  [("affiliate_id", "af123"); ("limit", "10"); ("status", "active"); ("visibility", "public");
   ("sort_by", "payout"); ("sort_direction", "desc")].
Proof.
  split; [free_tac|]. split; [free_tac|].
  apply (list_url_params "af123" (Some (QStr "top"))); free_tac.
Defined.
