(* ===== verification/Enrich.v ===== *)
(** * Enrichment of the offer list

    [src/index.js] lines 106-133 (the same code is lines 63-87 of
    [src/unnamed/part_000], without the timeout):

    - the callback of [offers.map(async (offer) => ...)]: read
      [offer.network_offer_id] and convert it in the template literal of
      the detail URL (both outside the [try], so a [null] offer, or an id
      whose conversion throws, rejects the callback's promise), fetch the
      detail, and merge
      [default_payout] and [currency] into a copy of the offer, returning
      the offer unchanged on any failure inside the [try];
    - [Promise.all] over the callbacks' promises;
    - the concurrency: [map] runs every callback up to its first [await]
      in list order, so every detail request is issued before any
      completes; the lookups then complete in any order.  The step
      relation [gather_step] completes one pending lookup at a time, in any
      order, and the refinement theorem says that every complete run
      yields the sequential [enrich_all]. *)

From S2P Require Import Prelude JsValue Query Upstream.

Section Enrich.
Context `{U : Upstream} (cfg : config) (tmo : option Z).

(** Lines 109-118: the detail request for an offer id; [tmo] is the
    timeout option the caller passes ([Some 3000] in [index.js], none in
    [part_000]). *)
Definition detail_request (offer_id : string) (aff : string) : fetch_request :=
  mk_fetch (detail_url offer_id aff) (eflow_headers cfg) tmo.

(** Lines 108-109 and the call of line 112: the part of the callback that
    runs before its first [await].  Reading [network_offer_id] of [null]
    throws, and so does converting an id with an own [toString]. *)
Definition enrich_start (aff : string) (offer : jv) : js_result fetch_request :=
  offer_id <- get offer "network_offer_id" ;;
  id <- ostring offer_id ;;
  Ok (detail_request id aff).

(** Lines 123-127: [{...offer, default_payout: d.default_payout || 'N/A',
    currency: d.currency || ''}], evaluated left to right. *)
Definition merged (offer d : jv) : js_result jv :=
  p <- get d "default_payout" ;;
  c <- get d "currency" ;;
  Ok (JObj (define "currency" (js_or c (JStr ""))
             (define "default_payout" (js_or p (JStr "N/A")) (spread offer)))).

(** Lines 120-131 once the fetch has settled: a rejected fetch, a status
    outside 200-299, a body that is not JSON or a [null] body (whose
    property read throws) all land in [return offer]. *)
Definition merge_detail (offer : jv) (o : fetch_outcome) : jv :=
  match o with
  | FReject => offer
  | FResponse st text =>
      if resp_ok st then
        match d <- response_json text ;; merged offer d with
        | Ok v => v
        | Throw _ => offer
        end
      else offer
  end.

(** The whole callback, for a detail lookup answered by [fetch]. *)
Definition enrich_offer (aff : string) (offer : jv) : js_result jv :=
  r <- enrich_start aff offer ;;
  Ok (merge_detail offer (fetch r)).

(** [Promise.all]: the values in list order, or a rejection. *)
Fixpoint all_settled (l : list (js_result jv)) : js_result (list jv) :=
  match l with
  | [] => Ok []
  | r :: rs => x <- r ;; xs <- all_settled rs ;; Ok (x :: xs)
  end.

(** Lines 106-133: [await Promise.all(offers.map(...))]. *)
Definition enrich_all (aff : string) (offers : list jv) : js_result (list jv) :=
  all_settled (map (enrich_offer aff) offers).

(** The detail requests the [map] issues, in list order: one per offer
    whose callback reaches its [fetch], whether or not another offer's
    callback rejects (an [async] callback that throws returns a rejected
    promise, and [map] goes on). *)
Definition detail_requests (aff : string) (offers : list jv) : list fetch_request :=
  omap (fun offer => match enrich_start aff offer with
                     | Ok r => Some r
                     | Throw _ => None
                     end) offers.

(** ** The concurrent completion of the lookups *)

(** The state of one callback's promise: waiting on its detail request,
    fulfilled, or rejected. *)
Inductive slot :=
  | SPending (offer : jv) (r : fetch_request)
  | SDone (v : jv)
  | SRejected.

(** The slot right after [map] has run the callback to its first
    [await]. *)
Definition start_slot (aff : string) (offer : jv) : slot :=
  match enrich_start aff offer with
  | Ok r => SPending offer r
  | Throw _ => SRejected
  end.

(** The slot once its lookup has completed. *)
Definition final_slot (aff : string) (offer : jv) : slot :=
  match enrich_start aff offer with
  | Ok r => SDone (merge_detail offer (fetch r))
  | Throw _ => SRejected
  end.

(** One lookup, any pending one, completes. *)
Inductive gather_step : list slot -> list slot -> Prop :=
  | gs_complete ss i offer r :
      ss !! i = Some (SPending offer r) ->
      gather_step ss (<[i := SDone (merge_detail offer (fetch r))]> ss).

Inductive gather_star : list slot -> list slot -> Prop :=
  | gstar_refl ss : gather_star ss ss
  | gstar_step ss1 ss2 ss3 : gather_step ss1 ss2 -> gather_star ss2 ss3 -> gather_star ss1 ss3.

Definition is_pending (s : slot) : bool :=
  match s with SPending _ _ => true | _ => false end.

(** What [Promise.all] has decided: a rejection as soon as one promise
    is rejected, the values once all are fulfilled, nothing yet
    otherwise. *)
Fixpoint joined (ss : list slot) : option (js_result (list jv)) :=
  match ss with
  | [] => Some (Ok [])
  | SRejected :: _ => Some (Throw ETypeError)
  | SPending _ _ :: rest =>
      match joined rest with
      | Some (Throw e) => Some (Throw e)
      | _ => None
      end
  | SDone v :: rest =>
      match joined rest with
      | Some (Ok vs) => Some (Ok (v :: vs))
      | o => o
      end
  end.
End Enrich.

Section EnrichLemmas.
Context `{U : Upstream} (cfg : config) (tmo : option Z).

(** Whether the callback of [offer] reaches its [fetch]: the offer is not
    [null] and its id converts to a string. *)
Definition reaches_fetch (offer : jv) : bool :=
  bool_decide (offer <> JNull) &&
  negb (default false (own_tostring <$> field offer "network_offer_id")).

(** The detail request of such an offer. *)
Definition offer_request (aff : string) (offer : jv) : fetch_request :=
  detail_request cfg tmo (js_default "" (ostring (field offer "network_offer_id"))) aff.

Lemma reaches_fetch_false (offer : jv) :
  reaches_fetch offer = false <->
  offer = JNull \/ exists id, field offer "network_offer_id" = Some id /\ own_tostring id = true.
Proof.
  unfold reaches_fetch. destruct (decide (offer = JNull)) as [->|Hn]; [naive_solver|].
  rewrite bool_decide_true by done. simpl.
  destruct (field offer "network_offer_id") as [v|]; simpl; [|naive_solver].
  destruct (own_tostring v) eqn:Hv; simpl; split; try done.
  - intros _. right. eauto.
  - intros [?|(id & [= <-] & ?)]; congruence.
Qed.

Lemma enrich_start_ok (aff : string) (offer : jv) :
  reaches_fetch offer = true -> enrich_start cfg tmo aff offer = Ok (offer_request aff offer).
Proof.
  unfold reaches_fetch, offer_request, enrich_start.
  intros [Hn%bool_decide_eq_true_1 Hid]%andb_prop. rewrite get_field by done. simpl.
  destruct (field offer "network_offer_id") as [v|]; simpl in *; [|done].
  apply negb_true_iff in Hid. by destruct (to_string_ok v Hid) as [t ->].
Qed.

Lemma enrich_start_fail (aff : string) (offer : jv) :
  reaches_fetch offer = false -> enrich_start cfg tmo aff offer = Throw ETypeError.
Proof.
  unfold reaches_fetch, enrich_start. destruct (decide (offer = JNull)) as [->|Hn]; [done|].
  rewrite bool_decide_true by done. simpl. rewrite get_field by done. simpl.
  destruct (field offer "network_offer_id") as [v|]; simpl; [|done].
  intros Hid. apply negb_false_iff in Hid. by rewrite to_string_throw.
Qed.

Lemma enrich_offer_ok (aff : string) (offer : jv) :
  reaches_fetch offer = true ->
  enrich_offer cfg tmo aff offer = Ok (merge_detail offer (fetch (offer_request aff offer))).
Proof. intros Hn. unfold enrich_offer. by rewrite enrich_start_ok. Qed.

Lemma enrich_offer_fail (aff : string) (offer : jv) :
  reaches_fetch offer = false -> enrich_offer cfg tmo aff offer = Throw ETypeError.
Proof. intros Hn. unfold enrich_offer. by rewrite enrich_start_fail. Qed.

Lemma final_slot_ok (aff : string) (offer : jv) :
  reaches_fetch offer = true ->
  final_slot cfg tmo aff offer = SDone (merge_detail offer (fetch (offer_request aff offer))).
Proof. intros Hn. unfold final_slot. by rewrite enrich_start_ok. Qed.

Lemma start_slot_ok (aff : string) (offer : jv) :
  reaches_fetch offer = true -> start_slot cfg tmo aff offer = SPending offer (offer_request aff offer).
Proof. intros Hn. unfold start_slot. by rewrite enrich_start_ok. Qed.

Lemma start_slot_fail (aff : string) (offer : jv) :
  reaches_fetch offer = false -> start_slot cfg tmo aff offer = SRejected.
Proof. intros Hn. unfold start_slot. by rewrite enrich_start_fail. Qed.

Lemma final_slot_fail (aff : string) (offer : jv) :
  reaches_fetch offer = false -> final_slot cfg tmo aff offer = SRejected.
Proof. intros Hn. unfold final_slot. by rewrite enrich_start_fail. Qed.

Lemma detail_requests_all (aff : string) (offers : list jv) :
  forallb reaches_fetch offers = true ->
  detail_requests cfg tmo aff offers = map (offer_request aff) offers.
Proof.
  unfold detail_requests. induction offers as [|o os IH]; [done|]. simpl.
  intros [Ho Hos]%andb_prop. rewrite enrich_start_ok by done. f_equal. by apply IH.
Qed.

(** Every detail request carries the configured credential. *)
Lemma detail_requests_headers (aff : string) (offers : list jv) :
  Forall (fun r => f_headers r = eflow_headers cfg) (detail_requests cfg tmo aff offers).
Proof.
  unfold detail_requests. induction offers as [|o os IH]; simpl; [done|].
  destruct (reaches_fetch o) eqn:Ho; [rewrite enrich_start_ok by done | by rewrite enrich_start_fail].
  by constructor.
Qed.

(** One detail request per offer whose callback reaches its [fetch]. *)
Lemma detail_requests_length (aff : string) (offers : list jv) :
  length (detail_requests cfg tmo aff offers) = length (filter reaches_fetch offers).
Proof.
  unfold detail_requests. induction offers as [|o os IH]; [done|]. rewrite filter_cons.
  destruct (reaches_fetch o) eqn:Ho; simpl.
  - rewrite enrich_start_ok by done. simpl. by f_equal.
  - by rewrite enrich_start_fail.
Qed.

(** The sequential result of the callbacks on every offer. *)
Definition enriched (aff : string) (offers : list jv) : list jv :=
  map (fun offer => merge_detail offer (fetch (offer_request aff offer))) offers.

Lemma all_settled_enrich (aff : string) (offers : list jv) :
  enrich_all cfg tmo aff offers =
  if forallb reaches_fetch offers then Ok (enriched aff offers) else Throw ETypeError.
Proof.
  unfold enrich_all, enriched. induction offers as [|o os IH]; [done|]. simpl.
  destruct (reaches_fetch o) eqn:Ho; simpl.
  - rewrite enrich_offer_ok by done. simpl. rewrite IH. by destruct (forallb reaches_fetch os).
  - by rewrite enrich_offer_fail.
Qed.

Lemma joined_final (aff : string) (offers : list jv) :
  joined (map (final_slot cfg tmo aff) offers) = Some (enrich_all cfg tmo aff offers).
Proof.
  rewrite all_settled_enrich. unfold enriched.
  induction offers as [|o os IH]; [done|]. simpl.
  destruct (reaches_fetch o) eqn:Ho; simpl.
  - rewrite final_slot_ok by done. simpl. rewrite IH. by destruct (forallb reaches_fetch os).
  - by rewrite final_slot_fail.
Qed.
End EnrichLemmas.

(** ** The concurrent gather refines the sequential map *)

Section Gather.
Context `{U : Upstream} (cfg : config) (tmo : option Z) (aff : string).

(** A slot of offer [offer] is as [map] left it or as its lookup
    completes it. *)
Definition slot_ok (offer : jv) (s : slot) : Prop :=
  s = start_slot cfg tmo aff offer \/ s = final_slot cfg tmo aff offer.

Definition settled (ss : list slot) : Prop := Forall (fun s => is_pending s = false) ss.

Lemma slot_ok_pending (o offer : jv) (r : fetch_request) :
  slot_ok o (SPending offer r) ->
  reaches_fetch o = true /\ offer = o /\ r = offer_request cfg tmo aff o.
Proof.
  destruct (reaches_fetch o) eqn:Ho; unfold slot_ok.
  - rewrite start_slot_ok, final_slot_ok by done. intros [[= -> ->]|Hs]; [done|discriminate].
  - rewrite start_slot_fail, final_slot_fail by done. intros [Hs|Hs]; discriminate.
Qed.

Lemma gather_step_inv (offers : list jv) (ss ss' : list slot) :
  Forall2 slot_ok offers ss -> gather_step ss ss' -> Forall2 slot_ok offers ss'.
Proof.
  intros Hall Hstep. inversion Hstep as [ss0 i offer r Hi]; subst.
  destruct (Forall2_lookup_r _ _ _ _ _ Hall Hi) as (o & Ho & Hok).
  apply slot_ok_pending in Hok as (Hn & -> & ->).
  rewrite <-(list_insert_id offers i o) by done.
  apply Forall2_insert; [done|]. right. by rewrite final_slot_ok.
Qed.

Lemma gather_star_inv (offers : list jv) (ss ss' : list slot) :
  Forall2 slot_ok offers ss -> gather_star ss ss' -> Forall2 slot_ok offers ss'.
Proof. intros H Hs. induction Hs; eauto using gather_step_inv. Qed.

Lemma start_inv (offers : list jv) : Forall2 slot_ok offers (map (start_slot cfg tmo aff) offers).
Proof. induction offers; constructor; [by left | done]. Qed.

Lemma settled_final (offers : list jv) (ss : list slot) :
  Forall2 slot_ok offers ss -> settled ss -> ss = map (final_slot cfg tmo aff) offers.
Proof.
  unfold settled. induction 1 as [|o s os ss Hok _ IH]; intros Hset; [done|].
  apply Forall_cons in Hset as [Hs Hset]. simpl. f_equal; [|by apply IH].
  destruct Hok as [->| ->]; [|done]. unfold start_slot, final_slot in *.
  by destruct (enrich_start cfg tmo aff o).
Qed.

Lemma joined_rejected (ss : list slot) : SRejected ∈ ss -> joined ss = Some (Throw ETypeError).
Proof.
  induction ss as [|s ss IH]; [by intros ?%elem_of_nil|].
  intros [<-|Hin]%elem_of_cons; [done|].
  destruct s; simpl; by rewrite ?(IH Hin).
Qed.

Lemma gather_step_cons (s : slot) (ss ss' : list slot) :
  gather_step ss ss' -> gather_step (s :: ss) (s :: ss').
Proof.
  intros Hstep. inversion Hstep as [ss0 i offer r Hi]; subst.
  by apply (gs_complete (s :: ss) (S i) offer r).
Qed.

Lemma gather_star_cons (s : slot) (ss ss' : list slot) :
  gather_star ss ss' -> gather_star (s :: ss) (s :: ss').
Proof. induction 1; econstructor; eauto using gather_step_cons. Qed.

Lemma gather_star_trans (ss1 ss2 ss3 : list slot) :
  gather_star ss1 ss2 -> gather_star ss2 ss3 -> gather_star ss1 ss3.
Proof. induction 1; eauto using gather_star. Qed.

(** The number of lookups still in flight. *)
Fixpoint pending_count (ss : list slot) : nat :=
  match ss with
  | [] => 0
  | s :: rest => (if is_pending s then 1 else 0) + pending_count rest
  end.

Lemma pending_count_complete (ss : list slot) (i : nat) (offer : jv) (r : fetch_request) (v : jv) :
  ss !! i = Some (SPending offer r) -> S (pending_count (<[i := SDone v]> ss)) = pending_count ss.
Proof.
  revert i. induction ss as [|s ss IH]; intros [|i] Hi; simplify_eq/=; [done|].
  rewrite <-(IH i Hi). lia.
Qed.
End Gather.

Section EnrichTheorems.
Context `{U : Upstream} (cfg : config) (tmo : option Z) (aff : string).

(** The failures of a detail lookup that [index.js] absorbs: the fetch
    rejects, the status is not 2xx, the body is not JSON, or the body is
    [null] (reading its [default_payout] throws inside the [try]). *)
Definition detail_failed (o : fetch_outcome) : Prop :=
  o = FReject \/
  exists st t, o = FResponse st t /\
    (resp_ok st = false \/ json_parse t = None \/ json_parse t = Some JNull).

(** A successful lookup: the offer spread, then the two fields. *)
Lemma merge_detail_ok (offer : jv) (st : Z) (t : string) (d : jv) :
  resp_ok st = true -> json_parse t = Some d -> d <> JNull ->
  merge_detail offer (FResponse st t) =
  JObj (define "currency" (js_or (field d "currency") (JStr ""))
          (define "default_payout" (js_or (field d "default_payout") (JStr "N/A"))
             (spread offer))).
Proof.
  intros Hok Hp Hn. unfold merge_detail, response_json, merged.
  rewrite Hok, Hp. autorewrite with relay_rw. by rewrite !get_field.
Qed.

Lemma define_prefix (k : string) (v : jv) (l : list (string * jv)) :
  l.*1 `prefix_of` (define k v l).*1.
Proof. rewrite define_keys. case_decide; [done|]. by apply prefix_app_r. Qed.

(** C3: A failed detail lookup (rejected fetch, non-2xx
    status, body that is not JSON, [null] body) leaves the offer exactly
    as the list call returned it. *)
Theorem merge_detail_failure (offer : jv) (o : fetch_outcome) :
  detail_failed o -> merge_detail offer o = offer.
Proof.
  intros [->|(st & t & -> & [Hst|[Hp|Hp]])]; simpl; [done|by rewrite Hst|..];
    destruct (resp_ok st); unfold response_json; by rewrite ?Hp.
Qed.

(** C4: After a successful lookup an object offer becomes an
    object with every other property unchanged and in its original order,
    [default_payout] set to the detail's value or ["N/A"] when that value
    is missing or falsy, and [currency] set to the detail's value or [""]. *)
Theorem merge_detail_fields (l : list (string * jv)) (st : Z) (t : string) (d : jv) :
  resp_ok st = true -> json_parse t = Some d -> d <> JNull ->
  exists l', merge_detail (JObj l) (FResponse st t) = JObj l' /\
    str_assoc "default_payout" l' = Some (js_or (field d "default_payout") (JStr "N/A")) /\
    str_assoc "currency" l' = Some (js_or (field d "currency") (JStr "")) /\
    (forall k, k <> "default_payout" -> k <> "currency" -> str_assoc k l' = str_assoc k l) /\
    l.*1 `prefix_of` l'.*1.
Proof.
  intros Hok Hp Hn. rewrite (merge_detail_ok _ st t d) by done.
  eexists; split; [done|]. simpl spread.
  split; [by rewrite assoc_define_ne, assoc_define_eq|].
  split; [by rewrite assoc_define_eq|].
  split; [intros k Hk1 Hk2; by rewrite !assoc_define_ne by congruence|].
  etrans; apply define_prefix.
Qed.

(** C22: A detail whose [default_payout] is [0] is reported as
    ["N/A"]: the code's [||] treats the number zero as missing. *)
Theorem merge_detail_zero_payout (l : list (string * jv)) (st : Z) (t : string) (c : jv) :
  resp_ok st = true ->
  json_parse t = Some (JObj [("default_payout", JNum 0); ("currency", c)]) ->
  exists l', merge_detail (JObj l) (FResponse st t) = JObj l' /\
    str_assoc "default_payout" l' = Some (JStr "N/A").
Proof.
  intros Hok Hp. rewrite (merge_detail_ok _ st t _ Hok Hp) by done.
  eexists; split; [done|]. by rewrite assoc_define_ne, assoc_define_eq.
Qed.

(** The enrichment keeps values free of duplicate keys when the
    parser does. *)
Lemma merge_detail_keeps_wf (offer : jv) (o : fetch_outcome) :
  (forall t v, json_parse t = Some v -> wf v = true) ->
  wf offer = true -> wf (merge_detail offer o) = true.
Proof.
  intros Hparse Hoff. destruct o as [|st t]; simpl; [done|].
  destruct (resp_ok st); [|done]. unfold response_json.
  destruct (json_parse t) as [d|] eqn:Hp; [|done]. simpl.
  destruct (decide (d = JNull)) as [->|Hn]; [by unfold merged|].
  unfold merged. rewrite !get_field by done. autorewrite with relay_rw.
  assert (forall k x, field d k = Some x -> wf x = true) by eauto using field_wf.
  apply define_wf; [apply js_or_wf; [eauto | done]|].
  apply define_wf; [apply js_or_wf; [eauto | done]|]. by apply spread_wf.
Qed.

Lemma enriched_wf (offers : list jv) :
  (forall t v, json_parse t = Some v -> wf v = true) ->
  forallb wf offers = true -> forallb wf (enriched cfg tmo aff offers) = true.
Proof.
  intros Hp. unfold enriched. induction offers as [|o os IH]; [done|]. simpl.
  intros [Ho Hos]%andb_prop. by rewrite merge_detail_keeps_wf, IH.
Qed.

(** When [JSON.parse] returns objects without duplicate keys,
    the enriched offer has no duplicate key either, whatever the offer
    (object, array, string or scalar) and whatever the lookup's outcome. *)
Theorem merge_detail_wf (offer : jv) (o : fetch_outcome) :
  (forall t v, json_parse t = Some v -> wf v = true) ->
  wf offer = true -> wf (merge_detail offer o) = true.
Proof. apply merge_detail_keeps_wf. Qed.
End EnrichTheorems.

Section AllTheorems.
Context `{U : Upstream} (cfg : config) (tmo : option Z) (aff : string).

(** C2: When [Promise.all] fulfils, the enriched list has one
    entry per offer, in the upstream's order, and entry [i] is offer [i]
    merged with the answer to offer [i]'s own detail request, whatever
    the other lookups did. *)
Theorem enrich_all_positional (offers res : list jv) :
  enrich_all cfg tmo aff offers = Ok res ->
  length res = length offers /\
  forall i offer, offers !! i = Some offer ->
    res !! i = Some (merge_detail offer (fetch (offer_request cfg tmo aff offer))).
Proof.
  rewrite all_settled_enrich. destruct (forallb _ _); [|done]. intros [= <-].
  unfold enriched. rewrite length_map. split; [done|].
  intros i offer Hi. by rewrite list_lookup_fmap, Hi.
Qed.

(** C13: The whole enrichment rejects exactly when some offer
    is [null] or has a [network_offer_id] that is an object with its own
    [toString] key (or an array holding one): reading the id of [null]
    and converting such an id in the detail URL's template literal both
    happen before the callback's [try]. *)
Theorem enrich_all_rejects (offers : list jv) :
  (exists e, enrich_all cfg tmo aff offers = Throw e) <->
  exists offer, offer ∈ offers /\
    (offer = JNull \/ exists id, field offer "network_offer_id" = Some id /\ own_tostring id = true).
Proof.
  rewrite all_settled_enrich. split.
  - intros [e He]. destruct (forallb _ _) eqn:Hall; [done|].
    apply forallb_false in Hall as (o & Ho & Hf). exists o. split; [done|].
    by apply reaches_fetch_false.
  - intros (o & Ho & Hf). apply reaches_fetch_false in Hf.
    replace (forallb reaches_fetch offers) with false; [by eexists|].
    symmetry. apply forallb_false. eauto.
Qed.

(** C1: Whatever order the detail lookups complete in,
    once none is pending [Promise.all] has decided the result of the
    sequential [enrich_all]. *)
Theorem gather_refines (offers : list jv) (ss : list slot) :
  gather_star (map (start_slot cfg tmo aff) offers) ss -> settled ss ->
  joined ss = Some (enrich_all cfg tmo aff offers).
Proof.
  intros Hrun Hset. rewrite <-joined_final.
  erewrite <-settled_final; [done| |done].
  eapply gather_star_inv; [apply start_inv|done].
Qed.

(** C15: When an offer is [null], [Promise.all] has rejected
    in every state of every run, before any lookup completes. *)
Theorem gather_rejects_early (offers : list jv) (ss : list slot) :
  JNull ∈ offers -> gather_star (map (start_slot cfg tmo aff) offers) ss ->
  joined ss = Some (Throw ETypeError).
Proof.
  intros Hnull Hrun. apply joined_rejected.
  pose proof (gather_star_inv cfg tmo aff _ _ _ (start_inv cfg tmo aff offers) Hrun) as Hinv.
  apply list_elem_of_lookup in Hnull as [i Hi].
  destruct (Forall2_lookup_l _ _ _ _ _ Hinv Hi) as (s & Hs & [-> | ->]);
    by apply list_elem_of_lookup_2 in Hs.
Qed.

(** From any state, completing the pending lookups one by
    one reaches a state with none pending. *)
Theorem gather_completes (ss : list slot) :
  exists ss', gather_star ss ss' /\ settled ss'.
Proof.
  induction ss as [|s ss (ss' & Hrun & Hset)].
  { exists []. split; [constructor | by constructor]. }
  destruct s as [offer r|v|].
  - exists (SDone (merge_detail offer (fetch r)) :: ss'). split; [|by constructor].
    eapply gather_star_trans; [by apply gather_star_cons|].
    eapply gstar_step; [|apply gstar_refl].
    by apply (gs_complete (SPending offer r :: ss') 0 offer r).
  - exists (SDone v :: ss'). split; [by apply gather_star_cons | by constructor].
  - exists (SRejected :: ss'). split; [by apply gather_star_cons | by constructor].
Qed.

(** Every completion removes exactly one pending
    lookup, so a run from [n] pending lookups has at most [n] steps. *)
Theorem gather_step_decreases (ss ss' : list slot) :
  gather_step ss ss' -> S (pending_count ss') = pending_count ss.
Proof. intros Hstep. inversion Hstep; subst. by eapply pending_count_complete. Qed.
End AllTheorems.

(** ** Witnesses *)

(** A detail upstream: offer 7 of affiliate [af123] has a detail body
    ["D"]; body ["Z"] has a zero payout. *)
Definition demo_cfg : config := mk_config (Some "key") None None.

Definition demo_offer : jv := JObj [("network_offer_id", JNum 7); ("name", JStr "Offer seven")].

Definition demo_upstream : Upstream :=
  table_upstream
    [(detail_url "7" "af123", FResponse 200 "D")]
    [("D", JObj [("default_payout", JNum 12); ("currency", JStr "USD")]);
     ("Z", JObj [("default_payout", JNum 0); ("currency", JStr "USD")])].

Lemma demo_upstream_wf (t : string) (v : jv) :
  @json_parse demo_upstream t = Some v -> wf v = true.
Proof. simpl. repeat case_decide; intros; simplify_eq; reflexivity. Qed.

Lemma merge_detail_failure_witness :
  @detail_failed demo_upstream (FResponse 503 "unavailable") /\
  @merge_detail demo_upstream demo_offer (FResponse 503 "unavailable") = demo_offer.
Proof.
  assert (@detail_failed demo_upstream (FResponse 503 "unavailable")) as H.
  { right. exists 503%Z, "unavailable". split; [done|]. by left. }
  split; [exact H|]. exact (@merge_detail_failure demo_upstream demo_offer _ H).
Defined.

Lemma merge_detail_fields_witness :
  resp_ok 200 = true /\
  exists l', @merge_detail demo_upstream demo_offer (FResponse 200 "D") = JObj l' /\
    str_assoc "default_payout" l' = Some (JNum 12) /\
    str_assoc "currency" l' = Some (JStr "USD") /\
    (forall k, k <> "default_payout" -> k <> "currency" ->
       str_assoc k l' = str_assoc k [("network_offer_id", JNum 7); ("name", JStr "Offer seven")]) /\
    ["network_offer_id"; "name"] `prefix_of` l'.*1.
Proof.
  split; [reflexivity|].
  exact (@merge_detail_fields demo_upstream _ 200 "D" _ eq_refl eq_refl ltac:(discriminate)).
Defined.

Lemma merge_detail_zero_payout_witness :
  exists l', @merge_detail demo_upstream demo_offer (FResponse 200 "Z") = JObj l' /\
    str_assoc "default_payout" l' = Some (JStr "N/A").
Proof. exact (@merge_detail_zero_payout demo_upstream _ 200 "Z" (JStr "USD") eq_refl eq_refl). Defined.

Lemma merge_detail_wf_witness :
  wf demo_offer = true /\
  wf (@merge_detail demo_upstream demo_offer (FResponse 200 "D")) = true.
Proof.
  split; [reflexivity|].
  exact (@merge_detail_wf demo_upstream demo_offer _ demo_upstream_wf eq_refl).
Defined.

Lemma enrich_all_positional_witness :
  @enrich_all demo_upstream demo_cfg (Some 3000%Z) "af123" [demo_offer; JArr []] =
    Ok (@enriched demo_upstream demo_cfg (Some 3000%Z) "af123" [demo_offer; JArr []]) /\
  length (@enriched demo_upstream demo_cfg (Some 3000%Z) "af123" [demo_offer; JArr []]) = 2.
Proof.
  assert (@enrich_all demo_upstream demo_cfg (Some 3000%Z) "af123" [demo_offer; JArr []] =
    Ok (@enriched demo_upstream demo_cfg (Some 3000%Z) "af123" [demo_offer; JArr []])) as H
    by reflexivity.
  split; [exact H|]. by destruct (enrich_all_positional demo_cfg (Some 3000%Z) "af123" _ _ H).
Defined.

Lemma gather_refines_witness :
  @joined [SDone (@merge_detail demo_upstream demo_offer (FResponse 200 "D"))] =
  Some (@enrich_all demo_upstream demo_cfg (Some 3000%Z) "af123" [demo_offer]).
Proof.
  apply (gather_refines demo_cfg (Some 3000%Z) "af123" [demo_offer]).
  - eapply gstar_step; [apply (gs_complete _ 0 demo_offer); reflexivity|]. apply gstar_refl.
  - by repeat constructor.
Defined.

Lemma gather_rejects_early_witness :
  @joined [SRejected; SPending demo_offer (@offer_request demo_cfg (Some 3000%Z) "af123" demo_offer)] =
  Some (Throw ETypeError).
Proof.
  apply (@gather_rejects_early demo_upstream demo_cfg (Some 3000%Z) "af123" [JNull; demo_offer]).
  - by left.
  - apply gstar_refl.
Defined.

Lemma gather_step_decreases_witness :
  S (pending_count [SDone (@merge_detail demo_upstream demo_offer (FResponse 200 "D"))]) =
  pending_count [SPending demo_offer (@offer_request demo_cfg (Some 3000%Z) "af123" demo_offer)].
Proof.
  apply (@gather_step_decreases demo_upstream).
  set (r := @offer_request demo_cfg (Some 3000%Z) "af123" demo_offer).
  replace [SDone (@merge_detail demo_upstream demo_offer (FResponse 200 "D"))]
    with (<[0 := SDone (@merge_detail demo_upstream demo_offer (@fetch demo_upstream r))]>
            [SPending demo_offer r]) by reflexivity.
  by apply gs_complete.
Defined.
