(* ===== verification/Handler.v ===== *)
(** * The offers route of [src/index.js]

    [app.get('/partner-dashboard/offers', async (req, res) => ...)], lines
    46-156, as one function [handle_offers] from [req.query] to the
    route's outcome and the trace of requests it sends upstream, in the
    order it sends them.

    The outcome is a response (status and JSON body) or an exception that
    escapes the async handler: the only code outside the [try] that can
    throw is [affiliate_id.includes('{')] (line 58), which throws when
    Express 4's [qs] parser made [affiliate_id] an object.  What Express then does
    depends on its version (an unhandled rejection in Express 4, the error
    handler in Express 5), so the model stops at the escaping exception.

    The stages follow the code: the probe answer (lines 50-55), the
    [affiliate_id] guard (58-67), the [type] guard (69-74), the list URL
    (76-82), and the [try] block (84-146) with its [catch] (148-155).  The
    clock ([new Date().toISOString()]) and the stack trace of an error are
    inputs, gathered in [runtime]. *)

From S2P Require Import Prelude JsValue Query Upstream Enrich.

Record response := mk_response {
  res_status : Z;
  res_body : jv
}.

Inductive outcome :=
  | Respond (r : response)
  | Unhandled (e : js_exn).

(** The inputs of the handler that are not the request: the timestamp the
    success envelope carries and the [err.stack] of an exception. *)
Record runtime := mk_runtime {
  rt_now : string;
  rt_stack : js_exn -> string
}.

(** A double quote, for the message of line 72. *)
Definition dq : string := chr "034"%char.

(** ** Response bodies *)

(** Lines 51-54. *)
Definition probe_body : jv :=
  JObj [("status", JStr "success");
        ("message", JStr "Partner dashboard backend is operational")].

(** Lines 59-66. *)
Definition bad_affiliate_body (received : qv) : jv :=
  JObj [("error", JStr "Invalid request");
        ("message", JStr "Valid affiliate_id is required");
        ("details", JObj [("received", q_to_jv received);
                          ("expected", JStr "Non-empty string without special characters")])].

(** Lines 70-73. *)
Definition bad_type_body : jv :=
  JObj [("error", JStr "Invalid request");
        ("message", JStr ("Type must be either " +:+ dq +:+ "top" +:+ dq +:+ " or " +:+
                          dq +:+ "latest" +:+ dq +:+ " if provided"))].

(** Lines 96-100. *)
Definition bad_gateway_body (error_text : string) : jv :=
  JObj [("error", JStr "Bad Gateway");
        ("message", JStr "Failed to fetch offers from Everflow");
        ("details", JStr error_text)].

(** Lines 135-146. *)
Definition success_body (now : string) (offers : list jv) : jv :=
  JObj [("status", JStr "success");
        ("data", JObj [("offers", JArr offers);
                       ("count", JNum (Z.of_nat (length offers)));
                       ("_metadata", JObj [("source", JStr "Everflow API");
                                           ("enrichment", JStr "payout_and_currency");
                                           ("timestamp", JStr now)])])].

(** Lines 150-154.  [details] is [undefined] outside development, and
    [JSON.stringify] drops a property whose value is [undefined]. *)
Definition internal_error_body (cfg : config) (stack : string) : jv :=
  JObj ([("error", JStr "Internal Server Error");
         ("message", JStr "An unexpected error occurred")] ++
        if decide (node_env cfg = Some "development") then [("details", JStr stack)] else []).

(** [offers.map(...)]: only an array has a [map] method. *)
Definition as_array (v : jv) : js_result (list jv) :=
  match v with
  | JArr l => Ok l
  | _ => Throw ETypeError
  end.

Section Handler.
Context `{U : Upstream} (cfg : config) (rt : runtime).

(** Lines 76-91: the list request. *)
Definition list_request (aff : string) (type : option qv) : fetch_request :=
  mk_fetch (list_url aff type) (eflow_headers cfg) (Some 5000%Z).

(** Lines 103-104: [data = await response.json(); offers = data.offers || []]. *)
Definition offers_of (text : string) : js_result (list jv) :=
  data <- response_json text ;;
  o <- get data "offers" ;;
  as_array (js_or o (JArr [])).

(** Lines 84-146: the [try] block, with the requests it sends. *)
Definition try_block (aff : string) (type : option qv) : js_result response * list fetch_request :=
  let lreq := list_request aff type in
  match fetch lreq with
  | FReject => (Throw EFetchError, [lreq])
  | FResponse st text =>
      if resp_ok st then
        match offers_of text with
        | Throw e => (Throw e, [lreq])
        | Ok offers =>
            ((res <- enrich_all cfg (Some 3000%Z) aff offers ;; Ok (mk_response 200 (success_body (rt_now rt) res))),
             lreq :: detail_requests cfg (Some 3000%Z) aff offers)
        end
      else (Ok (mk_response 502 (bad_gateway_body text)), [lreq])
  end.

(** Lines 148-155: the [catch]. *)
Definition catch_internal (r : js_result response) : response :=
  match r with
  | Ok resp => resp
  | Throw e => mk_response 500 (internal_error_body cfg (rt_stack rt e))
  end.

(** Lines 47-156: the route. *)
Definition handle_offers (query : list (string * qv)) : outcome * list fetch_request :=
  let type := query_get "type" query in
  match query_get "affiliate_id" query with
  | None => (Respond (mk_response 200 probe_body), [])
  | Some a =>
      if negb (q_truthy a) then (Respond (mk_response 200 probe_body), [])
      else match q_includes a "{" with
      | Throw e => (Unhandled e, [])
      | Ok true => (Respond (mk_response 400 (bad_affiliate_body a)), [])
      | Ok false =>
          if oq_truthy type && negb (lit_includes ["top"; "latest"] type)
          then (Respond (mk_response 400 bad_type_body), [])
          else let '(r, trace) := try_block (q_to_string a) type in
               (Respond (catch_internal r), trace)
      end
  end.
End Handler.

(** ** Lemmas *)

(** The inputs that pass both guards. *)
Definition type_ok (type : option qv) : bool :=
  negb (oq_truthy type) || lit_includes ["top"; "latest"] type.

Section HandlerLemmas.
Context `{U : Upstream} (cfg : config) (rt : runtime).

Lemma q_is_other (t : qv) (s : string) : t <> QStr s -> q_is t s = false.
Proof. intros Hne. destruct (q_is t s) eqn:E; [|done]. apply (oq_is_Some_iff (Some t)) in E. congruence. Qed.

Lemma handle_offers_bad_type (q : list (string * qv)) (a t : qv) :
  query_get "affiliate_id" q = Some a -> q_truthy a = true -> q_includes a "{" = Ok false ->
  query_get "type" q = Some t -> q_truthy t = true -> t <> QStr "top" -> t <> QStr "latest" ->
  handle_offers cfg rt q = (Respond (mk_response 400 bad_type_body), []).
Proof.
  intros Ha Hat Hai Ht Htt Htop Hlat. unfold handle_offers. rewrite Ha, Hat, Hai, Ht.
  cbn -[lit_includes]. rewrite Htt. rewrite lit_includes_cons, lit_includes_cons.
  simpl. by rewrite !q_is_other.
Qed.

Lemma handle_offers_valid (q : list (string * qv)) (a : qv) :
  query_get "affiliate_id" q = Some a -> q_truthy a = true -> q_includes a "{" = Ok false ->
  type_ok (query_get "type" q) = true ->
  handle_offers cfg rt q =
  (Respond (catch_internal cfg rt (try_block cfg rt (q_to_string a) (query_get "type" q)).1),
   (try_block cfg rt (q_to_string a) (query_get "type" q)).2).
Proof.
  intros Ha Ht Hi Hty. unfold handle_offers. rewrite Ha, Ht, Hi. cbn -[try_block lit_includes].
  destruct (try_block cfg rt (q_to_string a) (query_get "type" q)) as [r tr].
  unfold type_ok in Hty. by destruct (oq_truthy _), (lit_includes _ _).
Qed.

(** What the [try] block can produce: an exception, a 502 carrying the
    upstream's text, or the success envelope. *)
Lemma try_block_result (aff : string) (type : option qv) :
  (exists e, (try_block cfg rt aff type).1 = Throw e) \/
  (exists text, (try_block cfg rt aff type).1 = Ok (mk_response 502 (bad_gateway_body text))) \/
  (exists res, (try_block cfg rt aff type).1 = Ok (mk_response 200 (success_body (rt_now rt) res))).
Proof.
  unfold try_block. destruct (fetch _) as [|st text]; simpl; [eauto|].
  destruct (resp_ok st); simpl; [|eauto].
  destruct (offers_of text) as [offers|e]; simpl; [|eauto].
  destruct (enrich_all cfg (Some 3000%Z) aff offers); simpl; eauto.
Qed.

(** Every request of the [try] block carries the service credential, and
    the list request comes first. *)
Lemma try_block_trace (aff : string) (type : option qv) :
  exists rest, (try_block cfg rt aff type).2 = list_request cfg aff type :: rest /\
    Forall (fun r => f_headers r = eflow_headers cfg) rest.
Proof.
  unfold try_block. destruct (fetch _) as [|st text]; simpl; [eauto|].
  destruct (resp_ok st); simpl; [|eauto].
  destruct (offers_of text) as [offers|e]; simpl; [|eauto].
  eexists; split; [done|]. apply detail_requests_headers.
Qed.
(** A request that passes both guards sends its list request first. *)
Lemma handle_offers_valid_trace (q : list (string * qv)) (a : qv) :
  query_get "affiliate_id" q = Some a -> q_truthy a = true -> q_includes a "{" = Ok false ->
  type_ok (query_get "type" q) = true ->
  exists rest, (handle_offers cfg rt q).2 =
    list_request cfg (q_to_string a) (query_get "type" q) :: rest.
Proof.
  intros Ha Ht Hi Hty. rewrite (handle_offers_valid q a) by done.
  destruct (try_block_trace (q_to_string a) (query_get "type" q)) as (rest & Htr & _).
  by exists rest.
Qed.

(** The route lets an exception escape only for an object [affiliate_id]. *)
Lemma handle_offers_unhandled (q : list (string * qv)) (e : js_exn) :
  (handle_offers cfg rt q).1 = Unhandled e ->
  e = ETypeError /\ exists l, query_get "affiliate_id" q = Some (QObj l).
Proof.
  unfold handle_offers. destruct (query_get "affiliate_id" q) as [a|]; [|done].
  destruct (q_truthy a); [|done]. cbn -[try_block lit_includes].
  destruct a as [s|l|l]; cbn -[try_block lit_includes]; [| |intros [= <-]; by eauto].
  all: match goal with |- context [if ?b then _ else _] => destruct b end; [done|].
  all: destruct (_ && _); [done|]. all: by destruct (try_block _ _ _ _).
Qed.
End HandlerLemmas.

(** The response contract of the spec's error-handling section: a 200
    carries [status: "success"]; every other status carries [error] and
    [message]; the statuses are 200, 400, 500 and 502. *)
Definition contract_ok (r : response) : bool :=
  bool_decide (res_status r ∈ [200; 400; 500; 502]%Z) &&
  if bool_decide (res_status r = 200%Z)
  then bool_decide (field (res_body r) "status" = Some (JStr "success"))
  else bool_decide (is_Some (field (res_body r) "error")) &&
       bool_decide (is_Some (field (res_body r) "message")).

(** A JSON object without duplicate keys, at every depth. *)
Definition json_object (v : jv) : bool :=
  match v with
  | JObj _ => wf v
  | _ => false
  end.

Section BodyLemmas.
Context `{U : Upstream} (cfg : config) (rt : runtime).
Hypothesis parse_wf : forall t v, json_parse t = Some v -> wf v = true.

Lemma offers_of_wf (text : string) (offers : list jv) :
  offers_of text = Ok offers -> forallb wf offers = true.
Proof.
  unfold offers_of, response_json. destruct (json_parse text) as [d|] eqn:Hp; [|done].
  autorewrite with relay_rw. destruct (decide (d = JNull)) as [->|Hn]; [done|].
  rewrite get_field by done. autorewrite with relay_rw.
  assert (Hw : wf (js_or (field d "offers") (JArr [])) = true).
  { apply js_or_wf; [|done]. intros x. apply field_wf. by apply (parse_wf text). }
  destruct (js_or _ _); simpl in *; by intros [= <-].
Qed.

Lemma catch_internal_wf (r : js_result response) :
  (forall resp, r = Ok resp -> json_object (res_body resp) = true) ->
  json_object (res_body (catch_internal cfg rt r)) = true.
Proof.
  destruct r as [resp|e]; simpl; [auto|]. intros _.
  unfold internal_error_body. by case_decide.
Qed.

Lemma try_block_wf (aff : string) (type : option qv) (resp : response) :
  (try_block cfg rt aff type).1 = Ok resp -> json_object (res_body resp) = true.
Proof.
  unfold try_block. destruct (fetch _) as [|st text]; [done|].
  destruct (resp_ok st); [|by intros [= <-]].
  destruct (offers_of text) as [offers|e] eqn:Ho; [|done]. simpl.
  rewrite all_settled_enrich. destruct (forallb _ _); [|done]. intros [= <-]. simpl.
  rewrite !andb_true_r. apply enriched_wf; [done|]. by apply (offers_of_wf text).
Qed.

Lemma handle_offers_wf (q : list (string * qv)) (resp : response) :
  forallb (fun kv => q_wf kv.2) q = true ->
  (handle_offers cfg rt q).1 = Respond resp -> json_object (res_body resp) = true.
Proof.
  intros Hq. unfold handle_offers. destruct (query_get "affiliate_id" q) as [a|] eqn:Ha;
    [|by intros [= <-]].
  destruct (q_truthy a); [|by intros [= <-]]. simpl.
  destruct (q_includes a "{") as [[|]|e]; [| |done].
  - intros [= <-]. simpl. rewrite q_to_jv_wf; [done|]. by apply (str_assoc_forallb q_wf "affiliate_id" a q).
  - destruct (_ && _); [by intros [= <-]|].
    destruct (try_block cfg rt (q_to_string a) (query_get "type" q)) as [r tr] eqn:Ht.
    intros [= <-]. apply catch_internal_wf. intros resp' ->.
    apply (try_block_wf (q_to_string a) (query_get "type" q)). by rewrite Ht.
Qed.
End BodyLemmas.

(** ** Theorems *)

Section HandlerTheorems.
Context `{U : Upstream} (cfg : config) (rt : runtime).

(** C7: Without [affiliate_id], or with an empty one, the route
    answers 200 with the operational message, whatever [type] is, and
    sends nothing upstream. *)
Theorem offers_probe (q : list (string * qv)) :
  query_get "affiliate_id" q = None \/ query_get "affiliate_id" q = Some (QStr "") ->
  handle_offers cfg rt q = (Respond (mk_response 200 probe_body), []).
Proof. unfold handle_offers. by intros [-> | ->]. Qed.

(** C8: A string [affiliate_id] containing [{] is answered
    400 with the invalid-affiliate body echoing it, and nothing is sent
    upstream. *)
Theorem offers_bad_affiliate (q : list (string * qv)) (s : string) :
  query_get "affiliate_id" q = Some (QStr s) -> str_includes "{" s = true ->
  handle_offers cfg rt q = (Respond (mk_response 400 (bad_affiliate_body (QStr s))), []).
Proof.
  intros Ha Hb. unfold handle_offers. rewrite Ha. cbn -[str_includes]. rewrite Hb.
  destruct s; [done|]. reflexivity.
Qed.

(** C9: A valid [affiliate_id] with a [type] that is truthy and
    not exactly [top] or [latest] is answered 400 with the invalid-type
    body, and nothing is sent upstream. *)
Theorem offers_bad_type (q : list (string * qv)) (a t : qv) :
  query_get "affiliate_id" q = Some a -> q_truthy a = true -> q_includes a "{" = Ok false ->
  query_get "type" q = Some t -> q_truthy t = true -> t <> QStr "top" -> t <> QStr "latest" ->
  handle_offers cfg rt q = (Respond (mk_response 400 bad_type_body), []).
Proof. apply handle_offers_bad_type. Qed.

(** C10: For a valid request, a list call answered with a
    status outside 200-299 is answered 502 with the upstream's raw body in
    [details]; only the list request was sent. *)
Theorem offers_bad_gateway (q : list (string * qv)) (a : qv) (st : Z) (text : string) :
  query_get "affiliate_id" q = Some a -> q_truthy a = true -> q_includes a "{" = Ok false ->
  type_ok (query_get "type" q) = true ->
  fetch (list_request cfg (q_to_string a) (query_get "type" q)) = FResponse st text ->
  resp_ok st = false ->
  handle_offers cfg rt q =
  (Respond (mk_response 502 (bad_gateway_body text)),
   [list_request cfg (q_to_string a) (query_get "type" q)]).
Proof.
  intros Ha Hat Hai Hty Hf Hst. rewrite (handle_offers_valid cfg rt q a) by done.
  unfold try_block. by rewrite Hf, Hst.
Qed.

(** C5: For a valid request whose list call succeeds with offers that
    are not [null] and whose ids convert to strings (no id is an object
    with its own [toString] key, or an array holding one), the route
    answers 200 with the success envelope
    around the enriched offers (one per offer, in order) and their count,
    after sending the list request and then one detail request per offer
    in list order. *)
Theorem offers_success (q : list (string * qv)) (a : qv) (st : Z) (text : string)
    (offers : list jv) :
  query_get "affiliate_id" q = Some a -> q_truthy a = true -> q_includes a "{" = Ok false ->
  type_ok (query_get "type" q) = true ->
  fetch (list_request cfg (q_to_string a) (query_get "type" q)) = FResponse st text ->
  resp_ok st = true -> offers_of text = Ok offers -> forallb reaches_fetch offers = true ->
  handle_offers cfg rt q =
  (Respond (mk_response 200 (success_body (rt_now rt) (enriched cfg (Some 3000%Z) (q_to_string a) offers))),
   list_request cfg (q_to_string a) (query_get "type" q) ::
     map (offer_request cfg (Some 3000%Z) (q_to_string a)) offers).
Proof.
  intros Ha Hat Hai Hty Hf Hst Ho Hn. rewrite (handle_offers_valid cfg rt q a) by done.
  unfold try_block. rewrite Hf, Hst, Ho, all_settled_enrich, Hn.
  simpl. by rewrite detail_requests_all.
Qed.

(** C17: The list body's [offers] field, when missing or
    falsy, is an empty list; when it is truthy but not an array, reading it
    throws (and the route answers 500). *)
Theorem offers_of_field (text : string) (d : jv) :
  json_parse text = Some d -> d <> JNull ->
  (otruthy (field d "offers") = false -> offers_of text = Ok []) /\
  (forall v, field d "offers" = Some v -> truthy v = true ->
     offers_of text = match v with JArr l => Ok l | _ => Throw ETypeError end).
Proof.
  intros Hp Hn. unfold offers_of, response_json. rewrite Hp.
  autorewrite with relay_rw. rewrite get_field by done. autorewrite with relay_rw. split.
  - destruct (field d "offers") as [v|]; simpl; [|done]. by intros ->.
  - intros v -> Hv. simpl. by rewrite Hv.
Qed.

(** C11: For a valid request whose list call rejects, the route
    answers 500, and the body carries the stack trace exactly when
    [NODE_ENV] is [development]. *)
Theorem offers_fetch_rejects (q : list (string * qv)) (a : qv) :
  query_get "affiliate_id" q = Some a -> q_truthy a = true -> q_includes a "{" = Ok false ->
  type_ok (query_get "type" q) = true ->
  fetch (list_request cfg (q_to_string a) (query_get "type" q)) = FReject ->
  exists body, handle_offers cfg rt q =
    (Respond (mk_response 500 body), [list_request cfg (q_to_string a) (query_get "type" q)]) /\
    (field body "details" = Some (JStr (rt_stack rt EFetchError)) <->
     node_env cfg = Some "development") /\
    (field body "details" = None <-> node_env cfg <> Some "development").
Proof.
  intros Ha Hat Hai Hty Hf. rewrite (handle_offers_valid cfg rt q a) by done.
  unfold try_block. rewrite Hf. eexists; split; [done|].
  unfold internal_error_body. simpl. case_decide; simpl; naive_solver.
Qed.

(** C6: Every answer of the route follows the response contract
    (200 with [status: "success"], or 400/500/502 with [error] and
    [message]); the one way the route gives no answer is an exception
    escaping the handler, which happens exactly when [affiliate_id] was
    parsed into an object. *)
Theorem offers_contract (q : list (string * qv)) :
  match (handle_offers cfg rt q).1 with
  | Respond r => contract_ok r = true
  | Unhandled _ => exists l, query_get "affiliate_id" q = Some (QObj l)
  end.
Proof.
  unfold handle_offers. destruct (query_get "affiliate_id" q) as [a|]; [|reflexivity].
  destruct (q_truthy a); [|reflexivity]. cbn -[try_block contract_ok lit_includes].
  destruct a as [s|l|l]; cbn -[try_block contract_ok lit_includes]; [| |by eexists].
  all: match goal with |- context [if ?b then _ else _] => destruct b end; [reflexivity|].
  all: destruct (_ && _); [reflexivity|].
  all: match goal with |- context [try_block cfg rt ?x ?y] =>
         pose proof (try_block_result cfg rt x y) as Hres;
         destruct (try_block cfg rt x y) as [r tr] end.
  all: destruct Hres as [[e He]|[[t He]|[res He]]]; simpl in He; subst r; simpl.
  all: unfold internal_error_body; try case_decide; reflexivity.
Qed.

(** C16: The route sends upstream either nothing or the list request
    for the converted [affiliate_id] and the [type] first, followed by
    detail requests; every request carries the configured
    [X-Eflow-API-Key] header. *)
Theorem offers_trace (q : list (string * qv)) :
  (handle_offers cfg rt q).2 = [] \/
  exists a rest, query_get "affiliate_id" q = Some a /\
    (handle_offers cfg rt q).2 = list_request cfg (q_to_string a) (query_get "type" q) :: rest /\
    Forall (fun r => f_headers r = eflow_headers cfg) ((handle_offers cfg rt q).2).
Proof.
  unfold handle_offers. destruct (query_get "affiliate_id" q) as [a|] eqn:Ha; [|by left].
  destruct (q_truthy a); [|by left]. cbn -[try_block lit_includes].
  destruct (q_includes a "{") as [[|]|e]; try by left.
  destruct (_ && _); [by left|].
  destruct (try_block_trace cfg rt (q_to_string a) (query_get "type" q)) as (rest & Htr & Hall).
  destruct (try_block cfg rt (q_to_string a) (query_get "type" q)) as [r tr].
  simpl in Htr |- *. subst tr. right. exists a, rest. by repeat constructor.
Qed.

(** C18: When [qs] parses [affiliate_id] into an object
    ([?affiliate_id[k]=v]), [affiliate_id.includes('{')] throws outside
    the [try], so the exception escapes the handler and no JSON answer is
    produced by the route. *)
Theorem offers_object_affiliate_escapes (q : list (string * qv)) (l : list (string * qv)) :
  query_get "affiliate_id" q = Some (QObj l) ->
  handle_offers cfg rt q = (Unhandled ETypeError, []).
Proof. intros Ha. unfold handle_offers. by rewrite Ha. Qed.

(** C19: A repeated [affiliate_id] parsed into a one-element
    array passes the [{] guard whatever its element (unless it is exactly
    ["{"]), and the element, braces included, goes into the list URL. *)
Theorem offers_array_bypasses_guard (s : string) :
  s <> "{" ->
  exists rest,
    (handle_offers cfg rt [("affiliate_id", QArr [QStr s])]).2 = list_request cfg s None :: rest /\
    str_includes s (f_url (list_request cfg s None)) = true.
Proof.
  intros Hs.
  destruct (handle_offers_valid_trace cfg rt [("affiliate_id", QArr [QStr s])] (QArr [QStr s]))
    as [rest Hrest]; try done.
  - simpl. by rewrite (proj2 (String.eqb_neq s "{") Hs).
  - exists rest. split; [exact Hrest | apply list_url_contains].
Qed.

(** C20: The affiliate id is put into the list URL without
    encoding: an id [a&b] that passes the guards (no [{]) makes the list
    request carry [b] as a parameter of its own, before the code's
    [limit=10], [status] and [visibility]; [7&limit=1000] adds
    [limit=1000]. *)
Theorem offers_affiliate_injects_params (q : list (string * qv)) (a b : string) :
  query_get "affiliate_id" q = Some (QStr (a +:+ "&" +:+ b)) ->
  str_includes "{" (a +:+ "&" +:+ b) = false -> type_ok (query_get "type" q) = true ->
  free_of "&" a -> free_of "#" a -> free_of "&" b -> free_of "#" b ->
  exists rest,
    (handle_offers cfg rt q).2 = list_request cfg (a +:+ "&" +:+ b) (query_get "type" q) :: rest /\
    url_query (f_url (list_request cfg (a +:+ "&" +:+ b) (query_get "type" q))) =
      [("affiliate_id", a); query_pair b; ("limit", "10"); ("status", "active");
       ("visibility", "public")] ++ sort_params (query_get "type" q).
Proof.
  intros Hq Hi Hty Ha Hh Hb Hbh.
  destruct (handle_offers_valid_trace cfg rt q _ Hq) as [rest Hrest]; simpl; rewrite ?Hi; try done.
  - by destruct a.
  - exists rest. split; [exact Hrest | by apply url_query_list_url_amp].
Qed.

(** C21: An empty [type] ([?type=]) is not rejected although it
    is present: the route behaves exactly as without [type]. *)
Theorem offers_empty_type_ignored (q : list (string * qv)) :
  query_get "type" q = None ->
  handle_offers cfg rt (("type", QStr "") :: q) = handle_offers cfg rt q.
Proof.
  intros Ht. unfold handle_offers, query_get in *. simpl. rewrite Ht.
  destruct (str_assoc "affiliate_id" q) as [a|]; [|done].
  destruct (q_truthy a); [|done]. simpl. by destruct (q_includes a "{") as [[|]|].
Qed.
(** C34: One client request makes one list request and then one detail
    request per offer of the upstream's list whose callback reaches its
    [fetch] (not [null], and an id that converts to a string): the
    number of upstream requests is bounded by the length of the list the
    upstream returns, and by nothing in the code; the [limit=10] of the
    URL is the only bound, and the upstream has to honour it. *)
Theorem offers_fanout (q : list (string * qv)) (a : qv) (st : Z) (text : string)
    (offers : list jv) :
  query_get "affiliate_id" q = Some a -> q_truthy a = true -> q_includes a "{" = Ok false ->
  type_ok (query_get "type" q) = true ->
  fetch (list_request cfg (q_to_string a) (query_get "type" q)) = FResponse st text ->
  resp_ok st = true -> offers_of text = Ok offers ->
  length (handle_offers cfg rt q).2 = S (length (filter reaches_fetch offers)) /\
  length (handle_offers cfg rt q).2 <= S (length offers).
Proof.
  intros Ha Hat Hai Hty Hf Hst Ho. rewrite (handle_offers_valid cfg rt q a) by done.
  unfold try_block. rewrite Hf, Hst, Ho. simpl.
  rewrite detail_requests_length. split; [done|]. pose proof (length_filter reaches_fetch offers). lia.
Qed.

(** C14: An offer whose [network_offer_id] is an object with its own
    [toString] key fails the whole request with a 500, although the spec
    absorbs every per-offer failure: the template literal of line 109
    throws outside the callback's [try], so [Promise.all] rejects, and
    that offer's detail request is never sent (fewer detail requests
    than offers). *)
Theorem offers_tostring_id_fails (q : list (string * qv)) (a : qv) (st : Z) (text : string)
    (offers : list jv) (o id : jv) :
  query_get "affiliate_id" q = Some a -> q_truthy a = true -> q_includes a "{" = Ok false ->
  type_ok (query_get "type" q) = true ->
  fetch (list_request cfg (q_to_string a) (query_get "type" q)) = FResponse st text ->
  resp_ok st = true -> offers_of text = Ok offers ->
  o ∈ offers -> field o "network_offer_id" = Some id -> own_tostring id = true ->
  (handle_offers cfg rt q).1 = Respond (mk_response 500 (internal_error_body cfg (rt_stack rt ETypeError))) /\
  length (handle_offers cfg rt q).2 <= length offers.
Proof.
  intros Ha Hat Hai Hty Hf Hst Ho Hin Hid Hts. rewrite (handle_offers_valid cfg rt q a) by done.
  assert (Hr : reaches_fetch o = false) by (apply reaches_fetch_false; eauto).
  unfold try_block. rewrite Hf, Hst, Ho, all_settled_enrich. simpl.
  replace (forallb reaches_fetch offers) with false by (symmetry; apply forallb_false; eauto).
  split; [done|]. simpl. rewrite detail_requests_length.
  pose proof (filter_length_lt reaches_fetch offers o Hin Hr). lia.
Qed.
End HandlerTheorems.

(** ** Witnesses *)

Definition demo_rt : runtime := mk_runtime "2026-11-09T00:00:00.000Z" (fun _ => "Error: at handler").

(** An upstream whose list call for [af123] returns offer 7, whose detail
    is known. *)
Definition demo_ok_upstream : Upstream :=
  table_upstream
    [(list_url "af123" None, FResponse 200 "L");
     (detail_url "7" "af123", FResponse 200 "D")]
    [("L", JObj [("offers", JArr [demo_offer])]);
     ("D", JObj [("default_payout", JNum 12); ("currency", JStr "USD")]);
     ("E", JObj [("data", JArr [])])].

(** An upstream whose list call fails with a 500. *)
Definition demo_down_upstream : Upstream :=
  table_upstream [(list_url "af123" None, FResponse 500 "upstream down")] [].

(** An upstream that cannot be reached. *)
Definition demo_unreachable : Upstream := table_upstream [] [].

Definition demo_query : list (string * qv) := [("affiliate_id", QStr "af123")].

Lemma offers_probe_witness :
  query_get "affiliate_id" [("type", QStr "bogus")] = None /\
  @handle_offers demo_unreachable demo_cfg demo_rt [("type", QStr "bogus")] =
    (Respond (mk_response 200 probe_body), []).
Proof. split; [reflexivity|]. apply offers_probe. by left. Defined.

Lemma offers_bad_affiliate_witness :
  @handle_offers demo_unreachable demo_cfg demo_rt [("affiliate_id", QStr "{affiliate_id}")] =
    (Respond (mk_response 400 (bad_affiliate_body (QStr "{affiliate_id}"))), []).
Proof. apply offers_bad_affiliate; reflexivity. Defined.

Lemma offers_bad_type_witness :
  @handle_offers demo_unreachable demo_cfg demo_rt [("affiliate_id", QStr "af123"); ("type", QStr "oldest")] =
    (Respond (mk_response 400 bad_type_body), []).
Proof. apply (offers_bad_type _ _ _ (QStr "af123") (QStr "oldest")); done. Defined.

Lemma offers_bad_gateway_witness :
  @handle_offers demo_down_upstream demo_cfg demo_rt demo_query =
    (Respond (mk_response 502 (bad_gateway_body "upstream down")),
     [list_request demo_cfg "af123" None]).
Proof. apply (offers_bad_gateway demo_cfg demo_rt demo_query (QStr "af123") 500); reflexivity. Defined.

Lemma offers_success_witness :
  @handle_offers demo_ok_upstream demo_cfg demo_rt demo_query =
    (Respond (mk_response 200 (success_body (rt_now demo_rt)
       (@enriched demo_ok_upstream demo_cfg (Some 3000%Z) "af123" [demo_offer]))),
     [list_request demo_cfg "af123" None; offer_request demo_cfg (Some 3000%Z) "af123" demo_offer]).
Proof.
  apply (offers_success demo_cfg demo_rt demo_query (QStr "af123") 200 "L"); reflexivity.
Defined.

(** An offer whose id is [{"toString": 1}], as [JSON.parse] builds it. *)
Definition demo_tostring_offer : jv := JObj [("network_offer_id", JObj [("toString", JNum 1)])].

Definition demo_tostring_upstream : Upstream :=
  table_upstream
    [(list_url "af123" None, FResponse 200 "L");
     (detail_url "7" "af123", FResponse 200 "D")]
    [("L", JObj [("offers", JArr [demo_offer; demo_tostring_offer])]);
     ("D", JObj [("default_payout", JNum 12); ("currency", JStr "USD")])].

Lemma offers_tostring_id_fails_witness :
  (@handle_offers demo_tostring_upstream demo_cfg demo_rt demo_query).1 =
    Respond (mk_response 500 (internal_error_body demo_cfg (rt_stack demo_rt ETypeError))) /\
  length (@handle_offers demo_tostring_upstream demo_cfg demo_rt demo_query).2 <= 2.
Proof.
  apply (@offers_tostring_id_fails demo_tostring_upstream demo_cfg demo_rt demo_query (QStr "af123")
           200 "L" [demo_offer; demo_tostring_offer] demo_tostring_offer (JObj [("toString", JNum 1)]));
    try reflexivity.
  right. left.
Defined.

Lemma offers_of_field_witness :
  @offers_of demo_ok_upstream "E" = Ok [].
Proof.
  apply (@offers_of_field demo_ok_upstream "E" (JObj [("data", JArr [])])); try done.
Defined.

Lemma offers_fetch_rejects_witness :
  exists body,
    @handle_offers demo_unreachable (mk_config (Some "key") None (Some "development")) demo_rt demo_query =
      (Respond (mk_response 500 body), [list_request (mk_config (Some "key") None (Some "development")) "af123" None]) /\
    field body "details" = Some (JStr "Error: at handler").
Proof.
  destruct (@offers_fetch_rejects demo_unreachable (mk_config (Some "key") None (Some "development"))
              demo_rt demo_query (QStr "af123") eq_refl eq_refl eq_refl eq_refl eq_refl)
    as (body & Hh & Hd & _).
  exists body. split; [exact Hh|]. by apply Hd.
Defined.

Lemma offers_object_affiliate_escapes_witness :
  @handle_offers demo_unreachable demo_cfg demo_rt [("affiliate_id", QObj [("k", QStr "v")])] =
    (Unhandled ETypeError, []).
Proof. apply (offers_object_affiliate_escapes _ _ _ [("k", QStr "v")]). reflexivity. Defined.

Lemma offers_array_bypasses_guard_witness :
  exists rest,
    (@handle_offers demo_unreachable demo_cfg demo_rt [("affiliate_id", QArr [QStr "{{aff}}"])]).2 =
      list_request demo_cfg "{{aff}}" None :: rest /\
    str_includes "{{aff}}" (f_url (list_request demo_cfg "{{aff}}" None)) = true.
Proof. apply offers_array_bypasses_guard. discriminate. Defined.

Lemma offers_affiliate_injects_params_witness :
  exists rest,
    (@handle_offers demo_unreachable demo_cfg demo_rt [("affiliate_id", QStr "7&limit=1000")]).2 =
      list_request demo_cfg "7&limit=1000" None :: rest /\
    url_query (f_url (list_request demo_cfg "7&limit=1000" None)) =
      [("affiliate_id", "7"); ("limit", "1000"); ("limit", "10"); ("status", "active");
       ("visibility", "public")].
Proof.
  apply (offers_affiliate_injects_params demo_cfg demo_rt [("affiliate_id", QStr "7&limit=1000")]
           "7" "limit=1000"); try reflexivity; apply (bool_decide_eq_true_1 _); vm_compute; reflexivity.
Defined.

Lemma offers_empty_type_ignored_witness :
  @handle_offers demo_ok_upstream demo_cfg demo_rt (("type", QStr "") :: demo_query) =
  @handle_offers demo_ok_upstream demo_cfg demo_rt demo_query.
Proof. apply offers_empty_type_ignored. reflexivity. Defined.

(** An upstream whose list for [af123] holds eleven offers. *)
Definition demo_eleven_upstream : Upstream :=
  table_upstream [(list_url "af123" None, FResponse 200 "L")]
    [("L", JObj [("offers", JArr (repeat demo_offer 11))])].

Lemma offers_fanout_witness :
  length (@handle_offers demo_eleven_upstream demo_cfg demo_rt demo_query).2 = 12%nat.
Proof.
  destruct (@offers_fanout demo_eleven_upstream demo_cfg demo_rt demo_query (QStr "af123") 200 "L"
              (repeat demo_offer 11)) as [-> _]; reflexivity.
Defined.
