(* ===== verification/App.v ===== *)
(** * The Express application of [src/index.js]

    How a request reaches a handler (lines 22-25, 32, 46, 163, 171):

    - [cors(corsOptions)] (line 24) answers every [OPTIONS] request itself
      with 204 and no body (the package's default [preflightContinue:
      false]); other methods go on;
    - [app.get(path, ...)] matches the methods GET and HEAD and a request
      path equal to [path] up to ASCII case and one trailing slash (Express
      compiles routes case-insensitively and non-strictly);
    - the 404 handler of lines 163-168 answers every request no route took;
    - the error handler of lines 171-177 answers 500 when a route fails.
      Whether an exception escaping the async offers route reaches it
      depends on the Express version: Express 5 forwards the rejected
      promise to it, Express 4 leaves it unhandled.  [express5] chooses.

    The [morgan] logger and [express.json()] do not change the answer of a
    GET without a body and are not modelled; the health route's uptime and
    the clock are inputs. *)

From S2P Require Import Prelude JsValue Query Upstream Enrich Handler.

(** What the application does with a request. *)
Inductive app_outcome :=
  | Answer (r : response)
  | NoContent
  | DefaultPage (status : Z)
  | Escaped (e : js_exn).

(** [app.get] takes GET, and HEAD for which no route exists. *)
Definition is_get (req : request) : bool :=
  String.eqb (req_method req) "GET" || String.eqb (req_method req) "HEAD".

(** The path of a non-strict, case-insensitive route matches. *)
Definition route_matches (route path : string) : bool :=
  String.eqb (str_lower path) route || String.eqb (str_lower path) (route +:+ "/").

(** Lines 33-39. *)
Definition health_body (now : string) (uptime : Z) : jv :=
  JObj [("status", JStr "healthy");
        ("timestamp", JStr now);
        ("uptime", JNum uptime);
        ("database", JStr "connected");
        ("everflow_api", JStr "reachable")].

(** Lines 164-167. *)
Definition not_found_body (path : string) : jv :=
  JObj [("error", JStr "Not Found");
        ("message", JStr ("The requested resource " +:+ path +:+ " was not found"))].

(** Lines 173-176. *)
Definition global_error_body : jv :=
  JObj [("error", JStr "Internal Server Error");
        ("message", JStr "An unexpected error occurred")].

Section App.
Context `{U : Upstream} (cfg : config) (rt : runtime) (express5 : bool) (uptime : Z).

(** An exception escaping a route: the global error handler under
    Express 5, an unhandled rejection under Express 4. *)
Definition escape (e : js_exn) : app_outcome :=
  if express5 then Answer (mk_response 500 global_error_body) else Escaped e.

(** The offers route as the application sees it. *)
Definition offers_route (req : request) : app_outcome * list fetch_request :=
  match handle_offers cfg rt (req_query req) with
  | (Respond r, tr) => (Answer r, tr)
  | (Unhandled e, tr) => (escape e, tr)
  end.

(** Lines 22-177: the application. *)
Definition app_index (req : request) : app_outcome * list fetch_request :=
  if String.eqb (req_method req) "OPTIONS" then (NoContent, [])
  else if is_get req && route_matches "/health" (req_path req)
  then (Answer (mk_response 200 (health_body (rt_now rt) uptime)), [])
  else if is_get req && route_matches "/partner-dashboard/offers" (req_path req)
  then offers_route req
  else (Answer (mk_response 404 (not_found_body (req_path req))), []).
End App.

(** ** Theorems *)

Section AppTheorems.
Context `{U : Upstream} (cfg : config) (rt : runtime) (express5 : bool) (uptime : Z).

Lemma is_get_not_options (req : request) :
  is_get req = true -> String.eqb (req_method req) "OPTIONS" = false.
Proof.
  unfold is_get. destruct (String.eqb_spec (req_method req) "GET") as [->|_]; [done|].
  destruct (String.eqb_spec (req_method req) "HEAD") as [->|_]; done.
Qed.

Lemma health_not_offers (p : string) :
  route_matches "/health" p = true -> route_matches "/partner-dashboard/offers" p = false.
Proof.
  unfold route_matches. intros [->%String.eqb_eq | ->%String.eqb_eq]%orb_true_iff;
    reflexivity.
Qed.

(** C23: A GET or HEAD request whose path is
    [/partner-dashboard/offers] up to ASCII case and a trailing slash is
    handled by the offers route, with its answer, its upstream requests
    and its escaping exception. *)
Theorem app_routes_offers (req : request) :
  req_method req = "GET" \/ req_method req = "HEAD" ->
  str_lower (req_path req) = "/partner-dashboard/offers" \/
  str_lower (req_path req) = "/partner-dashboard/offers/" ->
  app_index cfg rt express5 uptime req = offers_route cfg rt express5 req.
Proof.
  intros Hm Hp.
  assert (Hg : is_get req = true) by (unfold is_get; destruct Hm as [-> | ->]; done).
  assert (Hr : route_matches "/partner-dashboard/offers" (req_path req) = true)
    by (unfold route_matches; destruct Hp as [-> | ->]; done).
  unfold app_index. rewrite is_get_not_options, Hg, Hr by done.
  destruct (route_matches "/health" (req_path req)) eqn:Hh; [|done].
  by rewrite health_not_offers in Hr.
Qed.

(** A GET or HEAD of [/health] (up to case and a trailing
    slash) answers 200 with the health body and sends nothing upstream. *)
Theorem app_health (req : request) :
  is_get req = true -> route_matches "/health" (req_path req) = true ->
  app_index cfg rt express5 uptime req =
  (Answer (mk_response 200 (health_body (rt_now rt) uptime)), []).
Proof. intros Hg Hr. unfold app_index. by rewrite is_get_not_options, Hg, Hr. Qed.

(** C24: Any request that is not [OPTIONS] and that no route takes
    (another method, or another path) answers 404 with a message naming
    the path, and sends nothing upstream. *)
Theorem app_not_found (req : request) :
  String.eqb (req_method req) "OPTIONS" = false ->
  (is_get req = false \/
   (route_matches "/health" (req_path req) = false /\
    route_matches "/partner-dashboard/offers" (req_path req) = false)) ->
  app_index cfg rt express5 uptime req =
  (Answer (mk_response 404 (not_found_body (req_path req))), []).
Proof.
  intros Ho Hcase. unfold app_index. rewrite Ho.
  destruct Hcase as [-> | [-> ->]]; by rewrite ?andb_false_r.
Qed.

(** Under Express 5 every request gets an answer (a JSON
    response, or the 204 of the CORS preflight); under Express 4 the only
    request left without one is an offers request whose [affiliate_id]
    was parsed into an object. *)
Theorem app_always_answers (req : request) :
  match (app_index cfg rt express5 uptime req).1 with
  | Answer _ | NoContent => True
  | DefaultPage _ => False
  | Escaped _ => express5 = false /\ exists l, query_get "affiliate_id" (req_query req) = Some (QObj l)
  end.
Proof.
  unfold app_index. destruct (String.eqb _ _); [done|].
  destruct (_ && _); [done|]. destruct (_ && _); [|done].
  unfold offers_route. pose proof (handle_offers_unhandled cfg rt (req_query req)) as Hu.
  destruct (handle_offers cfg rt (req_query req)) as [[r|e] tr]; [done|].
  unfold escape. destruct express5; [done|]. split; [done|]. by apply (Hu e).
Qed.
(** Every JSON answer of the application is an object without
    duplicate keys at any depth (what [res.json] serialises), provided the
    upstream's bodies parse to such values, as [JSON.parse] makes them,
    and the query is what [qs] builds. *)
Theorem app_answers_json (req : request) (r : response) :
  (forall t v, json_parse t = Some v -> wf v = true) ->
  forallb (fun kv => q_wf kv.2) (req_query req) = true ->
  (app_index cfg rt express5 uptime req).1 = Answer r -> json_object (res_body r) = true.
Proof.
  intros Hp Hq. unfold app_index.
  destruct (String.eqb _ _); [done|]. destruct (_ && _); [by intros [= <-]|].
  destruct (_ && _); [|by intros [= <-]].
  unfold offers_route. pose proof (handle_offers_wf cfg rt Hp (req_query req)) as Hw.
  destruct (handle_offers cfg rt (req_query req)) as [[resp|e] tr]; simpl.
  - intros [= <-]. by apply Hw.
  - unfold escape. destruct express5; [by intros [= <-]|done].
Qed.
End AppTheorems.

(** ** Witnesses *)

Definition demo_get (path : string) (q : list (string * qv)) : request :=
  mk_request "GET" path q [].

Lemma app_routes_offers_witness :
  @app_index demo_ok_upstream demo_cfg demo_rt true 42 (demo_get "/Partner-Dashboard/OFFERS/" demo_query) =
  @offers_route demo_ok_upstream demo_cfg demo_rt true (demo_get "/Partner-Dashboard/OFFERS/" demo_query).
Proof. apply app_routes_offers; [left | right]; reflexivity. Defined.

Lemma app_health_witness :
  @app_index demo_unreachable demo_cfg demo_rt false 42 (mk_request "HEAD" "/HEALTH" [] []) =
  (Answer (mk_response 200 (health_body (rt_now demo_rt) 42)), []).
Proof. apply app_health; reflexivity. Defined.

Lemma app_not_found_witness :
  @app_index demo_unreachable demo_cfg demo_rt false 42 (mk_request "POST" "/partner-dashboard/offers" [] []) =
  (Answer (mk_response 404 (not_found_body "/partner-dashboard/offers")), []).
Proof. apply app_not_found; [reflexivity | by left]. Defined.

Lemma demo_ok_upstream_wf (t : string) (v : jv) :
  @json_parse demo_ok_upstream t = Some v -> wf v = true.
Proof. simpl. repeat case_decide; intros; simplify_eq; reflexivity. Qed.

Lemma app_answers_json_witness :
  json_object (res_body (mk_response 200 (success_body (rt_now demo_rt)
    (@enriched demo_ok_upstream demo_cfg (Some 3000%Z) "af123" [demo_offer])))) = true.
Proof.
  apply (@app_answers_json demo_ok_upstream demo_cfg demo_rt true 42
           (demo_get "/partner-dashboard/offers" demo_query)).
  - exact demo_ok_upstream_wf.
  - reflexivity.
  - vm_compute. reflexivity.
Defined.
