(* ===== verification/Variant.v ===== *)
(** * The older variant, [src/unnamed/part_000]

    The same relay with a shared-secret check and a laxer route:

    - [cors] answers every [OPTIONS] request with 204 (lines 13-19);
    - a middleware (lines 22-30) answers 403 to every request whose path
      starts, case-sensitively, with [/partner-dashboard/offers] unless its
      [x-api-key] header is non-empty and equal to [BACKEND_API_KEY];
    - the offers route (lines 32-93) rejects a missing, empty or
      brace-containing [affiliate_id] with 400, does not validate [type],
      fetches without timeouts, passes a failed list call's status through,
      reads the body with [JSON.parse(text)], enriches with the same
      callback as [index.js] and answers [{ offers }];
    - there is no 404 or error handler: Express's default handler answers
      an unmatched request with its HTML 404 page, and under Express 5 a
      failing route with its HTML 500 page ([DefaultPage]).

    The module [Part000] reuses the enrichment component of [Enrich] (with
    no detail timeout) and [offers_of] of [Handler], which is the same
    computation as lines 60-61.  The theorems show the authentication
    bypass that Express's case-insensitive routing opens, characterise the
    middleware, and relate the two variants. *)

From S2P Require Import Prelude JsValue Query Upstream Enrich Handler App.

Module Part000.

(** Line 26. *)
Definition unauthorized_body : jv := JObj [("error", JStr "Unauthorized")].

(** Line 36. *)
Definition invalid_affiliate_body : jv := JObj [("error", JStr "Valid affiliate_id is required")].

(** Line 57. *)
Definition upstream_failed_body (text : string) : jv :=
  JObj [("error", JStr "Everflow API request failed"); ("details", JStr text)].

(** Line 89. *)
Definition offers_body (offers : list jv) : jv := JObj [("offers", JArr offers)].

(** Line 91. *)
Definition internal_body : jv := JObj [("error", JStr "Internal server error")].

(** Lines 22-30: [None] lets the request through ([next()]). *)
Definition api_key_middleware (cfg : config) (req : request) : option response :=
  if starts_with "/partner-dashboard/offers" (req_path req) then
    match header_get "x-api-key" (req_headers req) with
    | Some k =>
        if negb (String.eqb k "") && bool_decide (backend_api_key cfg = Some k) then None
        else Some (mk_response 403 unauthorized_body)
    | None => Some (mk_response 403 unauthorized_body)
    end
  else None.

Section Route.
Context `{U : Upstream} (cfg : config).

(** Lines 39-53: the list request, without a timeout. *)
Definition list_request (aff : string) (type : option qv) : fetch_request :=
  mk_fetch (list_url aff type) (eflow_headers cfg) None.

(** Lines 47-89: the [try] block. *)
Definition try_block (aff : string) (type : option qv) : js_result response * list fetch_request :=
  let lreq := list_request aff type in
  match fetch lreq with
  | FReject => (Throw EFetchError, [lreq])
  | FResponse st text =>
      if resp_ok st then
        match offers_of text with
        | Throw e => (Throw e, [lreq])
        | Ok offers =>
            ((res <- enrich_all cfg None aff offers ;; Ok (mk_response 200 (offers_body res))),
             lreq :: detail_requests cfg None aff offers)
        end
      else (Ok (mk_response st (upstream_failed_body text)), [lreq])
  end.

(** Lines 90-92. *)
Definition catch_internal (r : js_result response) : response :=
  match r with
  | Ok resp => resp
  | Throw _ => mk_response 500 internal_body
  end.

(** Lines 32-93: the offers route. *)
Definition handle_offers (query : list (string * qv)) : outcome * list fetch_request :=
  let type := query_get "type" query in
  match query_get "affiliate_id" query with
  | None => (Respond (mk_response 400 invalid_affiliate_body), [])
  | Some a =>
      if negb (q_truthy a) then (Respond (mk_response 400 invalid_affiliate_body), [])
      else match q_includes a "{" with
      | Throw e => (Unhandled e, [])
      | Ok true => (Respond (mk_response 400 invalid_affiliate_body), [])
      | Ok false =>
          let '(r, trace) := try_block (q_to_string a) type in
          (Respond (catch_internal r), trace)
      end
  end.

(** The route as the application sees it: an escaping exception is
    Express 5's default 500 page or an unhandled rejection. *)
Definition offers_route (express5 : bool) (req : request) : app_outcome * list fetch_request :=
  match handle_offers (req_query req) with
  | (Respond r, tr) => (Answer r, tr)
  | (Unhandled e, tr) => (if express5 then DefaultPage 500 else Escaped e, tr)
  end.

(** Lines 12-98: the application. *)
Definition app (express5 : bool) (req : request) : app_outcome * list fetch_request :=
  if String.eqb (req_method req) "OPTIONS" then (NoContent, [])
  else match api_key_middleware cfg req with
  | Some r => (Answer r, [])
  | None =>
      if is_get req && route_matches "/partner-dashboard/offers" (req_path req)
      then offers_route express5 req
      else (DefaultPage 404, [])
  end.
End Route.

End Part000.

(** ** Lemmas *)

(** An upstream whose answers do not depend on the timeout option. *)
Definition timeout_blind `{Upstream} : Prop :=
  forall (r : fetch_request) (t : option Z), fetch (mk_fetch (f_url r) (f_headers r) t) = fetch r.

Section VariantLemmas.
Context `{U : Upstream} (cfg : config).

Lemma part000_handle_valid (q : list (string * qv)) (a : qv) :
  query_get "affiliate_id" q = Some a -> q_truthy a = true -> q_includes a "{" = Ok false ->
  Part000.handle_offers cfg q =
  (Respond (Part000.catch_internal (Part000.try_block cfg (q_to_string a) (query_get "type" q)).1),
   (Part000.try_block cfg (q_to_string a) (query_get "type" q)).2).
Proof.
  intros Ha Ht Hi. unfold Part000.handle_offers. rewrite Ha, Ht, Hi. simpl.
  by destruct (Part000.try_block cfg (q_to_string a) (query_get "type" q)).
Qed.

(** With a timeout-blind upstream the detail timeout does not matter. *)
Lemma enrich_all_timeout (t1 t2 : option Z) (aff : string) (offers : list jv) :
  timeout_blind -> enrich_all cfg t1 aff offers = enrich_all cfg t2 aff offers.
Proof.
  intros Hb. unfold enrich_all. f_equal. apply map_ext. intros o.
  unfold enrich_offer, enrich_start. destruct (get o _) as [oid|]; [|done]. simpl.
  destruct (ostring oid) as [id|]; [|done]. simpl.
  unfold detail_request. do 2 f_equal. apply (Hb (mk_fetch (detail_url id aff) (eflow_headers cfg) t2)).
Qed.

Lemma list_requests_timeout (aff : string) (type : option qv) :
  timeout_blind ->
  fetch (Handler.list_request cfg aff type) = fetch (Part000.list_request cfg aff type).
Proof. intros Hb. apply (Hb (Part000.list_request cfg aff type)). Qed.
End VariantLemmas.

(** ** Theorems *)

Section VariantTheorems.
Context `{U : Upstream} (cfg : config).

(** C25: In [part_000], a GET or HEAD whose path matches the offers
    route case-insensitively but does not start with
    [/partner-dashboard/offers] case-sensitively (for example
    [/Partner-Dashboard/Offers]) skips the API-key middleware and runs the
    offers route, whatever its headers. *)
Theorem part000_case_bypasses_api_key (express5 : bool) (req : request) :
  is_get req = true ->
  route_matches "/partner-dashboard/offers" (req_path req) = true ->
  starts_with "/partner-dashboard/offers" (req_path req) = false ->
  Part000.app cfg express5 req = Part000.offers_route cfg express5 req.
Proof.
  intros Hg Hr Hs. unfold Part000.app, Part000.api_key_middleware.
  by rewrite is_get_not_options, Hs, Hg, Hr.
Qed.

(** C26: The middleware of [part_000] lets a request through exactly
    when its path does not start with [/partner-dashboard/offers] or its
    [x-api-key] header is non-empty and equal to [BACKEND_API_KEY], and
    answers 403 [Unauthorized] otherwise; with [BACKEND_API_KEY] unset it
    rejects every request under that prefix. *)
Theorem part000_api_key_check (req : request) :
  match Part000.api_key_middleware cfg req with
  | None => starts_with "/partner-dashboard/offers" (req_path req) = false \/
            exists k, header_get "x-api-key" (req_headers req) = Some k /\ k <> "" /\
                      backend_api_key cfg = Some k
  | Some r => r = mk_response 403 Part000.unauthorized_body /\
              starts_with "/partner-dashboard/offers" (req_path req) = true /\
              forall k, header_get "x-api-key" (req_headers req) = Some k ->
                        k = "" \/ backend_api_key cfg <> Some k
  end.
Proof.
  unfold Part000.api_key_middleware.
  destruct (starts_with _ _) eqn:Hs; [|by left].
  destruct (header_get "x-api-key" (req_headers req)) as [k|] eqn:Hk; [|naive_solver].
  destruct (String.eqb_spec k "") as [->|Hne]; simpl.
  - split; [done|]. split; [done|]. intros k' [= <-]. by left.
  - case_bool_decide as Hb; [right; by exists k|].
    split; [done|]. split; [done|]. intros k' [= <-]. by right.
Qed.

(** C27: With an upstream that ignores the timeout option, a valid
    request gets a 200 with offers [res] from [index.js] exactly when it
    gets a 200 with offers [res] from [part_000]: the two variants enrich
    identically and differ only in the envelope. *)
Theorem variants_agree_on_offers (rt : runtime) (q : list (string * qv)) (a : qv) (res : list jv) :
  timeout_blind ->
  query_get "affiliate_id" q = Some a -> q_truthy a = true -> q_includes a "{" = Ok false ->
  type_ok (query_get "type" q) = true ->
  (handle_offers cfg rt q).1 = Respond (mk_response 200 (success_body (rt_now rt) res)) <->
  (Part000.handle_offers cfg q).1 = Respond (mk_response 200 (Part000.offers_body res)).
Proof.
  intros Hb Ha Hat Hai Hty.
  rewrite (handle_offers_valid cfg rt q a), (part000_handle_valid cfg q a) by done. simpl.
  unfold try_block, Part000.try_block. rewrite list_requests_timeout by done.
  destruct (fetch (Part000.list_request cfg _ _)) as [|st text]; simpl; [split; by intros [=]|].
  destruct (resp_ok st) eqn:Hst; simpl.
  - destruct (offers_of text) as [offers|e]; simpl; [|split; by intros [=]].
    rewrite (enrich_all_timeout cfg (Some 3000%Z) None) by done.
    destruct (enrich_all cfg None _ offers) as [res'|e]; simpl; [|split; by intros [=]].
    split; by intros [= ->].
  - split; [by intros [=] | intros [= ->]; by vm_compute in Hst].
Qed.

(** C30: In [part_000], a list call answered outside 200-299
    is answered with the upstream's own status (not 502) and its raw body
    in [details]. *)
Theorem part000_status_passthrough (q : list (string * qv)) (a : qv) (st : Z) (text : string) :
  query_get "affiliate_id" q = Some a -> q_truthy a = true -> q_includes a "{" = Ok false ->
  fetch (Part000.list_request cfg (q_to_string a) (query_get "type" q)) = FResponse st text ->
  resp_ok st = false ->
  Part000.handle_offers cfg q =
  (Respond (mk_response st (Part000.upstream_failed_body text)),
   [Part000.list_request cfg (q_to_string a) (query_get "type" q)]).
Proof.
  intros Ha Hat Hai Hf Hst. rewrite (part000_handle_valid cfg q a) by done.
  unfold Part000.try_block. by rewrite Hf, Hst.
Qed.

(** C28: [part_000] does not check [type]: a valid request whose
    [type] is truthy and not exactly [top] or [latest], which [index.js]
    answers with 400 before any upstream call, goes upstream in
    [part_000] with the list URL of a request without [type] (no sort
    clause). *)
Theorem part000_type_unchecked (rt : runtime) (q : list (string * qv)) (a t : qv) :
  query_get "affiliate_id" q = Some a -> q_truthy a = true -> q_includes a "{" = Ok false ->
  query_get "type" q = Some t -> q_truthy t = true -> t <> QStr "top" -> t <> QStr "latest" ->
  handle_offers cfg rt q = (Respond (mk_response 400 bad_type_body), []) /\
  exists rest, (Part000.handle_offers cfg q).2 =
    mk_fetch (list_url (q_to_string a) None) (eflow_headers cfg) None :: rest.
Proof.
  intros Ha Hat Hai Ht Htt Htop Hlat. split; [by apply (handle_offers_bad_type cfg rt q a t)|].
  rewrite (part000_handle_valid cfg q a) by done. unfold Part000.try_block, Part000.list_request.
  replace (list_url (q_to_string a) (query_get "type" q)) with (list_url (q_to_string a) None)
    by (rewrite Ht; unfold list_url; simpl; by rewrite !q_is_other).
  destruct (fetch _) as [|st text]; [by eexists|].
  destruct (resp_ok st); [destruct (offers_of text)|]; by eexists.
Qed.

(** C29: In [part_000], a missing or empty [affiliate_id] is
    rejected with 400 (where [index.js] answers the status probe), and
    nothing is sent upstream. *)
Theorem part000_missing_affiliate (q : list (string * qv)) :
  query_get "affiliate_id" q = None \/ query_get "affiliate_id" q = Some (QStr "") ->
  Part000.handle_offers cfg q = (Respond (mk_response 400 Part000.invalid_affiliate_body), []).
Proof. unfold Part000.handle_offers. by intros [-> | ->]. Qed.
End VariantTheorems.

(** ** Witnesses *)

Definition demo_secret_cfg : config := mk_config (Some "key") (Some "s3cret") None.

Lemma part000_case_bypasses_api_key_witness :
  @Part000.app demo_ok_upstream demo_secret_cfg false (mk_request "GET" "/Partner-Dashboard/Offers" demo_query []) =
  @Part000.offers_route demo_ok_upstream demo_secret_cfg false (mk_request "GET" "/Partner-Dashboard/Offers" demo_query []).
Proof. apply part000_case_bypasses_api_key; reflexivity. Defined.

Lemma variants_agree_on_offers_witness :
  (@handle_offers demo_ok_upstream demo_cfg demo_rt demo_query).1 =
    Respond (mk_response 200 (success_body (rt_now demo_rt)
      (@enriched demo_ok_upstream demo_cfg (Some 3000%Z) "af123" [demo_offer]))) <->
  (@Part000.handle_offers demo_ok_upstream demo_cfg demo_query).1 =
    Respond (mk_response 200 (Part000.offers_body
      (@enriched demo_ok_upstream demo_cfg (Some 3000%Z) "af123" [demo_offer]))).
Proof.
  apply (variants_agree_on_offers demo_cfg demo_rt demo_query (QStr "af123")); try reflexivity.
  intros r t. reflexivity.
Defined.

Lemma part000_status_passthrough_witness :
  @Part000.handle_offers demo_down_upstream demo_cfg demo_query =
  (Respond (mk_response 500 (Part000.upstream_failed_body "upstream down")),
   [Part000.list_request demo_cfg "af123" None]).
Proof. apply (part000_status_passthrough demo_cfg demo_query (QStr "af123")); reflexivity. Defined.

Lemma part000_type_unchecked_witness :
  @handle_offers demo_unreachable demo_cfg demo_rt [("affiliate_id", QStr "af123"); ("type", QStr "oldest")] =
    (Respond (mk_response 400 bad_type_body), []) /\
  exists rest, (@Part000.handle_offers demo_unreachable demo_cfg
                  [("affiliate_id", QStr "af123"); ("type", QStr "oldest")]).2 =
    mk_fetch (list_url "af123" None) (eflow_headers demo_cfg) None :: rest.
Proof.
  apply (@part000_type_unchecked demo_unreachable demo_cfg demo_rt _ (QStr "af123") (QStr "oldest"));
    done.
Defined.

Lemma part000_missing_affiliate_witness :
  @Part000.handle_offers demo_unreachable demo_cfg [("affiliate_id", QStr "")] =
  (Respond (mk_response 400 Part000.invalid_affiliate_body), []).
Proof. apply part000_missing_affiliate. by right. Defined.
