(* ===== verification/Cors.v ===== *)
(** * The CORS middleware of both variants

    Both variants install the [cors] package before any route:
    [app.use(cors(corsOptions))] ([src/index.js] lines 13-24,
    [src/unnamed/part_000] lines 13-19).  The package merges the options
    with its defaults ([preflightContinue: false], [optionsSuccessStatus:
    204], no credentials, max-age or exposed headers) and then

    - on an [OPTIONS] request (a preflight) sets the origin headers, the
      allowed methods and the allowed request headers, answers 204 with
      [Content-Length: 0] and ends the request;
    - on any other request sets the origin headers and passes the request
      on ([next()]).

    The origin headers depend on the [origin] option: ['*'] gives
    [Access-Control-Allow-Origin: *]; a list reflects the request's
    [Origin] header when it is one of the list, sets nothing otherwise,
    and adds [Origin] to [Vary] in both cases.  A header whose value is
    empty or absent is not set; [Vary] goes through the [vary] package,
    which appends a field unless it is already listed.

    The section [Serve] composes the middleware with the applications of
    [App] and [Variant]: the headers a response carries, and what the
    application does with the request.  Request methods are upper case, as
    Node's HTTP parser only accepts them so, which makes the package's
    [toUpperCase] the identity.  [res.setHeader] is [define] of [JsValue]:
    a header already set keeps its place and takes the new value. *)

From S2P Require Import Prelude JsValue Query Upstream Enrich Handler App Variant.

(** Response headers, in the order they were first set. *)
Definition headers := list (string * string).

(** The [origin] option: ['*'] (or a falsy value), one origin, or a
    list of origins compared by [===]. *)
Inductive origin_opt :=
  | OriginAny
  | OriginFixed (o : string)
  | OriginList (l : list string).

(** The options the sources pass; [allowed_headers = None] is an absent
    [allowedHeaders], for which the package reflects the request's. *)
Record cors_options := mk_cors_options {
  co_origin : origin_opt;
  co_methods : list string;
  co_allowed_headers : option (list string)
}.

(** [src/index.js] lines 13-20. *)
Definition index_cors_options : cors_options :=
  mk_cors_options (OriginList ["https://members.afrofiliate.com"; "http://localhost:3000"])
    ["GET"] (Some ["Content-Type"]).

(** [src/unnamed/part_000] lines 13-17. *)
Definition part000_cors_options : cors_options :=
  mk_cors_options OriginAny ["GET"; "POST"] (Some ["Content-Type"; "x-api-key"]).

(** The [vary] package's parser: the comma-separated fields of a value,
    with the spaces around them removed. *)
Fixpoint drop_spaces (l : list ascii) : list ascii :=
  match l with
  | " "%char :: l' => drop_spaces l'
  | _ => l
  end.

Definition strip_spaces (s : string) : string :=
  string_of_list_ascii (rev (drop_spaces (rev (drop_spaces (list_ascii_of_string s))))).

Definition vary_fields (v : string) : list string :=
  map strip_spaces (split_on "," v).

(** [vary(res, field)] for a single field that is not ['*']. *)
Definition vary (f : string) (h : headers) : headers :=
  let cur := default "" (str_assoc "Vary" h) in
  if String.eqb cur "*" then h
  else if existsb (String.eqb (str_lower f)) (vary_fields (str_lower cur)) then h
  else define "Vary" (if String.eqb cur "" then f else cur +:+ ", " +:+ f) h.

(** [applyHeaders]: a header with an empty or absent value is skipped. *)
Fixpoint apply_headers (hs : list (string * option string)) (h : headers) : headers :=
  match hs with
  | [] => h
  | (k, v) :: hs' =>
      apply_headers hs'
        (match v with
         | Some s =>
             if String.eqb s "" then h
             else if String.eqb k "Vary" then vary s h else define k s h
         | None => h
         end)
  end.

(** [isOriginAllowed] against a list: [undefined] matches no entry. *)
Definition is_origin_allowed (origin : option string) (allowed : list string) : bool :=
  match origin with
  | Some o => existsb (String.eqb o) allowed
  | None => false
  end.

(** [configureOrigin]. *)
Definition configure_origin (o : origin_opt) (req : request) : list (string * option string) :=
  match o with
  | OriginAny => [("Access-Control-Allow-Origin", Some "*")]
  | OriginFixed s => [("Access-Control-Allow-Origin", Some s); ("Vary", Some "Origin")]
  | OriginList l =>
      let ro := header_get "origin" (req_headers req) in
      [("Access-Control-Allow-Origin", if is_origin_allowed ro l then ro else None);
       ("Vary", Some "Origin")]
  end.

(** [configureMethods]: the methods joined by commas. *)
Definition configure_methods (o : cors_options) : list (string * option string) :=
  [("Access-Control-Allow-Methods", Some (join "," (co_methods o)))].

(** [configureAllowedHeaders]. *)
Definition configure_allowed_headers (o : cors_options) (req : request)
    : list (string * option string) :=
  match co_allowed_headers o with
  | Some l => [("Access-Control-Allow-Headers", Some (join "," l))]
  | None =>
      [("Vary", Some "Access-Control-Request-Headers");
       ("Access-Control-Allow-Headers",
        header_get "access-control-request-headers" (req_headers req))]
  end.

(** What the middleware does: end the request with a status, or pass it
    on; with the headers set on the response either way. *)
Inductive cors_result :=
  | CorsEnd (h : headers) (status : Z)
  | CorsNext (h : headers).

(** [cors(options)(req, res, next)] on a response with no headers yet. *)
Definition cors (o : cors_options) (req : request) : cors_result :=
  if String.eqb (req_method req) "OPTIONS" then
    let h := apply_headers (configure_origin (co_origin o) req ++ configure_methods o ++
                            configure_allowed_headers o req) [] in
    CorsEnd (define "Content-Length" "0" h) 204
  else CorsNext (apply_headers (configure_origin (co_origin o) req) []).

Section Serve.
Context `{U : Upstream} (cfg : config) (rt : runtime) (express5 : bool) (uptime : Z).

(** [src/index.js]: the middleware, then the application of [App]. *)
Definition serve_index (req : request) : headers * app_outcome * list fetch_request :=
  match cors index_cors_options req with
  | CorsEnd h _ => (h, NoContent, [])
  | CorsNext h => let '(o, tr) := app_index cfg rt express5 uptime req in (h, o, tr)
  end.

(** [src/unnamed/part_000]: the middleware ends every preflight, so the
    [app.options('*', ...)] of line 19 is never reached. *)
Definition serve_part000 (req : request) : headers * app_outcome * list fetch_request :=
  match cors part000_cors_options req with
  | CorsEnd h _ => (h, NoContent, [])
  | CorsNext h => let '(o, tr) := Part000.app cfg express5 req in (h, o, tr)
  end.
End Serve.

(** ** Lemmas *)

(** The [Access-Control-Allow-Origin] header a list of origins gives. *)
Definition allow_origin (l : list string) (origin : option string) : headers :=
  match origin with
  | Some s => if decide (s ∈ l) then [("Access-Control-Allow-Origin", s)] else []
  | None => []
  end.

Lemma apply_headers_app (a b : list (string * option string)) (h : headers) :
  apply_headers (a ++ b) h = apply_headers b (apply_headers a h).
Proof. revert h. induction a as [|[k v] a IH]; intros h; [done|]. apply IH. Qed.

Lemma is_origin_allowed_true (s : string) (l : list string) :
  is_origin_allowed (Some s) l = true <-> s ∈ l.
Proof.
  unfold is_origin_allowed. rewrite existsb_exists, list_elem_of_In.
  split; [intros (x & Hx & ->%String.eqb_eq) | intros Hx; exists s]; auto using String.eqb_refl.
Qed.

(** With a list of non-empty origins the middleware sets the reflected
    origin, if allowed, and then [Vary: Origin]. *)
Lemma apply_origin_list (l : list string) (req : request) :
  Forall (fun s => s <> "") l ->
  apply_headers (configure_origin (OriginList l) req) [] =
  allow_origin l (header_get "origin" (req_headers req)) ++ [("Vary", "Origin")].
Proof.
  intros Hl. unfold configure_origin, allow_origin.
  destruct (header_get "origin" (req_headers req)) as [s|]; [|done].
  destruct (is_origin_allowed (Some s) l) eqn:Ha.
  - apply is_origin_allowed_true in Ha as Hin. rewrite decide_True by done.
    rewrite Forall_forall in Hl. specialize (Hl s Hin).
    simpl. by rewrite (proj2 (String.eqb_neq s "") Hl).
  - rewrite decide_False; [done|]. by rewrite <- is_origin_allowed_true, Ha.
Qed.

Lemma index_origins_nonempty :
  Forall (fun s => s <> "") ["https://members.afrofiliate.com"; "http://localhost:3000"].
Proof. repeat constructor; discriminate. Qed.

Lemma vary_NoDup (f : string) (h : headers) : NoDup h.*1 -> NoDup (vary f h).*1.
Proof. intros Hh. unfold vary. repeat case_match; auto using define_NoDup. Qed.

Lemma apply_headers_NoDup (hs : list (string * option string)) (h : headers) :
  NoDup h.*1 -> NoDup (apply_headers hs h).*1.
Proof.
  revert h. induction hs as [|[k [v|]] hs IH]; intros h Hh; simpl; [done| |auto].
  apply IH. repeat case_match; auto using vary_NoDup, define_NoDup.
Qed.

(** The middleware of [src/index.js] on any request. *)
Lemma index_cors (req : request) :
  cors index_cors_options req =
  let a := allow_origin ["https://members.afrofiliate.com"; "http://localhost:3000"]
             (header_get "origin" (req_headers req)) in
  if String.eqb (req_method req) "OPTIONS" then
    CorsEnd (a ++ [("Vary", "Origin"); ("Access-Control-Allow-Methods", "GET");
                   ("Access-Control-Allow-Headers", "Content-Type"); ("Content-Length", "0")]) 204
  else CorsNext (a ++ [("Vary", "Origin")]).
Proof.
  unfold cors. rewrite apply_headers_app. cbn [co_origin index_cors_options].
  rewrite apply_origin_list by apply index_origins_nonempty.
  unfold allow_origin. destruct (header_get "origin" (req_headers req)) as [s|];
    [case_decide|]; by destruct (String.eqb (req_method req) "OPTIONS").
Qed.

(** The middleware of [src/unnamed/part_000] on any request. *)
Lemma part000_cors (req : request) :
  cors part000_cors_options req =
  if String.eqb (req_method req) "OPTIONS" then
    CorsEnd [("Access-Control-Allow-Origin", "*"); ("Access-Control-Allow-Methods", "GET,POST");
             ("Access-Control-Allow-Headers", "Content-Type,x-api-key"); ("Content-Length", "0")] 204
  else CorsNext [("Access-Control-Allow-Origin", "*")].
Proof. unfold cors. by destruct (String.eqb (req_method req) "OPTIONS"). Qed.

Section CorsTheorems.
Context `{U : Upstream} (cfg : config) (rt : runtime) (express5 : bool) (uptime : Z).

(** What [serve_index] does besides the headers is what [app_index]
    does: [App] models the preflight answer of the middleware. *)
Lemma serve_index_app (req : request) :
  (snd (fst (serve_index cfg rt express5 uptime req)), snd (serve_index cfg rt express5 uptime req)) =
  app_index cfg rt express5 uptime req.
Proof.
  unfold serve_index. rewrite index_cors.
  destruct (String.eqb (req_method req) "OPTIONS") eqn:Ho; [by unfold app_index; rewrite Ho|].
  by destruct (app_index cfg rt express5 uptime req).
Qed.

(** C31: [src/index.js] answers a preflight itself with 204, allowing
    the method GET and the request header [Content-Type], reflecting the
    request's [Origin] only when it is one of the two allowed origins, and
    without running any route or calling the upstream. *)
Theorem index_cors_preflight (req : request) :
  req_method req = "OPTIONS" ->
  cors index_cors_options req =
    CorsEnd (fst (fst (serve_index cfg rt express5 uptime req))) 204 /\
  serve_index cfg rt express5 uptime req =
  (allow_origin ["https://members.afrofiliate.com"; "http://localhost:3000"]
     (header_get "origin" (req_headers req)) ++
   [("Vary", "Origin"); ("Access-Control-Allow-Methods", "GET");
    ("Access-Control-Allow-Headers", "Content-Type"); ("Content-Length", "0")], NoContent, []).
Proof. intros Hm. unfold serve_index. by rewrite index_cors, Hm. Qed.

(** C32: On every other request of [src/index.js] the route runs
    whatever the [Origin]: the upstream is called and the answer computed
    as for a request without one; the policy only decides whether the
    answer carries [Access-Control-Allow-Origin], which it does exactly for
    the two allowed origins, and always adds [Vary: Origin]. *)
Theorem index_cors_actual (req : request) :
  req_method req <> "OPTIONS" ->
  serve_index cfg rt express5 uptime req =
  (allow_origin ["https://members.afrofiliate.com"; "http://localhost:3000"]
     (header_get "origin" (req_headers req)) ++ [("Vary", "Origin")],
   fst (app_index cfg rt express5 uptime req), snd (app_index cfg rt express5 uptime req)).
Proof.
  intros Hm. unfold serve_index. rewrite index_cors, (proj2 (String.eqb_neq _ _) Hm).
  by destruct (app_index cfg rt express5 uptime req).
Qed.

(** C33: [src/unnamed/part_000] allows every origin: each answer, the
    403 of its API-key check included, carries
    [Access-Control-Allow-Origin: *], and a preflight is answered with 204
    allowing GET and POST and the headers [Content-Type] and [x-api-key],
    before the API-key check runs. *)
Theorem part000_cors_wildcard (req : request) :
  serve_part000 cfg express5 req =
  if String.eqb (req_method req) "OPTIONS" then
    ([("Access-Control-Allow-Origin", "*"); ("Access-Control-Allow-Methods", "GET,POST");
      ("Access-Control-Allow-Headers", "Content-Type,x-api-key"); ("Content-Length", "0")],
     NoContent, [])
  else ([("Access-Control-Allow-Origin", "*")],
        fst (Part000.app cfg express5 req), snd (Part000.app cfg express5 req)).
Proof.
  unfold serve_part000. rewrite part000_cors.
  destruct (String.eqb _ _); [done|]. by destruct (Part000.app cfg express5 req).
Qed.

(** Whatever the options and the request, the middleware never
    sets a header twice: the names of the headers it leaves on the
    response are distinct. *)
Theorem cors_headers_unique (o : cors_options) (req : request) :
  match cors o req with
  | CorsEnd h _ | CorsNext h => NoDup h.*1
  end.
Proof.
  unfold cors. destruct (String.eqb _ _);
    [apply define_NoDup|]; apply apply_headers_NoDup, NoDup_nil_2.
Qed.
End CorsTheorems.

(** ** Witnesses *)

Definition demo_origin_request (m o : string) : request :=
  mk_request m "/partner-dashboard/offers" demo_query [("origin", o)].

Lemma index_cors_preflight_witness :
  req_method (demo_origin_request "OPTIONS" "http://localhost:3000") = "OPTIONS" /\
  @serve_index demo_unreachable demo_cfg demo_rt false 42 (demo_origin_request "OPTIONS" "http://localhost:3000") =
  ([("Access-Control-Allow-Origin", "http://localhost:3000"); ("Vary", "Origin");
    ("Access-Control-Allow-Methods", "GET"); ("Access-Control-Allow-Headers", "Content-Type");
    ("Content-Length", "0")], NoContent, []).
Proof.
  split; [reflexivity|].
  destruct (@index_cors_preflight demo_unreachable demo_cfg demo_rt false 42
              (demo_origin_request "OPTIONS" "http://localhost:3000") eq_refl) as [_ ->].
  reflexivity.
Defined.

Lemma index_cors_actual_witness :
  @serve_index demo_ok_upstream demo_cfg demo_rt true 42 (demo_origin_request "GET" "https://elsewhere.example") =
  ([("Vary", "Origin")],
   fst (@app_index demo_ok_upstream demo_cfg demo_rt true 42 (demo_origin_request "GET" "https://elsewhere.example")),
   snd (@app_index demo_ok_upstream demo_cfg demo_rt true 42 (demo_origin_request "GET" "https://elsewhere.example"))).
Proof. rewrite (@index_cors_actual demo_ok_upstream demo_cfg demo_rt true 42); [reflexivity | discriminate]. Defined.
