(* ===== verification/Json.v ===== *)
(** * JSON text: [res.json] and [JSON.parse]

    Every answer of both variants is written by [res.json(body)]
    ([src/index.js] lines 33, 51, 59, 70, 96, 135, 150, 164, 173), which
    sends [JSON.stringify(body)]; the upstream's bodies are read by
    [response.json()] ([src/index.js] lines 103, 121) or [JSON.parse(text)]
    ([src/unnamed/part_000] line 60).  This file gives both directions on
    the values of [JsValue]:

    - [print] is [JSON.stringify] without replacer or indentation: [null],
      [true], [false], numbers by [String(n)], strings quoted with the
      escapes of [QuoteJSONString] (the two-character escapes for
      backspace, tab, line feed, form feed, carriage return, quote and
      backslash, [\u00xx] in lower-case hexadecimal for the other control
      characters, every other code unit as is), arrays and objects with
      commas and no spaces.  An object's properties come in JavaScript's
      enumeration order ([OrdinaryOwnPropertyKeys]): the array-index keys
      in increasing numeric order, then the other keys in insertion order,
      which is the order of the association list;
    - [parse_value] is [JSON.parse]'s grammar (ECMA-404) on the same
      values: whitespace, the three literals, strings with all escapes
      ([\/] and [\uXXXX] included), integers, arrays, and objects, in
      which a repeated key keeps its first place and takes its last value
      ([CreateDataProperty], which is [define]).

    The values of the model have integer numbers and strings of code units
    below 256.  A text outside that domain (a number with a fraction or an
    exponent, a [\u] escape above [\u00ff]) gets no value ([None]), as a
    syntax error does; a text of the domain is parsed as [JSON.parse]
    parses it, ["-0"] giving [0].  The recursion of the parser is bounded
    by fuel; [json_parse_text] gives it one unit per character plus one,
    which the round-trip theorem shows is enough. *)

From S2P Require Import Prelude JsValue Upstream.

(** The two characters the literals of the file cannot write. *)
Definition quote : ascii := "034".
Definition backslash : ascii := "092".

(** ** Property order *)

(** An array index: the canonical decimal form of an integer in
    [0, 2^32 - 2]. *)
Definition array_index (k : string) : option Z :=
  match z_of_string k with
  | Some n =>
      if String.eqb (z_to_string n) k && (0 <=? n)%Z && (n <? 4294967295)%Z then Some n else None
  | None => None
  end.

(** Insertion of an index entry by its numeric value. *)
Fixpoint index_insert {A} (n : Z) (kv : string * A) (l : list (Z * (string * A)))
    : list (Z * (string * A)) :=
  match l with
  | [] => [(n, kv)]
  | (m, kv') :: l' => if (n <=? m)%Z then (n, kv) :: l else (m, kv') :: index_insert n kv l'
  end.

(** The index entries of an object, by increasing index. *)
Fixpoint index_sort {A} (l : list (string * A)) : list (Z * (string * A)) :=
  match l with
  | [] => []
  | kv :: l' =>
      match array_index kv.1 with
      | Some n => index_insert n kv (index_sort l')
      | None => index_sort l'
      end
  end.

(** [OrdinaryOwnPropertyKeys]: array indices ascending, then the other
    keys in insertion order. *)
Definition enum_order {A} (l : list (string * A)) : list (string * A) :=
  (index_sort l).*2 ++ filter (fun kv => array_index kv.1 = None) l.

(** ** [JSON.stringify] *)

(** A hexadecimal digit, in lower case. *)
Definition hex_digit (n : nat) : ascii :=
  ascii_of_nat (if (n <? 10)%nat then 48 + n else 87 + n).

(** [QuoteJSONString] on one code unit. *)
Definition escape_char (c : ascii) : list ascii :=
  let n := nat_of_ascii c in
  if (n =? 8)%nat then [backslash; "b"%char]
  else if (n =? 9)%nat then [backslash; "t"%char]
  else if (n =? 10)%nat then [backslash; "n"%char]
  else if (n =? 12)%nat then [backslash; "f"%char]
  else if (n =? 13)%nat then [backslash; "r"%char]
  else if (n =? 34)%nat then [backslash; quote]
  else if (n =? 92)%nat then [backslash; backslash]
  else if (n <? 32)%nat then [backslash; "u"%char; "0"%char; "0"%char; hex_digit (n / 16); hex_digit (n mod 16)]
  else [c].

Definition print_string (s : list ascii) : list ascii :=
  quote :: flat_map escape_char s ++ [quote].

(** The texts of a list joined by commas. *)
Fixpoint commas (l : list (list ascii)) : list ascii :=
  match l with
  | [] => []
  | [x] => x
  | x :: r => x ++ ","%char :: commas r
  end.

(** [JSON.stringify] on a value; the members of an object are printed
    before they are put in enumeration order, which only reads keys. *)
Fixpoint print (v : jv) : list ascii :=
  match v with
  | JNull => list_ascii_of_string "null"
  | JBool true => list_ascii_of_string "true"
  | JBool false => list_ascii_of_string "false"
  | JNum n => list_ascii_of_string (z_to_string n)
  | JStr s => print_string (list_ascii_of_string s)
  | JArr l => "["%char :: commas (map print l) ++ ["]"%char]
  | JObj l =>
      "{"%char :: commas (map (fun kv => print_string (list_ascii_of_string kv.1) ++ ":"%char :: kv.2)
                              (enum_order (map (fun kv => (kv.1, print kv.2)) l))) ++ ["}"%char]
  end.

Definition json_stringify (v : jv) : string := string_of_list_ascii (print v).

(** ** [JSON.parse] *)

Definition is_ws (c : ascii) : bool :=
  Ascii.eqb c " " || Ascii.eqb c "009" || Ascii.eqb c "010" || Ascii.eqb c "013".

Fixpoint skip_ws (s : list ascii) : list ascii :=
  match s with
  | c :: r => if is_ws c then skip_ws r else s
  | [] => []
  end.

(** The rest of [s] after the literal [p]. *)
Fixpoint strip_prefix (p s : list ascii) : option (list ascii) :=
  match p with
  | [] => Some s
  | c :: p' =>
      match s with
      | d :: s' => if Ascii.eqb c d then strip_prefix p' s' else None
      | [] => None
      end
  end.

Definition hex_val (c : ascii) : option nat :=
  let n := nat_of_ascii c in
  if (48 <=? n)%nat && (n <=? 57)%nat then Some (n - 48)
  else if (97 <=? n)%nat && (n <=? 102)%nat then Some (n - 87)
  else if (65 <=? n)%nat && (n <=? 70)%nat then Some (n - 55)
  else None.

Definition hex4 (a b c d : ascii) : option nat :=
  match hex_val a, hex_val b, hex_val c, hex_val d with
  | Some x, Some y, Some z, Some w => Some (((x * 16 + y) * 16 + z) * 16 + w)
  | _, _, _, _ => None
  end.

(** The single-character escapes: a backslash followed by a quote, a
    backslash, a slash, [b], [f], [n], [r] or [t]. *)
Definition simple_escape (e : ascii) : option ascii :=
  if Ascii.eqb e quote then Some quote
  else if Ascii.eqb e backslash then Some backslash
  else if Ascii.eqb e "/" then Some "/"%char
  else if Ascii.eqb e "b" then Some "008"%char
  else if Ascii.eqb e "f" then Some "012"%char
  else if Ascii.eqb e "n" then Some "010"%char
  else if Ascii.eqb e "r" then Some "013"%char
  else if Ascii.eqb e "t" then Some "009"%char
  else None.

Definition cons_char (c : ascii) (o : option (list ascii * list ascii))
    : option (list ascii * list ascii) :=
  match o with
  | Some (cs, r) => Some (c :: cs, r)
  | None => None
  end.

(** The characters of a string literal after its opening quote, and the
    text after its closing quote; a raw control character is an error. *)
Fixpoint parse_chars (s : list ascii) : option (list ascii * list ascii) :=
  match s with
  | [] => None
  | c :: r =>
      if Ascii.eqb c quote then Some ([], r)
      else if Ascii.eqb c backslash then
        match r with
        | e :: r' =>
            match simple_escape e with
            | Some c' => cons_char c' (parse_chars r')
            | None =>
                if Ascii.eqb e "u" then
                  match r' with
                  | h1 :: h2 :: h3 :: h4 :: r'' =>
                      match hex4 h1 h2 h3 h4 with
                      | Some n => if (n <? 256)%nat then cons_char (ascii_of_nat n) (parse_chars r'')
                                  else None
                      | None => None
                      end
                  | _ => None
                  end
                else None
            end
        | [] => None
        end
      else if (nat_of_ascii c <? 32)%nat then None
      else cons_char c (parse_chars r)
  end.

Definition num_char (c : ascii) : bool :=
  Ascii.eqb c "-" || (48 <=? nat_of_ascii c)%nat && (nat_of_ascii c <=? 57)%nat.

Fixpoint span_num (s : list ascii) : list ascii * list ascii :=
  match s with
  | c :: r => if num_char c then let '(a, b) := span_num r in (c :: a, b) else ([], s)
  | [] => ([], [])
  end.

(** An integer: an optional minus sign, then [0] or a non-zero digit
    followed by digits.  These are the texts [z_to_string] prints, and
    ["-0"]. *)
Definition parse_number (s : list ascii) : option (jv * list ascii) :=
  let '(lit, rest) := span_num s in
  let t := string_of_list_ascii lit in
  if String.eqb t "-0" then Some (JNum 0, rest)
  else match z_of_string t with
       | Some n => if String.eqb (z_to_string n) t then Some (JNum n, rest) else None
       | None => None
       end.

Definition first_is (c : ascii) (s : list ascii) : option (list ascii) :=
  match s with
  | d :: r => if Ascii.eqb c d then Some r else None
  | [] => None
  end.

Fixpoint parse_value (fuel : nat) (s : list ascii) : option (jv * list ascii) :=
  match fuel with
  | O => None
  | S f =>
      let s := skip_ws s in
      match strip_prefix (list_ascii_of_string "null") s with
      | Some r => Some (JNull, r)
      | None =>
      match strip_prefix (list_ascii_of_string "true") s with
      | Some r => Some (JBool true, r)
      | None =>
      match strip_prefix (list_ascii_of_string "false") s with
      | Some r => Some (JBool false, r)
      | None =>
      match first_is "[" s with
      | Some r =>
          match first_is "]" (skip_ws r) with
          | Some r' => Some (JArr [], r')
          | None => parse_elements f r []
          end
      | None =>
      match first_is "{" s with
      | Some r =>
          match first_is "}" (skip_ws r) with
          | Some r' => Some (JObj [], r')
          | None => parse_members f r []
          end
      | None =>
      match first_is quote s with
      | Some r =>
          match parse_chars r with
          | Some (cs, r') => Some (JStr (string_of_list_ascii cs), r')
          | None => None
          end
      | None => parse_number s
      end end end end end end
  end
with parse_elements (fuel : nat) (s : list ascii) (acc : list jv) : option (jv * list ascii) :=
  match fuel with
  | O => None
  | S f =>
      match parse_value f s with
      | Some (v, r) =>
          match first_is "," (skip_ws r) with
          | Some r' => parse_elements f r' (acc ++ [v])
          | None =>
              match first_is "]" (skip_ws r) with
              | Some r' => Some (JArr (acc ++ [v]), r')
              | None => None
              end
          end
      | None => None
      end
  end
with parse_members (fuel : nat) (s : list ascii) (acc : list (string * jv))
    : option (jv * list ascii) :=
  match fuel with
  | O => None
  | S f =>
      match first_is quote (skip_ws s) with
      | Some r =>
          match parse_chars r with
          | Some (k, r1) =>
              match first_is ":" (skip_ws r1) with
              | Some r2 =>
                  match parse_value f r2 with
                  | Some (v, r3) =>
                      let acc' := define (string_of_list_ascii k) v acc in
                      match first_is "," (skip_ws r3) with
                      | Some r4 => parse_members f r4 acc'
                      | None =>
                          match first_is "}" (skip_ws r3) with
                          | Some r4 => Some (JObj acc', r4)
                          | None => None
                          end
                      end
                  | None => None
                  end
              | None => None
              end
          | None => None
          end
      | None => None
      end
  end.

(** [JSON.parse(text)]: one value, then only whitespace. *)
Definition json_parse_text (t : string) : option jv :=
  let s := list_ascii_of_string t in
  match parse_value (S (length s)) s with
  | Some (v, r) => if decide (skip_ws r = []) then Some v else None
  | None => None
  end.

(** What a parse gives back: objects in enumeration order. *)
Fixpoint normalize (v : jv) : jv :=
  match v with
  | JArr l => JArr (map normalize l)
  | JObj l => JObj (enum_order (map (fun kv => (kv.1, normalize kv.2)) l))
  | _ => v
  end.

(** An upstream that answers from a table of URLs and reads bodies with
    [JSON.parse]: the [json_parse] of [Upstream] made concrete. *)
Definition json_upstream (routes : list (string * fetch_outcome)) : Upstream := {|
  fetch r := default FReject (str_assoc (f_url r) routes);
  json_parse := json_parse_text
|}.

(** The fuel a value needs: one unit per node and per entry. *)
Fixpoint jsize (v : jv) : nat :=
  match v with
  | JArr l => S (sum_list_with (fun x => S (jsize x)) l)
  | JObj l => S (sum_list_with (fun kv => S (jsize kv.2)) l)
  | _ => 1
  end.

(** A text that can follow a number without extending it. *)
Definition delim_ok (r : list ascii) : bool :=
  match r with
  | c :: _ => negb (num_char c)
  | [] => true
  end.

(** The text of one member of an object. *)
Definition member_text (kv : string * list ascii) : list ascii :=
  print_string (list_ascii_of_string kv.1) ++ ":"%char :: kv.2.

(** A value whose text the parser reads back, given enough fuel and a
    text after it that cannot extend a number. *)
Definition reads_back (v : jv) : Prop :=
  wf v = true -> forall f r, jsize v <= f -> delim_ok r = true ->
  parse_value f (print v ++ r) = Some (normalize v, r).

(** ** Lemmas on the enumeration order *)

Section EnumOrder.
Context {A B : Type} (g : A -> B).

Lemma index_insert_perm (n : Z) (kv : string * A) (l : list (Z * (string * A))) :
  (index_insert n kv l).*2 ≡ₚ kv :: l.*2.
Proof.
  induction l as [|[m kv'] l IH]; simpl; [done|].
  destruct (n <=? m)%Z; simpl; [done|]. rewrite IH. apply perm_swap.
Qed.

Lemma index_sort_perm (l : list (string * A)) :
  (index_sort l).*2 ≡ₚ filter (fun kv => array_index kv.1 <> None) l.
Proof.
  induction l as [|kv l IH]; [done|]. simpl. rewrite filter_cons.
  destruct (array_index kv.1) as [n|]; simpl.
  - by rewrite index_insert_perm, IH.
  - done.
Qed.

(** The enumeration order is a permutation of the properties. *)
Lemma enum_order_perm (l : list (string * A)) : enum_order l ≡ₚ l.
Proof.
  unfold enum_order. rewrite index_sort_perm, (comm (++)).
  apply (filter_app_complement (fun kv => array_index kv.1 = None)).
Qed.

Lemma index_insert_map (n : Z) (kv : string * A) (l : list (Z * (string * A))) :
  index_insert n (kv.1, g kv.2) (map (fun p => (p.1, (p.2.1, g p.2.2))) l) =
  map (fun p => (p.1, (p.2.1, g p.2.2))) (index_insert n kv l).
Proof.
  induction l as [|[m kv'] l IH]; simpl; [done|].
  destruct (n <=? m)%Z; simpl; [done|]. by rewrite IH.
Qed.

(** The order only reads keys: it commutes with a map on the values. *)
Lemma enum_order_map (l : list (string * A)) :
  enum_order (map (fun kv => (kv.1, g kv.2)) l) = map (fun kv => (kv.1, g kv.2)) (enum_order l).
Proof.
  unfold enum_order. rewrite map_app. f_equal.
  - assert (Hs : index_sort (map (fun kv => (kv.1, g kv.2)) l) =
                 map (fun p => (p.1, (p.2.1, g p.2.2))) (index_sort l)).
    { induction l as [|kv l IH]; [done|]. simpl.
      destruct (array_index kv.1); [|done]. rewrite IH. apply index_insert_map. }
    rewrite Hs. unfold fmap. rewrite !map_map. done.
  - induction l as [|kv l IH]; [done|]. simpl. rewrite !filter_cons. simpl.
    case_decide; simpl; by rewrite IH.
Qed.
End EnumOrder.

(** ** Lemmas on the text *)

(** One step of the parser and the printer on a known first character. *)
Lemma skip_ws_head (c : ascii) (s : list ascii) : is_ws c = false -> skip_ws (c :: s) = c :: s.
Proof. simpl. by intros ->. Qed.

Lemma first_is_same (c : ascii) (s : list ascii) : first_is c (c :: s) = Some s.
Proof. simpl. by rewrite Ascii.eqb_refl. Qed.

Lemma first_is_other (d c : ascii) (s : list ascii) :
  Ascii.eqb d c = false -> first_is d (c :: s) = None.
Proof. simpl. by intros ->. Qed.

Lemma parse_value_num (f : nat) (c : ascii) (s : list ascii) :
  num_char c = true -> parse_value (S f) (c :: s) = parse_number (c :: s).
Proof. destruct c as [[] [] [] [] [] [] [] []]; try discriminate; reflexivity. Qed.

Lemma parse_value_arr (f : nat) (s : list ascii) :
  parse_value (S f) ("["%char :: s) =
  match first_is "]" (skip_ws s) with
  | Some r' => Some (JArr [], r')
  | None => parse_elements f s []
  end.
Proof. reflexivity. Qed.

Lemma parse_value_obj (f : nat) (s : list ascii) :
  parse_value (S f) ("{"%char :: s) =
  match first_is "}" (skip_ws s) with
  | Some r' => Some (JObj [], r')
  | None => parse_members f s []
  end.
Proof. reflexivity. Qed.

Lemma print_obj (l : list (string * jv)) :
  print (JObj l) =
  "{"%char :: commas (map member_text (map (fun kv => (kv.1, print kv.2)) (enum_order l))) ++
              ["}"%char].
Proof. simpl. by rewrite enum_order_map. Qed.

Lemma print_arr_app (l : list jv) (r : list ascii) :
  print (JArr l) ++ r = "["%char :: commas (map print l) ++ "]"%char :: r.
Proof. simpl. by rewrite <- app_assoc. Qed.

Lemma print_obj_app (l : list (string * jv)) (r : list ascii) :
  print (JObj l) ++ r =
  "{"%char :: commas (map member_text (map (fun kv => (kv.1, print kv.2)) (enum_order l))) ++
              "}"%char :: r.
Proof. rewrite print_obj. simpl. by rewrite <- app_assoc. Qed.

Lemma member_text_app (k : string) (t rest : list ascii) :
  member_text (k, t) ++ rest =
  quote :: flat_map escape_char (list_ascii_of_string k) ++ quote :: ":"%char :: t ++ rest.
Proof. unfold member_text, print_string. simpl. by rewrite <- !app_assoc. Qed.

(** The parser reads back each escaped code unit. *)
Lemma parse_chars_escape (c : ascii) (r : list ascii) :
  parse_chars (escape_char c ++ r) = cons_char c (parse_chars r).
Proof. destruct c as [[] [] [] [] [] [] [] []]; reflexivity. Qed.

Lemma parse_chars_print (s r : list ascii) :
  parse_chars (flat_map escape_char s ++ quote :: r) = Some (s, r).
Proof.
  induction s as [|c s IH]; [reflexivity|]. simpl.
  by rewrite <- app_assoc, parse_chars_escape, IH.
Qed.

(** What a number's first character is not. *)
Lemma num_char_head (c : ascii) :
  num_char c = true ->
  is_ws c = false /\ Ascii.eqb "n" c = false /\ Ascii.eqb "t" c = false /\
  Ascii.eqb "f" c = false /\ Ascii.eqb "[" c = false /\ Ascii.eqb "{" c = false /\
  Ascii.eqb quote c = false.
Proof. destruct c as [[] [] [] [] [] [] [] []]; try discriminate; intros _; repeat split. Qed.

Lemma uint_num_chars (d : Decimal.uint) :
  Forall (fun c => num_char c = true) (list_ascii_of_string (NilEmpty.string_of_uint d)).
Proof. induction d; simpl; by constructor. Qed.

(** [String(n)] is a non-empty run of digits and minus signs. *)
Lemma z_to_string_chars (n : Z) :
  exists c t, list_ascii_of_string (z_to_string n) = c :: t /\
  Forall (fun c => num_char c = true) (c :: t).
Proof.
  unfold z_to_string, NilZero.string_of_int.
  assert (Hu : forall d, exists c t, list_ascii_of_string (NilZero.string_of_uint d) = c :: t /\
                 Forall (fun c => num_char c = true) (c :: t)).
  { intros d. unfold NilZero.string_of_uint.
    destruct d; simpl; eexists _, _; split; try reflexivity; constructor; auto using uint_num_chars. }
  destruct (Z.to_int n) as [d|d]; [apply Hu|]. simpl.
  destruct (Hu d) as (c & t & -> & Hf). eexists _, _; split; [reflexivity|]. by constructor.
Qed.

Lemma z_to_string_not_m0 (n : Z) : z_to_string n <> "-0".
Proof.
  intros H. pose proof (z_of_to_string n) as Hn. rewrite H in Hn.
  vm_compute in Hn. injection Hn as <-. vm_compute in H. discriminate.
Qed.

Lemma span_num_app (t r : list ascii) :
  Forall (fun c => num_char c = true) t -> delim_ok r = true -> span_num (t ++ r) = (t, r).
Proof.
  intros Ht Hr. induction Ht as [|c t Hc _ IH]; simpl.
  - destruct r as [|c r]; [done|]. simpl in Hr |- *. apply negb_true_iff in Hr. by rewrite Hr.
  - by rewrite Hc, IH.
Qed.

Lemma parse_number_print (n : Z) (r : list ascii) :
  delim_ok r = true ->
  parse_number (list_ascii_of_string (z_to_string n) ++ r) = Some (JNum n, r).
Proof.
  intros Hr. destruct (z_to_string_chars n) as (c & t & Ht & Hf).
  unfold parse_number. rewrite span_num_app by (rewrite <- Ht in Hf; done).
  rewrite string_of_list_ascii_of_string.
  destruct (String.eqb_spec (z_to_string n) "-0") as [H|_]; [by apply z_to_string_not_m0 in H|].
  by rewrite z_of_to_string, String.eqb_refl.
Qed.

(** ** Reading a printed value back *)

Lemma print_head (v : jv) :
  exists c t, print v = c :: t /\ is_ws c = false /\ Ascii.eqb "]" c = false /\ Ascii.eqb "}" c = false.
Proof.
  destruct v as [|[]|n|s|l|l]; try (eexists _, _; split; [reflexivity|done]).
  destruct (z_to_string_chars n) as (c & t & Ht & Hc). inversion Hc as [|? ? Hc1]; subst.
  exists c, t. simpl. rewrite Ht. split; [done|].
  revert Hc1. destruct c as [[] [] [] [] [] [] [] []]; try discriminate; done.
Qed.

Lemma reads_back_num (n : Z) : reads_back (JNum n).
Proof.
  intros _ f r Hf Hr. destruct f as [|f]; [simpl in Hf; lia|].
  destruct (z_to_string_chars n) as (c & t & Ht & Hc). inversion Hc; subst.
  simpl print. rewrite Ht. simpl app. rewrite parse_value_num by done.
  rewrite app_comm_cons, <- Ht. by apply parse_number_print.
Qed.

Lemma reads_back_str (s : string) : reads_back (JStr s).
Proof.
  intros _ f r Hf Hr. destruct f as [|f]; [simpl in Hf; lia|]. simpl.
  rewrite <- app_assoc. simpl. rewrite parse_chars_print. by rewrite string_of_list_ascii_of_string.
Qed.

Lemma reads_back_lit (v : jv) : (v = JNull \/ exists b, v = JBool b) -> reads_back v.
Proof.
  intros [->|[[] ->]] _ f r Hf Hr; (destruct f as [|f]; [simpl in Hf; lia|]); reflexivity.
Qed.

Lemma parse_elements_print (xs : list jv) (acc : list jv) (f : nat) (r : list ascii) :
  xs <> [] -> Forall reads_back xs -> forallb wf xs = true ->
  sum_list_with (fun x => S (jsize x)) xs <= f ->
  parse_elements f (commas (map print xs) ++ "]"%char :: r) acc =
  Some (JArr (acc ++ map normalize xs), r).
Proof.
  revert acc f. induction xs as [|x xs IH]; intros acc f Hne Hall Hwf Hf; [done|].
  inversion Hall as [|? ? Hx Hxs]; subst. simpl in Hwf. apply andb_prop in Hwf as [Hwx Hwxs].
  destruct f as [|f]; [simpl in Hf; lia|]. simpl in Hf.
  destruct xs as [|y ys].
  - simpl. rewrite (Hx Hwx f) by (done || lia). reflexivity.
  - cbn [map commas fst snd]. rewrite <- app_assoc. simpl.
    rewrite (Hx Hwx f) by (done || lia). simpl.
    rewrite IH by (done || simpl in *; lia). by rewrite <- app_assoc.
Qed.

Lemma parse_member_step (k : string) (v : jv) (f : nat) (c : ascii) (rest : list ascii)
    (acc : list (string * jv)) :
  reads_back v -> wf v = true -> jsize v <= f -> delim_ok (c :: rest) = true ->
  is_ws c = false ->
  parse_members (S f) (member_text (k, print v) ++ c :: rest) acc =
  match first_is "," (c :: rest) with
  | Some r4 => parse_members f r4 (define k (normalize v) acc)
  | None =>
      match first_is "}" (c :: rest) with
      | Some r4 => Some (JObj (define k (normalize v) acc), r4)
      | None => None
      end
  end.
Proof.
  intros Hv Hw Hf Hd Hc. rewrite member_text_app. simpl.
  rewrite parse_chars_print, string_of_list_ascii_of_string. simpl.
  rewrite (Hv Hw f) by done. simpl. by rewrite Hc.
Qed.

Lemma parse_members_print (es : list (string * jv)) (acc : list (string * jv)) (f : nat)
    (r : list ascii) :
  es <> [] -> Forall (fun kv => reads_back kv.2) es -> forallb (fun kv => wf kv.2) es = true ->
  NoDup (acc.*1 ++ es.*1) ->
  sum_list_with (fun kv => S (jsize kv.2)) es <= f ->
  parse_members f (commas (map member_text (map (fun kv => (kv.1, print kv.2)) es)) ++
                   "}"%char :: r) acc =
  Some (JObj (acc ++ map (fun kv => (kv.1, normalize kv.2)) es), r).
Proof.
  revert acc f. induction es as [|[k v] es IH]; intros acc f Hne Hall Hwf Hnd Hf; [done|].
  inversion Hall as [|? ? Hv Hes]; subst. simpl in Hwf. apply andb_prop in Hwf as [Hwv Hwes].
  destruct f as [|f]; [simpl in Hf; lia|]. simpl in Hf.
  assert (Hk : k ∉ acc.*1).
  { rewrite fmap_cons in Hnd. apply NoDup_app in Hnd as (_ & Hd & _). intros Hin.
    apply (Hd k Hin). set_solver. }
  destruct es as [|[k' v'] es].
  - cbn [map commas fst snd]. rewrite parse_member_step by (done || (simpl in *; lia)).
    simpl. by rewrite define_fresh.
  - cbn [map commas fst snd]. rewrite <- app_assoc, <- app_comm_cons.
    rewrite parse_member_step by (done || (simpl in *; lia)). rewrite first_is_same.
    rewrite define_fresh by done.
    rewrite IH; [by rewrite <- app_assoc| done | done | done | |].
    + rewrite fmap_app, <- app_assoc. by rewrite fmap_cons in Hnd.
    + simpl in *. lia.
Qed.

Lemma print_reads_back (v : jv) : reads_back v.
Proof.
  induction v as [| b | n | s | l IH | l IH] using jv_ind.
  - apply reads_back_lit. by left.
  - apply reads_back_lit. right. by exists b.
  - apply reads_back_num.
  - apply reads_back_str.
  - intros Hw f r Hf Hr. destruct f as [|f]; [simpl in Hf; lia|].
    rewrite print_arr_app, parse_value_arr.
    destruct l as [|x xs]; [reflexivity|].
    destruct (print_head x) as (c & t & Hp & Hc & Hb & _).
    assert (Hh : exists t', commas (map print (x :: xs)) = c :: t').
    { destruct xs; simpl; rewrite Hp; eauto. }
    destruct Hh as [t' Ht']. rewrite Ht', <- app_comm_cons.
    rewrite skip_ws_head, first_is_other by done. rewrite app_comm_cons, <- Ht'.
    apply parse_elements_print; [done | done | done | simpl in *; lia].
  - intros Hw f r Hf Hr. destruct f as [|f]; [simpl in Hf; lia|].
    simpl in Hw. apply andb_prop in Hw as [Hnd%bool_decide_eq_true_1 Hws].
    rewrite print_obj_app, parse_value_obj. simpl normalize. rewrite enum_order_map.
    pose proof (enum_order_perm l) as Hp.
    destruct (enum_order l) as [|[k v] es] eqn:He; [reflexivity|].
    assert (Hh : exists t', commas (map member_text (map (fun kv => (kv.1, print kv.2))
                                                     ((k, v) :: es))) = quote :: t').
    { destruct es; simpl; unfold member_text, print_string; simpl; eauto. }
    destruct Hh as [t' Ht']. rewrite Ht', <- app_comm_cons.
    rewrite skip_ws_head, first_is_other by done. rewrite app_comm_cons, <- Ht'.
    rewrite (parse_members_print ((k, v) :: es) [] f r); [done | done | | | | ].
    + rewrite Hp. by rewrite Forall_forall in IH |- *.
    + by rewrite (forallb_perm _ _ _ Hp).
    + rewrite app_nil_l. by rewrite Hp.
    + rewrite (sum_list_with_perm _ _ _ Hp). simpl in *. lia.
Qed.



Lemma commas_length (xs : list (list ascii)) :
  sum_list_with (fun x => S (length x)) xs <= S (length (commas xs)).
Proof.
  induction xs as [|x xs IH]; [simpl; lia|].
  destruct xs as [|y ys]; simpl in *; [lia|]. rewrite length_app. simpl. lia.
Qed.

(** The text of a value has at least as many characters as the parser
    needs fuel for it. *)
Lemma jsize_print (v : jv) : jsize v <= length (print v).
Proof.
  induction v as [| [] | n | s | l IH | l IH] using jv_ind; try (simpl; lia).
  - simpl. destruct (z_to_string_chars n) as (c & t & -> & _). simpl. lia.
  - simpl. rewrite length_app. pose proof (commas_length (map print l)) as H.
    rewrite sum_list_with_map in H. simpl.
    enough (sum_list_with (fun x => S (jsize x)) l <= sum_list_with (fun x => S (length (print x))) l)
      by lia.
    apply sum_list_with_mono. intros x Hx. rewrite Forall_forall in IH. specialize (IH x Hx). lia.
  - rewrite print_obj. simpl jsize. rewrite length_cons, length_app.
    pose proof (commas_length (map member_text (map (fun kv => (kv.1, print kv.2)) (enum_order l))))
      as H.
    rewrite !sum_list_with_map in H.
    rewrite <- (sum_list_with_perm _ _ _ (enum_order_perm l)).
    enough (sum_list_with (fun kv => S (jsize kv.2)) (enum_order l) <=
            sum_list_with (fun x => S (length (member_text (x.1, print x.2)))) (enum_order l))
      by (simpl in *; lia).
    apply sum_list_with_mono. intros [k x] Hx.
    apply (elem_of_Permutation_proper _ _ _ (enum_order_perm l)) in Hx.
    rewrite Forall_forall in IH. specialize (IH _ Hx). simpl in IH.
    unfold member_text, print_string. simpl. rewrite !length_app. simpl. lia.
Qed.

(** [JSON.parse] reads back what [JSON.stringify] writes: for a
    value without duplicate keys, parsing its text (with the fuel of one
    unit per character) gives the value back, with every object's
    properties in JavaScript's enumeration order. *)
Theorem json_roundtrip (v : jv) :
  wf v = true -> json_parse_text (json_stringify v) = Some (normalize v).
Proof.
  intros Hw. unfold json_parse_text, json_stringify. rewrite list_ascii_of_string_of_list_ascii.
  pose proof (jsize_print v) as Hs.
  pose proof (print_reads_back v Hw (S (length (print v))) [] ltac:(lia) eq_refl) as H.
  rewrite app_nil_r in H. by rewrite H.
Qed.

(** ** What the parser builds *)

(** Every value [JSON.parse] builds has no duplicate key: a repeated key
    of the text updates the first one ([define]). *)
Lemma parse_wf (f : nat) :
  (forall s v r, parse_value f s = Some (v, r) -> wf v = true) /\
  (forall s acc v r, forallb wf acc = true -> parse_elements f s acc = Some (v, r) -> wf v = true) /\
  (forall s acc v r, wf (JObj acc) = true -> parse_members f s acc = Some (v, r) -> wf v = true).
Proof.
  induction f as [|f (IHv & IHe & IHm)]; [done|]. split; [|split].
  - intros s v r. cbn [parse_value].
    repeat case_match; intros; simplify_eq; eauto.
    + by eapply (IHe _ []).
    + by eapply (IHm _ []).
    + unfold parse_number in *. repeat case_match; by simplify_eq.
  - intros s acc v r Hacc. cbn [parse_elements].
    destruct (parse_value f s) as [[x r1]|] eqn:Hx; [|done].
    assert (forallb wf (acc ++ [x]) = true).
    { rewrite forallb_app, Hacc. simpl. by rewrite (IHv _ _ _ Hx). }
    repeat case_match; intros; simplify_eq; eauto.
  - intros s acc v r Hacc. cbn [parse_members].
    repeat case_match; intros; simplify_eq; try done.
    all: try (eapply IHm; [|eassumption]); apply define_wf; eauto.
Qed.

Lemma json_parse_text_wf (t : string) (v : jv) : json_parse_text t = Some v -> wf v = true.
Proof.
  unfold json_parse_text. destruct (parse_value _ _) as [[x r]|] eqn:Hp; [|done].
  case_decide; [|done]. intros [= <-]. by apply (proj1 (parse_wf _) _ _ _ Hp).
Qed.

(** So the hypothesis of the theorems on [wf] bodies holds of an upstream
    read by [JSON.parse]. *)
Lemma json_upstream_wf (routes : list (string * fetch_outcome)) (t : string) (v : jv) :
  @json_parse (json_upstream routes) t = Some v -> wf v = true.
Proof. apply json_parse_text_wf. Qed.

(** ** Witnesses *)

Definition demo_json : jv :=
  JObj [("b", JNum (-12)); ("10", JStr (String backslash EmptyString));
        ("2", JArr [JNull; JBool true]); ("x", JStr (String "010" "q"))].

Lemma json_roundtrip_witness :
  wf demo_json = true /\
  json_parse_text (json_stringify demo_json) =
  Some (JObj [("2", JArr [JNull; JBool true]); ("10", JStr (String backslash EmptyString));
              ("b", JNum (-12)); ("x", JStr (String "010" "q"))]).
Proof. split; [reflexivity|]. rewrite json_roundtrip by reflexivity. reflexivity. Defined.
