(* ===== verification/Bootstrap.v ===== *)
(** * Process bootstrap: configuration and the listening socket

    Both variants start the same way ([src/index.js] lines 1, 9-10 and
    182-187, [src/unnamed/part_000] lines 1, 8-10 and 94-98):

    - [require('dotenv').config()] reads the [.env] file into
      [process.env] without overriding a variable the process already has;
    - the constants [EFLOW_ADMIN_API_KEY] (and [BACKEND_API_KEY] in
      [part_000]) are read once, and [NODE_ENV] when an error is answered:
      the record [config] of [Upstream];
    - [const PORT = process.env.PORT || 8080] and
      [app.listen(PORT, '0.0.0.0', cb)].

    [app.listen] is Node's [net.Server.listen]: a string argument whose
    [Number(...)] is not [>= 0] (it is [NaN], or negative) is taken as the
    path of a Unix-domain socket; otherwise it is a port, validated by
    [validatePort] (a non-blank string whose number is an integer of
    [0, 65535], else a [RangeError] thrown at startup), and the server
    listens on TCP at [0.0.0.0].  [Number] is the [StringToNumber] of the
    language: surrounding white space, the empty string as [0], signs,
    decimal literals with fraction and exponent, [Infinity], and the
    [0x]/[0o]/[0b] literals; its result is the double nearest to the
    literal's value.  The model keeps the literal's exact value and decides
    with [rounds_to] whether its double is a given integer, which is all
    [validatePort] asks.

    The parsing of the [.env] file is the library's: the model starts from
    the parsed file, an association list without repeated names.  White
    space is the 8-bit part of JavaScript's ([TAB], [LF], [VT], [FF],
    [CR], space, no-break space). *)

From Stdlib Require Import QArith Qround Qabs Qpower Lqa DecimalString DecimalPos.
From S2P Require Import Prelude JsValue Upstream.

Local Open Scope Z_scope.

(** ** The environment *)

(** Environment variables, by name. *)
Definition env := list (string * string).

(** [require('dotenv').config()]: a variable of the file is added when the
    process does not have it. *)
Definition dotenv_config (proc file : env) : env :=
  proc ++ filter (fun kv => str_assoc kv.1 proc = None) file.

(** Lines 10 (and 10 of [part_000]) and the [NODE_ENV] read of line 153. *)
Definition load_config (e : env) : config :=
  mk_config (str_assoc "EFLOW_ADMIN_API_KEY" e) (str_assoc "BACKEND_API_KEY" e)
    (str_assoc "NODE_ENV" e).

(** [process.env.PORT || 8080]: [None] is the number [8080], chosen when
    [PORT] is unset or empty. *)
Definition port_setting (e : env) : option string :=
  match str_assoc "PORT" e with
  | Some s => if String.eqb s "" then None else Some s
  | None => None
  end.

(** ** [Number(string)] *)

(** JavaScript white space and line terminators of the 8-bit range. *)
Definition js_space (c : ascii) : bool :=
  let n := Z.of_nat (nat_of_ascii c) in ((9 <=? n) && (n <=? 13)) || (n =? 32) || (n =? 160).

Fixpoint drop_while (p : ascii -> bool) (l : list ascii) : list ascii :=
  match l with
  | c :: r => if p c then drop_while p r else l
  | [] => []
  end.

Fixpoint take_while (p : ascii -> bool) (l : list ascii) : list ascii * list ascii :=
  match l with
  | c :: r => if p c then let '(a, b) := take_while p r in (c :: a, b) else ([], l)
  | [] => ([], [])
  end.

(** [String.prototype.trim], on a string's characters. *)
Definition js_trim (l : list ascii) : list ascii :=
  rev (drop_while js_space (rev (drop_while js_space l))).

(** The value of a digit in base [b], if it is one. *)
Definition digit_in (b : Z) (c : ascii) : option Z :=
  let n := Z.of_nat (nat_of_ascii c) in
  let v := if (48 <=? n)%Z && (n <=? 57)%Z then (n - 48)%Z
           else if (97 <=? n)%Z && (n <=? 102)%Z then (n - 87)%Z
           else if (65 <=? n)%Z && (n <=? 70)%Z then (n - 55)%Z
           else b in
  if (v <? b)%Z then Some v else None.

Definition is_digit (c : ascii) : bool := bool_decide (is_Some (digit_in 10 c)).

(** The value of a run of digits in base [b]. *)
Definition digits_value (b : Z) (ds : list ascii) : Z :=
  fold_left (fun acc c => (acc * b + default 0 (digit_in b c))%Z) ds 0%Z.

(** [StringToNumber]: [NaN], an infinity, or [(-1)^neg * m * 10^e]. *)
Inductive js_num :=
  | NumNaN
  | NumInf (neg : bool)
  | NumFin (neg : bool) (m e : Z).

(** An optional sign. *)
Definition split_sign (l : list ascii) : bool * list ascii :=
  match l with
  | c :: r => if Ascii.eqb c "+" then (false, r) else if Ascii.eqb c "-" then (true, r) else (false, l)
  | [] => (false, [])
  end.

(** [ExponentPart], or nothing. *)
Definition parse_exponent (l : list ascii) : option Z :=
  match l with
  | [] => Some 0
  | c :: r =>
      if Ascii.eqb c "e" || Ascii.eqb c "E" then
        let '(neg, r1) := split_sign r in
        let '(ds, rest) := take_while is_digit r1 in
        match ds, rest with
        | _ :: _, [] => let v := digits_value 10 ds in Some (if neg then - v else v)
        | _, _ => None
        end
      else None
  end.

(** [StrUnsignedDecimalLiteral]: [Infinity], [d.d e], [.d e], [d e]. *)
Definition parse_unsigned (l : list ascii) : option (option (Z * Z)) :=
  if decide (l = list_ascii_of_string "Infinity") then Some None
  else
    let '(ip, r1) := take_while is_digit l in
    let '(fp, r2) :=
      match r1 with
      | c :: r => if Ascii.eqb c "." then take_while is_digit r else ([], r1)
      | [] => ([], [])
      end in
    match ip, fp with
    | [], [] => None
    | _, _ =>
        match parse_exponent r2 with
        | Some x => Some (Some (digits_value 10 (ip ++ fp), x - Z.of_nat (length fp)))
        | None => None
        end
    end.

(** [NonDecimalIntegerLiteral]: [0x], [0o], [0b] and at least one digit. *)
Definition parse_non_decimal (l : list ascii) : option Z :=
  match l with
  | z :: x :: ds =>
      if Ascii.eqb z "0" then
        let b := if Ascii.eqb x "x" || Ascii.eqb x "X" then 16
                 else if Ascii.eqb x "o" || Ascii.eqb x "O" then 8
                 else if Ascii.eqb x "b" || Ascii.eqb x "B" then 2 else 0 in
        if (b =? 0)%Z then None
        else match ds with
             | [] => None
             | _ => if forallb (fun c => bool_decide (is_Some (digit_in b c))) ds
                    then Some (digits_value b ds) else None
             end
      else None
  | _ => None
  end.

Definition js_number (s : string) : js_num :=
  let t := js_trim (list_ascii_of_string s) in
  match t with
  | [] => NumFin false 0 0
  | _ =>
      match parse_non_decimal t with
      | Some v => NumFin false v 0
      | None =>
          let '(neg, u) := split_sign t in
          match parse_unsigned u with
          | Some (Some (m, e)) => NumFin neg m e
          | Some None => NumInf neg
          | None => NumNaN
          end
      end
  end.

(** ** The double of a literal *)

(** How far a literal's value is from the doubles that matter: it is
    zero or below [2^-1075] (its double is a zero), at least [10^7] (its
    double is no port), or exactly [q].  The bounds keep the exact value's
    size proportional to the literal's length. *)
Inductive num_class :=
  | CZero
  | CBig
  | CExact (q : Q).

Definition classify (m e : Z) : num_class :=
  if (m =? 0)%Z then CZero
  else if (6 <? e)%Z then CBig
  else if (Z.log2 m + 1 + 3 * e <? -1075)%Z then CZero
  else if (0 <=? e)%Z then CExact (inject_Z (m * 10 ^ e))
  else CExact (Qmake m (Z.to_pos (10 ^ (- e)))).

(** The double nearest to [q] (ties to even) is the integer [n], for
    [0 <= n < 2^53]: the doubles around [n] are [2^(k-52)] apart, where
    [2^k <= n < 2^(k+1)], and half that below a power of two. *)
Definition rounds_to (q : Q) (n : Z) : bool :=
  if (n =? 0)%Z then Qle_bool (Qabs q) (Qmake 1 (Pos.pow 2 1075))
  else
    let k := Z.log2 n in
    let ulp := Qpower (inject_Z 2) (k - 52) in
    let lo := if (n =? 2 ^ k)%Z then Qmult ulp (Qmake 1 4) else Qmult ulp (Qmake 1 2) in
    Qle_bool (Qminus (inject_Z n) lo) q && Qle_bool q (Qplus (inject_Z n) (Qmult ulp (Qmake 1 2))).

(** [validatePort] on a positive exact value: its double is an integer of
    [0, 65535]. *)
Definition port_of (q : Q) : option Z :=
  let n := Qfloor (Qplus q (Qmake 1 2)) in
  if (0 <=? n)%Z && (n <=? 65535)%Z && rounds_to q n then Some n else None.

(** ** [app.listen(PORT, '0.0.0.0', cb)] *)

Inductive listen_target :=
  | ListenTcp (port : Z) (host : string)
  | ListenPipe (path : string)
  | ListenThrows.

(** Line 183: [None] is the number [8080]; a string goes through
    [isPipeName] ([Number(s) >= 0] fails: a socket path), then
    [validatePort] (blank, non-integer or out of range: [RangeError]).
    A negative value whose double is [-0] counts as [0]. *)
Definition listen (port : option string) : listen_target :=
  match port with
  | None => ListenTcp 8080 "0.0.0.0"
  | Some s =>
      match js_number s with
      | NumNaN | NumInf true => ListenPipe s
      | NumInf false => ListenThrows
      | NumFin neg m e =>
          match classify m e with
          | CZero =>
              if decide (js_trim (list_ascii_of_string s) = []) then ListenThrows
              else ListenTcp 0 "0.0.0.0"
          | CBig => if neg then ListenPipe s else ListenThrows
          | CExact q =>
              if neg then (if rounds_to q 0 then ListenTcp 0 "0.0.0.0" else ListenPipe s)
              else match port_of q with
                   | Some n => ListenTcp n "0.0.0.0"
                   | None => ListenThrows
                   end
          end
      end
  end.

(** What the process has once the module has run. *)
Record startup := mk_startup {
  st_config : config;
  st_listen : listen_target
}.

(** Lines 1, 10 and 182-183. *)
Definition boot (proc file : env) : startup :=
  let e := dotenv_config proc file in
  mk_startup (load_config e) (listen (port_setting e)).

(** A lower-case ASCII letter. *)
Definition is_lower (c : ascii) : bool :=
  let n := Z.of_nat (nat_of_ascii c) in (97 <=? n) && (n <=? 122).

(** What [dotenv] leaves for a variable: the process's value, else the
    file's. *)
Definition env_pick (k : string) (proc file : env) : option string :=
  match str_assoc k proc with
  | Some v => Some v
  | None => str_assoc k file
  end.

(** ** Lemmas *)

Lemma dotenv_lookup (k : string) (proc file : env) :
  str_assoc k (dotenv_config proc file) = env_pick k proc file.
Proof.
  unfold dotenv_config, env_pick. rewrite str_assoc_app.
  destruct (str_assoc k proc) as [v|] eqn:Hk; [done|].
  apply str_assoc_filter. intros [k' v'] _ ->. simpl. by rewrite Hk.
Qed.

(** ** [Number] on a run of decimal digits *)

Lemma digits_value_uint_acc (u : Decimal.uint) (acc : positive) :
  fold_left (fun acc c => acc * 10 + default 0 (digit_in 10 c))
    (list_ascii_of_string (NilEmpty.string_of_uint u)) (Zpos acc) = Zpos (Pos.of_uint_acc u acc).
Proof. revert acc. induction u; intros acc; cbn; try done; rewrite <- IHu; f_equal.
  all: match goal with
       | |- context [default 0 (digit_in 10 ?c)] =>
           let v := eval cbv in (default 0 (digit_in 10 c)) in
           change (default 0 (digit_in 10 c)) with v
       end; lia.
Qed.

Lemma digits_value_uint (u : Decimal.uint) :
  digits_value 10 (list_ascii_of_string (NilEmpty.string_of_uint u)) = Z.of_N (Pos.of_uint u).
Proof.
  unfold digits_value. induction u; simpl; try done; by rewrite <- digits_value_uint_acc.
Qed.

Lemma uint_digits (u : Decimal.uint) :
  Forall (fun c => is_digit c = true) (list_ascii_of_string (NilEmpty.string_of_uint u)).
Proof. induction u; simpl; by constructor. Qed.

(** The decimal text of a natural number: its digits and their value. *)
Lemma z_to_string_nat (n : Z) :
  0 <= n ->
  exists c t, list_ascii_of_string (z_to_string n) = c :: t /\
    Forall (fun c => is_digit c = true) (c :: t) /\ digits_value 10 (c :: t) = n.
Proof.
  intros Hn. destruct n as [|p|p]; [|clear Hn|lia].
  { exists "0"%char, []. split; [reflexivity|]. split; [by repeat constructor | reflexivity]. }
  assert (Hs : z_to_string (Zpos p) = NilEmpty.string_of_uint (Pos.to_uint p)).
  { unfold z_to_string, NilZero.string_of_int, NilZero.string_of_uint. simpl Z.to_int.
    pose proof (DecimalPos.Unsigned.to_uint_nonnil p). by destruct (Pos.to_uint p). }
  rewrite Hs. destruct (list_ascii_of_string (NilEmpty.string_of_uint (Pos.to_uint p))) as [|c t] eqn:E.
  - pose proof (DecimalPos.Unsigned.to_uint_nonnil p). by destruct (Pos.to_uint p).
  - exists c, t. rewrite <- E. split; [done|]. split; [apply uint_digits|].
    by rewrite digits_value_uint, DecimalPos.Unsigned.of_to.
Qed.

Lemma is_digit_char (c : ascii) :
  is_digit c = true ->
  js_space c = false /\ Ascii.eqb c "+" = false /\ Ascii.eqb c "-" = false /\
  (Ascii.eqb c "x" || Ascii.eqb c "X") = false /\ (Ascii.eqb c "o" || Ascii.eqb c "O") = false /\
  (Ascii.eqb c "b" || Ascii.eqb c "B") = false.
Proof. destruct c as [[] [] [] [] [] [] [] []]; try discriminate; intros _; repeat split. Qed.

Lemma take_while_all (p : ascii -> bool) (l : list ascii) :
  Forall (fun c => p c = true) l -> take_while p l = (l, []).
Proof. induction 1 as [|c l Hc _ IH]; simpl; [done|]. by rewrite Hc, IH. Qed.

Lemma drop_while_stop (p : ascii -> bool) (c : ascii) (l : list ascii) :
  p c = false -> drop_while p (c :: l) = c :: l.
Proof. simpl. by intros ->. Qed.

Lemma js_trim_digits (l : list ascii) :
  Forall (fun c => is_digit c = true) l -> js_trim l = l.
Proof.
  intros Hd. unfold js_trim. destruct l as [|c t]; [done|].
  rewrite drop_while_stop by (apply is_digit_char; by inversion Hd).
  apply Forall_rev in Hd. destruct (rev (c :: t)) as [|d r] eqn:E; [apply (f_equal length) in E; by rewrite length_rev in E|].
  rewrite drop_while_stop by (apply is_digit_char; by inversion Hd).
  by rewrite <- E, rev_involutive.
Qed.

Lemma js_number_digits (c : ascii) (t : list ascii) :
  Forall (fun c => is_digit c = true) (c :: t) ->
  js_number (string_of_list_ascii (c :: t)) = NumFin false (digits_value 10 (c :: t)) 0.
Proof.
  intros Hd. unfold js_number. rewrite list_ascii_of_string_of_list_ascii, js_trim_digits by done.
  inversion Hd as [|? ? Hc Ht]; subst.
  destruct (is_digit_char c Hc) as (_ & Hplus & Hminus & _).
  assert (Hnd : parse_non_decimal (c :: t) = None).
  { destruct t as [|x t]; [done|]. simpl. destruct (Ascii.eqb c "0"); [|done].
    inversion Ht as [|? ? Hx _]; subst.
    destruct (is_digit_char x Hx) as (_ & _ & _ & -> & -> & ->). done. }
  rewrite Hnd. simpl split_sign. rewrite Hplus, Hminus. unfold parse_unsigned.
  rewrite decide_False.
  - rewrite take_while_all by done. by rewrite app_nil_r.
  - intros E. rewrite E in Hd. inversion Hd. discriminate.
Qed.

Lemma qfloor_half (n : Z) : Qfloor (Qplus (inject_Z n) (Qmake 1 2)) = n.
Proof.
  unfold Qfloor, Qplus, inject_Z. simpl. change (Z.pos (1 * 2)) with 2.
  rewrite Z.div_add_l by lia. change ((1 * 1) / 2) with 0. lia.
Qed.

Lemma rounds_to_int (n : Z) : 0 < n -> rounds_to (inject_Z n) n = true.
Proof.
  intros Hn. unfold rounds_to. rewrite (proj2 (Z.eqb_neq n 0)) by lia.
  assert (Hu : (0 <= Qpower (inject_Z 2) (Z.log2 n - 52))%Q) by (apply Qpower_0_le; discriminate).
  destruct (n =? 2 ^ Z.log2 n); apply andb_true_intro; split; apply Qle_bool_iff; lra.
Qed.

Lemma port_of_int (n : Z) : 0 < n -> port_of (inject_Z n) = if n <=? 65535 then Some n else None.
Proof.
  intros Hn. unfold port_of. rewrite qfloor_half, rounds_to_int by done.
  rewrite (proj2 (Z.leb_le 0 n)) by lia. by destruct (n <=? 65535).
Qed.

Lemma listen_decimal (n : Z) :
  0 <= n ->
  listen (Some (z_to_string n)) = if n <=? 65535 then ListenTcp n "0.0.0.0" else ListenThrows.
Proof.
  intros Hn. destruct (z_to_string_nat n Hn) as (c & t & Ht & Hd & Hv).
  unfold listen. rewrite <- (string_of_list_ascii_of_string (z_to_string n)), Ht.
  rewrite js_number_digits, Hv by done. unfold classify.
  destruct (Z.eqb_spec n 0) as [->|Hn0].
  - rewrite list_ascii_of_string_of_list_ascii, js_trim_digits by done. done.
  - rewrite (proj2 (Z.ltb_ge 6 0)), (proj2 (Z.ltb_ge _ (-1075))) by (pose proof (Z.log2_nonneg n); lia).
    rewrite Z.leb_refl, Z.pow_0_r, Z.mul_1_r. cbv beta iota. rewrite port_of_int by lia.
    by destruct (n <=? 65535).
Qed.

(** ** [Number] on a word *)

Lemma lower_char (c : ascii) :
  is_lower c = true ->
  js_space c = false /\ Ascii.eqb c "0" = false /\ Ascii.eqb c "+" = false /\
  Ascii.eqb c "-" = false /\ is_digit c = false /\ Ascii.eqb c "." = false /\ c <> "I"%char.
Proof.
  destruct c as [[] [] [] [] [] [] [] []]; try discriminate; intros _; repeat split; discriminate.
Qed.

Lemma drop_while_snoc (p : ascii -> bool) (l : list ascii) (c : ascii) :
  p c = false -> drop_while p (l ++ [c]) = drop_while p l ++ [c].
Proof. intros Hc. induction l as [|d l IH]; simpl; [by rewrite Hc|]. by destruct (p d). Qed.

(** Trimming keeps a first character that is not white space. *)
Lemma js_trim_head (c : ascii) (t : list ascii) :
  js_space c = false -> exists t', js_trim (c :: t) = c :: t'.
Proof.
  intros Hc. unfold js_trim. rewrite drop_while_stop by done. simpl.
  rewrite drop_while_snoc by done. rewrite rev_app_distr. simpl. eauto.
Qed.

(** A text that starts with a lower-case letter is no number. *)
Lemma js_number_word (c : ascii) (t : list ascii) :
  is_lower c = true -> js_number (string_of_list_ascii (c :: t)) = NumNaN.
Proof.
  intros Hl. destruct (lower_char c Hl) as (Hs & H0 & Hp & Hm & Hd & Hdot & HI).
  unfold js_number. rewrite list_ascii_of_string_of_list_ascii.
  destruct (js_trim_head c t Hs) as [t' ->].
  assert (Hnd : parse_non_decimal (c :: t') = None).
  { destruct t' as [|x t']; [done|]. simpl. by rewrite H0. }
  rewrite Hnd. simpl split_sign. rewrite Hp, Hm. unfold parse_unsigned.
  rewrite decide_False by (intros [= ? _]; done). simpl. by rewrite Hd, Hdot.
Qed.

(** What [validatePort] guarantees: a TCP port is in [0, 65535]. *)
Lemma listen_port_range (p : option string) (n : Z) (h : string) :
  listen p = ListenTcp n h -> 0 <= n <= 65535 /\ h = "0.0.0.0".
Proof.
  assert (Hq : forall q m, port_of q = Some m -> 0 <= m <= 65535).
  { unfold port_of. cbv zeta. intros q m. set (k := Qfloor _). case_match eqn:E; [|done]. intros Hm. injection Hm as <-.
    apply andb_true_iff in E as [E _]. apply andb_true_iff in E as [E1 E2].
    apply Z.leb_le in E1, E2. lia. }
  unfold listen. repeat case_match; intros; simplify_eq; (split; [eauto || lia | done]).
Qed.

(** The configuration the handlers read comes from the process, else
    from [.env]. *)
Lemma boot_config (proc file : env) :
  st_config (boot proc file) =
  mk_config (env_pick "EFLOW_ADMIN_API_KEY" proc file) (env_pick "BACKEND_API_KEY" proc file)
    (env_pick "NODE_ENV" proc file).
Proof. unfold boot, load_config. simpl. by rewrite !dotenv_lookup. Qed.

Lemma boot_port (proc file : env) :
  st_listen (boot proc file) =
  listen (match env_pick "PORT" proc file with
          | Some s => if String.eqb s "" then None else Some s
          | None => None
          end).
Proof. unfold boot, port_setting. simpl. by rewrite dotenv_lookup. Qed.

(** ** Theorems *)

(** C35: With [PORT] unset or empty (in the process and in [.env]) the
    server listens on TCP port 8080 of [0.0.0.0]; with [PORT] the decimal
    text of a natural number [n], it listens on port [n] when
    [n <= 65535], and [app.listen] throws at startup otherwise. *)
Theorem boot_listen (proc file : env) :
  match env_pick "PORT" proc file with
  | None => st_listen (boot proc file) = ListenTcp 8080 "0.0.0.0"
  | Some s =>
      (s = "" -> st_listen (boot proc file) = ListenTcp 8080 "0.0.0.0") /\
      (forall n, 0 <= n -> s = z_to_string n ->
       st_listen (boot proc file) = if n <=? 65535 then ListenTcp n "0.0.0.0" else ListenThrows)
  end.
Proof.
  rewrite boot_port. destruct (env_pick "PORT" proc file) as [s|]; [|done]. split.
  - intros ->. done.
  - intros n Hn ->. destruct (z_to_string_nat n Hn) as (c & t & Ht & _).
    destruct (String.eqb_spec (z_to_string n) "") as [He|_].
    + rewrite He in Ht. discriminate.
    + by apply listen_decimal.
Qed.

(** C36: A [PORT] that starts with a lower-case letter (a name such as
    [api]) is no number, so [app.listen] binds a Unix-domain socket of
    that name in the working directory instead of a TCP port, while the
    startup message still says "Server running on port". *)
Theorem boot_port_name_socket (proc file : env) (c : ascii) (t : list ascii) :
  is_lower c = true -> env_pick "PORT" proc file = Some (string_of_list_ascii (c :: t)) ->
  st_listen (boot proc file) = ListenPipe (string_of_list_ascii (c :: t)).
Proof.
  intros Hl Hp. rewrite boot_port, Hp. simpl (String.eqb _ _).
  unfold listen. by rewrite js_number_word.
Qed.

(** ** Witnesses *)

Lemma boot_listen_witness :
  st_listen (boot [("PORT", "3000")] [("PORT", "70000")]) = ListenTcp 3000 "0.0.0.0" /\
  st_listen (boot [] [("PORT", "70000")]) = ListenThrows.
Proof.
  split.
  - apply (proj2 (boot_listen [("PORT", "3000")] [("PORT", "70000")]) 3000); [lia | reflexivity].
  - apply (proj2 (boot_listen [] [("PORT", "70000")]) 70000); [lia | reflexivity].
Defined.

Lemma boot_port_name_socket_witness :
  st_listen (boot [] [("PORT", "api")]) = ListenPipe "api".
Proof. apply (boot_port_name_socket [] [("PORT", "api")] "a" ["p"; "i"]%char); reflexivity. Defined.
